(** * ScriptForgeAI: the workflow execution route

    A shallow embedding of [app/api/scriptforge/workflows/execute/route.js]
    (the multi-agent pipeline orchestrator) and the properties of its
    full-run loop, its single-node runner, its output formatter and its
    execution summary.

    Conventions of the embedding.
    - A JavaScript value is a finite tree ([value]): the primitives,
      arrays and plain data objects.  Functions, symbols, accessors and
      objects that contain themselves are outside this type.  A JavaScript
      number is an integer ([Z]); a character is one [ascii].
    - An object is an association list in insertion order (the order
      [Object.keys] and [JSON.stringify] follow for keys that are not
      array indices), with at most one entry per key and no key that
      shadows a method of [Object.prototype] ([toString], [valueOf],
      [toJSON]).
    - A [throw] is the [Throw] constructor of [completion]; the state
      built before a [throw] is kept, as in the source.
    - [workflow.save()] may be rejected: whether the n-th write a request
      attempts is accepted is a parameter of the model ([save_outcome]);
      an accepted write appends the document to the list of checkpoints,
      a rejected one throws.
    - [NextResponse.json(body)] serializes [body] with JSON.stringify and
      throws when that throws; only the two answers that carry results
      can make it throw.
    - [executeAgent] and [AGENT_DEFINITIONS] are imported by the route from
      modules outside it; they are parameters of the model.
      [executeAgent] returns an object [{ result, updatedContext }] or
      throws.
    - [getServerSession], [connectDB] and [req.json] are taken to return,
      and [findOne] to find the workflow or not: a request that fails
      there is answered 500 by the [catch] of the handler before any
      document is touched. *)

From Stdlib Require Import ZArith String Ascii List Bool Lia DecimalString.
From stdpp Require Import base list strings.

Local Open Scope string_scope.
Local Open Scope list_scope.

(** ** JavaScript values *)

#[warnings="-register-all"]
Inductive value : Type :=
| VUndefined
| VNull
| VBool (b : bool)
| VNum (n : Z)
| VBigInt (n : Z)
| VStr (s : string)
| VArr (elems : list value)
| VObj (props : list (string * value)).

(** A thrown [Error]: the route only ever reads [error.message]. *)
Record js_error : Type := JsError { err_name : string; message : string }.

Definition TypeError (msg : string) : js_error := JsError "TypeError" msg.

Inductive completion (A : Type) : Type :=
| Normal (a : A)
| Throw (e : js_error).
Arguments Normal {A} a.
Arguments Throw {A} e.

#[global] Instance completion_ret : MRet completion := fun A a => Normal a.
#[global] Instance completion_bind : MBind completion :=
  fun A B f m => match m with Normal a => f a | Throw e => Throw e end.

(** [try { body } catch (error) { handler }] on pure code. *)
Definition try_catch {A} (body : completion A) (handler : js_error -> completion A)
  : completion A :=
  match body with Normal a => Normal a | Throw e => handler e end.

Definition LF : string := String "010"%char EmptyString.
Definition DQUOTE : string := String "034"%char EmptyString.

(** ToBoolean: what [!!v], [v || w] and [if (v)] test. *)
Definition truthy (v : value) : bool :=
  match v with
  | VUndefined | VNull => false
  | VBool b => b
  | VNum n | VBigInt n => negb (n =? 0)%Z
  | VStr s => negb (String.eqb s "")
  | VArr _ | VObj _ => true
  end.

(** [a || b] *)
Definition or_else (a b : value) : value := if truthy a then a else b.

Definition decimal (n : Z) : string := NilZero.string_of_int (Z.to_int n).

Definition of_nat (n : nat) : value := VNum (Z.of_nat n).

(** Own-property lookup of a plain object. *)
Fixpoint lookup_prop (k : string) (ps : list (string * value)) : value :=
  match ps with
  | [] => VUndefined
  | (k', v) :: r => if String.eqb k k' then v else lookup_prop k r
  end.

(** Property assignment [o[k] = v]: overwrite in place, else append. *)
Fixpoint assign_prop (k : string) (v : value) (ps : list (string * value))
  : list (string * value) :=
  match ps with
  | [] => [(k, v)]
  | (k', v') :: r =>
      if String.eqb k k' then (k', v) :: r else (k', v') :: assign_prop k v r
  end.

(** [v.k] for the data property names the route reads.  Reading a property
    of [undefined] or [null] throws; arrays and strings answer [length]. *)
Definition get (v : value) (k : string) : completion value :=
  match v with
  | VUndefined =>
      Throw (TypeError ("Cannot read properties of undefined (reading '" +:+ k +:+ "')"))
  | VNull =>
      Throw (TypeError ("Cannot read properties of null (reading '" +:+ k +:+ "')"))
  | VObj ps => Normal (lookup_prop k ps)
  | VArr l => Normal (if String.eqb k "length" then of_nat (length l) else VUndefined)
  | VStr s => Normal (if String.eqb k "length" then of_nat (String.length s) else VUndefined)
  | VBool _ | VNum _ | VBigInt _ => Normal VUndefined
  end.

(** [v?.k] *)
Definition opt_get (v : value) (k : string) : value :=
  match v with
  | VUndefined | VNull => VUndefined
  | VObj ps => lookup_prop k ps
  | VArr l => if String.eqb k "length" then of_nat (length l) else VUndefined
  | VStr s => if String.eqb k "length" then of_nat (String.length s) else VUndefined
  | VBool _ | VNum _ | VBigInt _ => VUndefined
  end.

(** ToString, as a template literal or [+ '...'] applies it; an array
    prints as [join(',')], whose holes for [undefined] and [null] are
    empty. *)
Fixpoint to_string (v : value) : string :=
  match v with
  | VUndefined => "undefined"
  | VNull => "null"
  | VBool true => "true"
  | VBool false => "false"
  | VNum n | VBigInt n => decimal n
  | VStr s => s
  | VArr l =>
      (fix join_comma (l : list value) : string :=
         match l with
         | [] => ""
         | [x] => match x with VUndefined | VNull => "" | _ => to_string x end
         | x :: r =>
             match x with VUndefined | VNull => "" | _ => to_string x end
             +:+ "," +:+ join_comma r
         end) l
  | VObj _ => "[object Object]"
  end.

Definition join_item (v : value) : string :=
  match v with VUndefined | VNull => "" | _ => to_string v end.

(** [Array.prototype.join] *)
Fixpoint join (sep : string) (l : list value) : string :=
  match l with
  | [] => ""
  | [x] => join_item x
  | x :: r => join_item x +:+ sep +:+ join sep r
  end.

Fixpoint join_strings (sep : string) (l : list string) : string :=
  match l with
  | [] => ""
  | [x] => x
  | x :: r => x +:+ sep +:+ join_strings sep r
  end.

(** [result.k?.join(sep)], for the value [x] of [result.k]: only an array
    has the method. *)
Definition opt_join (k : string) (x : value) (sep : string) : completion value :=
  match x with
  | VUndefined | VNull => Normal VUndefined
  | VArr l => Normal (VStr (join sep l))
  | _ => Throw (TypeError ("result." +:+ k +:+ "?.join is not a function"))
  end.

(** [x?.length || 0] *)
Definition length_or_0 (x : value) : value := or_else (opt_get x "length") (VNum 0).

(** [agentContext.storyBrief?.substring(0, n)], for the value [x] of
    [agentContext.storyBrief]: only a string has the method. *)
Definition opt_substring (x : value) (n : nat) : completion value :=
  match x with
  | VUndefined | VNull => Normal VUndefined
  | VStr s => Normal (VStr (String.substring 0 n s))
  | _ => Throw (TypeError "agentContext.storyBrief?.substring is not a function")
  end.

(** [Object.keys(v)] *)
Definition object_keys (v : value) : completion (list string) :=
  match v with
  | VUndefined | VNull => Throw (TypeError "Cannot convert undefined or null to object")
  | VObj ps => Normal (map fst ps)
  | VArr l => Normal (map (fun i => decimal (Z.of_nat i)) (seq 0 (length l)))
  | VStr s => Normal (map (fun i => decimal (Z.of_nat i)) (seq 0 (String.length s)))
  | VBool _ | VNum _ | VBigInt _ => Normal []
  end.

(** ** JSON.stringify(v, null, 2) *)

Definition hex_digit (n : nat) : string :=
  String.substring n 1 "0123456789abcdef".

Definition quote_char (c : ascii) : string :=
  let n := nat_of_ascii c in
  if Nat.eqb n 8 then "\b"
  else if Nat.eqb n 9 then "\t"
  else if Nat.eqb n 10 then "\n"
  else if Nat.eqb n 12 then "\f"
  else if Nat.eqb n 13 then "\r"
  else if Nat.eqb n 34 then "\" +:+ DQUOTE
  else if Nat.eqb n 92 then "\\"
  else if Nat.ltb n 32 then "\u00" +:+ hex_digit (Nat.div n 16) +:+ hex_digit (Nat.modulo n 16)
  else String c EmptyString.

Fixpoint quote_chars (s : string) : string :=
  match s with
  | EmptyString => ""
  | String c r => quote_char c +:+ quote_chars r
  end.

(** QuoteJSONString *)
Definition quote (s : string) : string := DQUOTE +:+ quote_chars s +:+ DQUOTE.

Definition wrap (opening closing indent : string) (items : list string) : string :=
  match items with
  | [] => opening +:+ closing
  | _ =>
      let inner := indent +:+ "  " in
      opening +:+ LF +:+ inner
      +:+ join_strings ("," +:+ LF +:+ inner) items
      +:+ LF +:+ indent +:+ closing
  end.

(** SerializeJSONProperty: [None] is the [undefined] of a value that has no
    JSON form; a BigInt throws. *)
Fixpoint serialize (indent : string) (v : value) : completion (option string) :=
  match v with
  | VUndefined => Normal None
  | VNull => Normal (Some "null")
  | VBool true => Normal (Some "true")
  | VBool false => Normal (Some "false")
  | VNum n => Normal (Some (decimal n))
  | VBigInt _ => Throw (TypeError "Do not know how to serialize a BigInt")
  | VStr s => Normal (Some (quote s))
  | VArr l =>
      items ← (fix elements (l : list value) : completion (list string) :=
                 match l with
                 | [] => Normal []
                 | x :: r =>
                     o ← serialize (indent +:+ "  ") x;
                     rest ← elements r;
                     Normal (default "null" o :: rest)
                 end) l;
      Normal (Some (wrap "[" "]" indent items))
  | VObj ps =>
      items ← (fix members (ps : list (string * value)) : completion (list string) :=
                 match ps with
                 | [] => Normal []
                 | (k, x) :: r =>
                     o ← serialize (indent +:+ "  ") x;
                     rest ← members r;
                     Normal (match o with
                             | Some s => (quote k +:+ ": " +:+ s) :: rest
                             | None => rest
                             end)
                 end) ps;
      Normal (Some (wrap "{" "}" indent items))
  end.

Definition JSON_stringify (v : value) : completion value :=
  o ← serialize "" v;
  Normal (match o with Some s => VStr s | None => VUndefined end).

(** ** formatAgentOutput (route.js, lines 247-277) *)

(** The [default:] branch of the switch, repeated in the [catch] handler:
    [typeof result === 'string' ? result : JSON.stringify(result, null, 2)] *)
Definition generic_rendering (result : value) : completion value :=
  match result with
  | VStr s => Normal (VStr s)
  | _ => JSON_stringify result
  end.

(** [${result.k?.length || 0}] *)
Definition count_of (result : value) (k : string) : completion string :=
  x ← get result k;
  Normal (to_string (length_or_0 x)).

(** [${result.k}] *)
Definition field_of (result : value) (k : string) : completion string :=
  x ← get result k;
  Normal (to_string x).

(** [${result.k?.join(sep)}] *)
Definition joined_of (result : value) (k sep : string) : completion string :=
  x ← get result k;
  j ← opt_join k x sep;
  Normal (to_string j).

(** [result.slice(0, 3)] followed by [.map(...)]: [slice] exists on arrays
    and strings, [map] on arrays only. *)
Definition slice3_for_map (result : value) : completion (list value) :=
  match result with
  | VUndefined => Throw (TypeError "Cannot read properties of undefined (reading 'slice')")
  | VNull => Throw (TypeError "Cannot read properties of null (reading 'slice')")
  | VArr l => Normal (firstn 3 l)
  | VStr _ => Throw (TypeError "result.slice(...).map is not a function")
  | _ => Throw (TypeError "result.slice is not a function")
  end.

(** [.map(a => `â€¢ ${a.query}`)] *)
Fixpoint map_bullets (l : list value) : completion (list string) :=
  match l with
  | [] => Normal []
  | a :: r =>
      q ← get a "query";
      rest ← map_bullets r;
      Normal (("â€¢ " +:+ to_string q) :: rest)
  end.

Definition render_story_intelligence (result : value) : completion value :=
  genre ← field_of result "genre";
  themes ← joined_of result "themes" ", ";
  setting ← field_of result "setting";
  mainConflict ← field_of result "mainConflict";
  Normal (VStr ("**Genre:** " +:+ genre +:+ LF +:+ "**Themes:** " +:+ themes +:+ LF
                +:+ "**Setting:** " +:+ setting +:+ LF
                +:+ "**Main Conflict:** " +:+ mainConflict)).

Definition render_knowledge_graph (result : value) : completion value :=
  characters ← count_of result "characters";
  locations ← count_of result "locations";
  events ← count_of result "events";
  relationships ← count_of result "relationships";
  plotThreads ← count_of result "plotThreads";
  Normal (VStr ("**Characters:** " +:+ characters +:+ LF
                +:+ "**Locations:** " +:+ locations +:+ LF
                +:+ "**Events:** " +:+ events +:+ LF
                +:+ "**Relationships:** " +:+ relationships +:+ LF
                +:+ "**Plot Threads:** " +:+ plotThreads)).

Definition render_temporal_reasoning (result : value) : completion value :=
  chronologicalEvents ← count_of result "chronologicalEvents";
  flashbacks ← count_of result "flashbacks";
  causalChains ← count_of result "causalChains";
  temporalIssues ← count_of result "temporalIssues";
  Normal (VStr ("**Timeline Events:** " +:+ chronologicalEvents +:+ LF
                +:+ "**Flashbacks:** " +:+ flashbacks +:+ LF
                +:+ "**Causal Chains:** " +:+ causalChains +:+ LF
                +:+ "**Issues Found:** " +:+ temporalIssues)).

Definition render_continuity_validator (result : value) : completion value :=
  continuityScore ← field_of result "continuityScore";
  contradictions ← count_of result "contradictions";
  errs ← count_of result "errors";
  recommendations ← count_of result "recommendations";
  Normal (VStr ("**Continuity Score:** " +:+ continuityScore +:+ "/100" +:+ LF
                +:+ "**Contradictions:** " +:+ contradictions +:+ LF
                +:+ "**Errors:** " +:+ errs +:+ LF
                +:+ "**Recommendations:** " +:+ recommendations)).

Definition render_creative_coauthor (result : value) : completion value :=
  sceneSuggestions ← count_of result "sceneSuggestions";
  plotDevelopments ← count_of result "plotDevelopments";
  dialogueImprovements ← count_of result "dialogueImprovements";
  characterArcGuidance ← count_of result "characterArcGuidance";
  Normal (VStr ("**Scene Suggestions:** " +:+ sceneSuggestions +:+ LF
                +:+ "**Plot Developments:** " +:+ plotDevelopments +:+ LF
                +:+ "**Dialogue Ideas:** " +:+ dialogueImprovements +:+ LF
                +:+ "**Character Arcs:** " +:+ characterArcGuidance)).

Definition render_intelligent_recall (result : value) : completion value :=
  len ← get result "length";
  first3 ← slice3_for_map result;
  bullets ← map_bullets first3;
  Normal (VStr ("**Insights Generated:** " +:+ to_string (or_else len (VNum 0)) +:+ LF
                +:+ join_strings LF bullets)).

Definition render_cinematic_teaser (result : value) : completion value :=
  tagline ← field_of result "tagline";
  visualPrompts ← count_of result "visualPrompts";
  hooks ← joined_of result "hooks" " | ";
  Normal (VStr ("**Tagline:** " +:+ tagline +:+ LF
                +:+ "**Visual Scenes:** " +:+ visualPrompts +:+ LF
                +:+ "**Hooks:** " +:+ hooks)).

(** The seven [case] labels of the switch. *)
Definition recognized_kinds : list string :=
  [ "story-intelligence"; "knowledge-graph"; "temporal-reasoning";
    "continuity-validator"; "creative-coauthor"; "intelligent-recall";
    "cinematic-teaser" ].

Definition switch_agentType (agentType : string) (result : value) : completion value :=
  if String.eqb agentType "story-intelligence" then render_story_intelligence result
  else if String.eqb agentType "knowledge-graph" then render_knowledge_graph result
  else if String.eqb agentType "temporal-reasoning" then render_temporal_reasoning result
  else if String.eqb agentType "continuity-validator" then render_continuity_validator result
  else if String.eqb agentType "creative-coauthor" then render_creative_coauthor result
  else if String.eqb agentType "intelligent-recall" then render_intelligent_recall result
  else if String.eqb agentType "cinematic-teaser" then render_cinematic_teaser result
  else generic_rendering result.

Definition formatAgentOutput (agentType : string) (result : value) : completion value :=
  try_catch (switch_agentType agentType result) (fun _ => generic_rendering result).

(** ** The persisted workflow document *)

Inductive node_status : Type := StPending | StRunning | StSuccess | StError.

(** [node.data]; an unset property is [VUndefined]. *)
Record node_data : Type := mkData {
  d_agentType : string;
  d_label : value;
  d_status : node_status;
  d_input : value;
  d_result : value;
  d_output : value;
  d_error : value
}.

Record node : Type := mkNode { n_id : string; n_data : node_data }.

Inductive workflow_status : Type :=
  WfIdle | WfRunning | WfCompleted | WfPartial | WfError.

(** [workflow.progress]; an entry of [errors] is [{ nodeId, error }]. *)
Record progress : Type := mkProgress {
  currentNode : option string;
  completedNodes : list string;
  totalNodes : nat;
  errors : list (string * string)
}.

Record workflow : Type := mkWorkflow {
  w_brief : value;
  w_inputs : value;
  w_nodes : list node;
  w_status : workflow_status;
  w_lastRun : option nat;
  w_progress : progress;
  w_analysisContext : value
}.

Definition set_status (s : node_status) (d : node_data) : node_data :=
  mkData (d_agentType d) (d_label d) s (d_input d) (d_result d) (d_output d) (d_error d).
Definition set_input (v : value) (d : node_data) : node_data :=
  mkData (d_agentType d) (d_label d) (d_status d) v (d_result d) (d_output d) (d_error d).
Definition set_result (v : value) (d : node_data) : node_data :=
  mkData (d_agentType d) (d_label d) (d_status d) (d_input d) v (d_output d) (d_error d).
Definition set_output (v : value) (d : node_data) : node_data :=
  mkData (d_agentType d) (d_label d) (d_status d) (d_input d) (d_result d) v (d_error d).
Definition set_error (v : value) (d : node_data) : node_data :=
  mkData (d_agentType d) (d_label d) (d_status d) (d_input d) (d_result d) (d_output d) v.

Definition on_data (f : node_data -> node_data) (n : node) : node :=
  mkNode (n_id n) (f (n_data n)).

Definition set_nodes (l : list node) (w : workflow) : workflow :=
  mkWorkflow (w_brief w) (w_inputs w) l (w_status w) (w_lastRun w) (w_progress w)
    (w_analysisContext w).
Definition set_w_status (s : workflow_status) (w : workflow) : workflow :=
  mkWorkflow (w_brief w) (w_inputs w) (w_nodes w) s (w_lastRun w) (w_progress w)
    (w_analysisContext w).
Definition set_lastRun (t : option nat) (w : workflow) : workflow :=
  mkWorkflow (w_brief w) (w_inputs w) (w_nodes w) (w_status w) t (w_progress w)
    (w_analysisContext w).
Definition set_progress (p : progress) (w : workflow) : workflow :=
  mkWorkflow (w_brief w) (w_inputs w) (w_nodes w) (w_status w) (w_lastRun w) p
    (w_analysisContext w).
Definition set_analysisContext (c : value) (w : workflow) : workflow :=
  mkWorkflow (w_brief w) (w_inputs w) (w_nodes w) (w_status w) (w_lastRun w)
    (w_progress w) c.

Definition set_currentNode (c : option string) (p : progress) : progress :=
  mkProgress c (completedNodes p) (totalNodes p) (errors p).
Definition push_completed (i : string) (p : progress) : progress :=
  mkProgress (currentNode p) (completedNodes p ++ [i]) (totalNodes p) (errors p).
Definition push_error (e : string * string) (p : progress) : progress :=
  mkProgress (currentNode p) (completedNodes p) (totalNodes p) (errors p ++ [e]).

(** One element of the [results] array of the full run. *)
Record result_entry : Type := mkResult {
  r_nodeId : string;
  r_agentType : string;
  r_agentName : value;
  r_result : value
}.

(** ** The context handed to the agents *)

(** [o.k = v]; the route assigns properties only on objects it has built
    itself, and on anything else this leaves [o] as it is. *)
Definition set_prop (o : value) (k : string) (v : value) : value :=
  match o with
  | VObj ps => VObj (assign_prop k v ps)
  | _ => o
  end.

(** [{ storyBrief: workflow.brief || '',
       manuscript: workflow.inputs?.manuscript || workflow.inputs?.fullText || '',
       previousResults: {} }] *)
Definition initialContext (w : workflow) : value :=
  VObj [ ("storyBrief", or_else (w_brief w) (VStr ""));
         ("manuscript",
          or_else (or_else (opt_get (w_inputs w) "manuscript")
                           (opt_get (w_inputs w) "fullText")) (VStr ""));
         ("previousResults", VObj []) ].

(** [agentContext.previousResults[k] = v] *)
Definition set_previousResult (ctx : value) (k : string) (v : value) : value :=
  set_prop ctx "previousResults" (set_prop (opt_get ctx "previousResults") k v).

(** The body of the loop of executeSingleAgent (route.js, lines 30-49). *)
Definition restore (nodeId : string) (agentContext : value) (n : node) : value :=
  let agentType := d_agentType (n_data n) in
  let result := d_result (n_data n) in
  if negb (String.eqb (n_id n) nodeId) && truthy result then
    let agentContext := set_previousResult agentContext agentType result in
    if String.eqb agentType "story-intelligence" then
      set_prop agentContext "storyContext" result
    else if String.eqb agentType "knowledge-graph" then
      set_prop agentContext "knowledgeGraph" result
    else if String.eqb agentType "temporal-reasoning" then
      set_prop agentContext "timeline" result
    else if String.eqb agentType "continuity-validator" then
      set_prop agentContext "continuityReport" result
    else if String.eqb agentType "creative-coauthor" then
      set_prop agentContext "suggestions" result
    else if String.eqb agentType "intelligent-recall" then
      set_prop agentContext "memoryBank" result
    else agentContext
  else agentContext.

(** The context executeSingleAgent hands to the agent (lines 22-49). *)
Definition singleAgentContext (w : workflow) (nodeId : string) : value :=
  fold_left (restore nodeId) (w_nodes w) (initialContext w).

(** [{ storyBrief: agentContext.storyBrief?.substring(0, 500) + '...',
       hasManuscript: !!agentContext.manuscript,
       previousAgents: Object.keys(agentContext.previousResults) }] *)
Definition inputSnapshot (agentContext : value) : completion value :=
  storyBrief ← get agentContext "storyBrief";
  cut ← opt_substring storyBrief 500;
  manuscript ← get agentContext "manuscript";
  previousResults ← get agentContext "previousResults";
  keys ← object_keys previousResults;
  Normal (VObj [ ("storyBrief", VStr (to_string cut +:+ "..."));
                 ("hasManuscript", VBool (truthy manuscript));
                 ("previousAgents", VArr (map VStr keys)) ]).

(** Own enumerable properties, as object spread copies them. *)
Definition own_props (v : value) : list (string * value) :=
  match v with
  | VObj ps => ps
  | VArr l => imap (fun i x => (decimal (Z.of_nat i), x)) l
  | VStr s =>
      imap (fun i c => (decimal (Z.of_nat i), VStr (String c EmptyString)))
           (list_ascii_of_string s)
  | _ => []
  end.

(** [{ ...a, ...b }] *)
Definition spread (a b : value) : value :=
  VObj (fold_left (fun acc kv => assign_prop (fst kv) (snd kv) acc)
                  (own_props a ++ own_props b) []).

(** ** generateExecutionSummary (route.js, lines 282-309) *)

Record summary : Type := mkSummary {
  agentsExecuted : nat;
  successfulAgents : nat;
  storyAnalyzed : bool;
  knowledgeGraphBuilt : bool;
  timelineAnalyzed : bool;
  continuityChecked : bool;
  suggestionsGenerated : bool;
  teaserCreated : bool;
  highlights : list string
}.

(** [r => !r.result?.error] *)
Definition no_error_field (r : result_entry) : bool :=
  negb (truthy (opt_get (r_result r) "error")).

Definition generateExecutionSummary (results : list result_entry) (context : value)
  : completion summary :=
  storyContext ← get context "storyContext";
  knowledgeGraph ← get context "knowledgeGraph";
  timeline ← get context "timeline";
  continuityReport ← get context "continuityReport";
  suggestions ← get context "suggestions";
  teaserContent ← get context "teaserContent";
  h1 ← (if truthy storyContext then
          genre ← get storyContext "genre";
          Normal ["Genre identified: " +:+ to_string genre]
        else Normal []);
  h2 ← (if truthy knowledgeGraph then
          characters ← get knowledgeGraph "characters";
          Normal [to_string (length_or_0 characters) +:+ " characters mapped"]
        else Normal []);
  h3 ← (if truthy continuityReport then
          continuityScore ← get continuityReport "continuityScore";
          Normal ["Continuity score: " +:+ to_string continuityScore +:+ "/100"]
        else Normal []);
  h4 ← (if truthy teaserContent then
          tagline ← get teaserContent "tagline";
          Normal ["Trailer tagline: " +:+ DQUOTE +:+ to_string tagline +:+ DQUOTE]
        else Normal []);
  Normal {| agentsExecuted := length results;
            successfulAgents := length (filter (fun r => no_error_field r = true) results);
            storyAnalyzed := truthy storyContext;
            knowledgeGraphBuilt := truthy knowledgeGraph;
            timelineAnalyzed := truthy timeline;
            continuityChecked := truthy continuityReport;
            suggestionsGenerated := truthy suggestions;
            teaserCreated := truthy teaserContent;
            highlights := h1 ++ h2 ++ h3 ++ h4 |}.

(** ** The running route: in-memory document, checkpoints, agent calls *)

(** One invocation of [executeAgent]: its arguments and what it returned
    ([{ result, updatedContext }]) or threw. *)
Record call : Type := mkCall {
  c_agentType : string;
  c_context : value;
  c_outcome : completion (value * value)
}.

(** [doc] is the loaded Mongoose document, [saved] the documents that
    [workflow.save()] has written (oldest first), [calls] the agent
    invocations so far, [attempts] the number of writes attempted so far,
    accepted or rejected; [agentContext] and [results] are the local
    variables of the handler. *)
Record state : Type := mkState {
  doc : workflow;
  saved : list workflow;
  calls : list call;
  agentContext : value;
  results : list result_entry;
  attempts : nat
}.

Definition M (A : Type) : Type := state -> state * completion A.

#[global] Instance M_ret : MRet M := fun A a s => (s, Normal a).
#[global] Instance M_bind : MBind M :=
  fun A B f m s =>
    match m s with
    | (s', Normal a) => f a s'
    | (s', Throw e) => (s', Throw e)
    end.

Definition gets {A} (f : state -> A) : M A := fun s => (s, Normal (f s)).
Definition modify (f : state -> state) : M unit := fun s => (f s, Normal tt).
Definition lift {A} (c : completion A) : M A := fun s => (s, c).

(** [try { body } catch (error) { handler }]: the handler runs in the state
    the body had reached when it threw. *)
Definition try_catchM {A} (body : M A) (handler : js_error -> M A) : M A :=
  fun s =>
    match body s with
    | (s', Normal a) => (s', Normal a)
    | (s', Throw e) => handler e s'
    end.

Definition with_doc (f : workflow -> workflow) (s : state) : state :=
  mkState (f (doc s)) (saved s) (calls s) (agentContext s) (results s) (attempts s).

Definition modify_doc (f : workflow -> workflow) : M unit := modify (with_doc f).

Definition modify_progress (f : progress -> progress) : M unit :=
  modify_doc (fun w => set_progress (f (w_progress w)) w).

(** [node.data.<field> = ...] on the node at index [i] of [workflow.nodes]. *)
Definition touch (i : nat) (f : node_data -> node_data) (w : workflow) : workflow :=
  set_nodes (alter (on_data f) i (w_nodes w)) w.

Definition modify_node (i : nat) (f : node_data -> node_data) : M unit :=
  modify_doc (touch i f).

(** The state when a write of the document was accepted, and when it was
    rejected. *)
Definition written (s : state) : state :=
  mkState (doc s) (saved s ++ [doc s]) (calls s) (agentContext s) (results s)
    (S (attempts s)).

Definition unwritten (s : state) : state :=
  mkState (doc s) (saved s) (calls s) (agentContext s) (results s) (S (attempts s)).

Definition put_context (c : value) (s : state) : state :=
  mkState (doc s) (saved s) (calls s) c (results s) (attempts s).

Definition put_results (l : list result_entry) (s : state) : state :=
  mkState (doc s) (saved s) (calls s) (agentContext s) l (attempts s).

Definition add_result (r : result_entry) (s : state) : state :=
  put_results (results s ++ [r]) s.

Definition add_call (c : call) (s : state) : state :=
  mkState (doc s) (saved s) (calls s ++ [c]) (agentContext s) (results s) (attempts s).

Definition set_agentContext (c : value) : M unit := modify (put_context c).
Definition set_results (l : list result_entry) : M unit := modify (put_results l).
Definition push_result (r : result_entry) : M unit := modify (add_result r).

(** What the handler answers with [NextResponse.json]. *)
Inductive response : Type :=
| RespError (http : nat) (msg : string)
| RespSingleOk (result : value) (nodeData : node_data) (msg : string)
| RespSingleFail (msg : string)
| RespFull (success : bool) (wf : workflow) (res : list result_entry) (sum : summary).

(** *** The bodies JSON.stringify sees

    The stored fields of the document and of the answers, as the values
    [NextResponse.json] serializes.  The fields of a document the model
    does not carry (ids, owner, dates) are strings. *)

Definition node_status_text (s : node_status) : string :=
  match s with
  | StPending => "pending"
  | StRunning => "running"
  | StSuccess => "success"
  | StError => "error"
  end.

Definition workflow_status_text (s : workflow_status) : string :=
  match s with
  | WfIdle => "idle"
  | WfRunning => "running"
  | WfCompleted => "completed"
  | WfPartial => "partial"
  | WfError => "error"
  end.

Definition node_data_json (d : node_data) : value :=
  VObj [ ("agentType", VStr (d_agentType d)); ("label", d_label d);
         ("status", VStr (node_status_text (d_status d))); ("input", d_input d);
         ("result", d_result d); ("output", d_output d); ("error", d_error d) ].

Definition node_json (n : node) : value :=
  VObj [ ("id", VStr (n_id n)); ("data", node_data_json (n_data n)) ].

Definition progress_json (p : progress) : value :=
  VObj [ ("currentNode", match currentNode p with Some i => VStr i | None => VUndefined end);
         ("completedNodes", VArr (map VStr (completedNodes p)));
         ("totalNodes", of_nat (totalNodes p));
         ("errors",
          VArr (map (fun e => VObj [("nodeId", VStr (fst e)); ("error", VStr (snd e))])
                    (errors p))) ].

Definition workflow_json (w : workflow) : value :=
  VObj [ ("brief", w_brief w); ("inputs", w_inputs w);
         ("nodes", VArr (map node_json (w_nodes w)));
         ("status", VStr (workflow_status_text (w_status w)));
         ("lastRun", match w_lastRun w with Some t => of_nat t | None => VUndefined end);
         ("progress", progress_json (w_progress w));
         ("analysisContext", w_analysisContext w) ].

Definition result_json (r : result_entry) : value :=
  VObj [ ("nodeId", VStr (r_nodeId r)); ("agentType", VStr (r_agentType r));
         ("agentName", r_agentName r); ("result", r_result r) ].

Definition summary_json (s : summary) : value :=
  VObj [ ("agentsExecuted", of_nat (agentsExecuted s));
         ("successfulAgents", of_nat (successfulAgents s));
         ("storyAnalyzed", VBool (storyAnalyzed s));
         ("knowledgeGraphBuilt", VBool (knowledgeGraphBuilt s));
         ("timelineAnalyzed", VBool (timelineAnalyzed s));
         ("continuityChecked", VBool (continuityChecked s));
         ("suggestionsGenerated", VBool (suggestionsGenerated s));
         ("teaserCreated", VBool (teaserCreated s));
         ("highlights", VArr (map VStr (highlights s))) ].

Definition body (r : response) : value :=
  match r with
  | RespError _ msg => VObj [("error", VStr msg)]
  | RespSingleOk result nodeData msg =>
      VObj [ ("success", VBool true); ("result", result);
             ("nodeData", node_data_json nodeData); ("message", VStr msg) ]
  | RespSingleFail msg => VObj [("success", VBool false); ("error", VStr msg)]
  | RespFull success wf res sum =>
      VObj [ ("success", VBool success); ("workflow", workflow_json wf);
             ("results", VArr (map result_json res)); ("summary", summary_json sum) ]
  end.

(** [NextResponse.json(body)]: the answer, unless JSON.stringify throws on
    its body. *)
Definition NextResponse_json (r : response) : completion response :=
  JSON_stringify (body r);; Normal r.

(** [for (const node of nodes)], with the index of the node in the array. *)
Fixpoint for_nodes (i : nat) (l : list node) (body : nat -> node -> M unit) : M unit :=
  match l with
  | [] => mret tt
  | n :: r => body i n ;; for_nodes (S i) r body
  end.

(** [!!s] for an optional string of the request. *)
Definition given (o : option string) : bool :=
  match o with
  | Some s => negb (String.eqb s "")
  | None => false
  end.

(** [agentType || node.data.agentType] *)
Definition effectiveAgentType (agentType : option string) (n : node) : string :=
  if given agentType then default "" agentType else d_agentType (n_data n).

Section Route.

(** [executeAgent(agentType, context)] of [@/lib/agents/agent-executor];
    the first argument counts the invocations made before this one, so
    that two invocations with equal arguments may answer differently. *)
Variable executeAgent : nat -> string -> value -> completion (value * value).

(** [AGENT_DEFINITIONS[agentType]] of [@/lib/agents/definitions]. *)
Variable AGENT_DEFINITIONS : string -> value.

(** Whether the database accepts a write: the first argument counts the
    writes attempted before this one, the second is the document. *)
Variable save_outcome : nat -> workflow -> completion unit.

(** [await workflow.save()] *)
Definition save : M unit :=
  fun s =>
    match save_outcome (attempts s) (doc s) with
    | Normal _ => (written s, Normal tt)
    | Throw e => (unwritten s, Throw e)
    end.

(** [await executeAgent(agentType, context)] *)
Definition call_agent (agentType : string) (context : value) : M (value * value) :=
  fun s =>
    let o := executeAgent (length (calls s)) agentType context in
    (add_call (mkCall agentType context o) s, o).

(** *** executeSingleAgent (route.js, lines 12-101) *)

Definition find_node (nodeId : string) (nodes : list node) : option (nat * node) :=
  list_find (fun n => n_id n = nodeId) nodes.

Definition executeSingleAgent_try (nodeId : string) (agentType : option string)
  : M response :=
  w ← gets doc;
  match find_node nodeId (w_nodes w) with
  | None => mret (RespError 404 "Node not found in workflow")
  | Some (i, node) =>
      set_agentContext (singleAgentContext w nodeId);;
      modify_node i (set_status StRunning);;
      save;;
      let effectiveAgentType := effectiveAgentType agentType node in
      context ← gets agentContext;
      ru ← call_agent effectiveAgentType context;
      modify_node i (set_status StSuccess);;
      modify_node i (set_result ru.1);;
      output ← lift (formatAgentOutput effectiveAgentType ru.1);
      modify_node i (set_output output);;
      input ← lift (inputSnapshot context);
      modify_node i (set_input input);;
      modify_doc (fun w => set_analysisContext (spread (w_analysisContext w) ru.2) w);;
      save;;
      w' ← gets doc;
      lift (NextResponse_json
              (RespSingleOk ru.1
                 (default (n_data node) (n_data <$> w_nodes w' !! i))
                 (effectiveAgentType +:+ " executed successfully")))
  end.

Definition executeSingleAgent_catch (nodeId : string) (error : js_error) : M response :=
  w ← gets doc;
  match find_node nodeId (w_nodes w) with
  | Some (i, _) =>
      modify_node i (set_status StError);;
      modify_node i (set_error (VStr (message error)));;
      save
  | None => mret tt
  end;;
  mret (RespSingleFail (message error)).

Definition executeSingleAgent (nodeId : string) (agentType : option string) : M response :=
  try_catchM (executeSingleAgent_try nodeId agentType) (executeSingleAgent_catch nodeId).

(** *** The full run (route.js, lines 143-234) *)

(** The [try] block of the loop body (lines 167-203). *)
Definition node_try (i : nat) (node : node) : M unit :=
  modify_progress (set_currentNode (Some (n_id node)));;
  modify_node i (set_status StRunning);;
  save;;
  let agentType := d_agentType (n_data node) in
  let agentDef := AGENT_DEFINITIONS agentType in
  context ← gets agentContext;
  input ← lift (inputSnapshot context);
  modify_node i (set_input input);;
  save;;
  ru ← call_agent agentType context;
  set_agentContext ru.2;;
  push_result (mkResult (n_id node) agentType
                 (or_else (opt_get agentDef "name") (d_label (n_data node))) ru.1);;
  modify_node i (set_status StSuccess);;
  modify_node i (set_result ru.1);;
  output ← lift (formatAgentOutput agentType ru.1);
  modify_node i (set_output output);;
  modify_progress (push_completed (n_id node));;
  save.

(** The [catch] block of the loop body (lines 204-215). *)
Definition node_catch (i : nat) (node : node) (error : js_error) : M unit :=
  modify_node i (set_status StError);;
  modify_node i (set_error (VStr (message error)));;
  modify_progress (push_error (n_id node, message error));;
  save.

Definition node_step (i : nat) (node : node) : M unit :=
  try_catchM (node_try i node) (node_catch i node).

(** Lines 218-221 *)
Definition final_status (p : progress) : workflow_status :=
  let hasErrors := Nat.ltb 0 (length (errors p)) in
  let allFailed := Nat.eqb (length (completedNodes p)) 0 in
  if allFailed then WfError else if hasErrors then WfPartial else WfCompleted.

Definition fullRun (now : nat) : M response :=
  w ← gets doc;
  modify_doc (set_w_status WfRunning);;
  modify_doc (set_lastRun (Some now));;
  modify_doc (set_progress
                (mkProgress (n_id <$> head (w_nodes w)) [] (length (w_nodes w)) []));;
  save;;
  set_results [];;
  set_agentContext (initialContext w);;
  for_nodes 0 (w_nodes w) node_step;;
  p ← gets (fun s => w_progress (doc s));
  let allFailed := Nat.eqb (length (completedNodes p)) 0 in
  modify_doc (set_w_status (final_status p));;
  modify_progress (set_currentNode None);;
  context ← gets agentContext;
  modify_doc (set_analysisContext context);;
  save;;
  w' ← gets doc;
  res ← gets results;
  sum ← lift (generateExecutionSummary res context);
  lift (NextResponse_json (RespFull (negb allFailed) w' res sum)).

(** *** POST (route.js, lines 103-242) *)

(** [findOne] is [ScriptWorkflow.findOne({ _id, userId })]; the loaded
    document becomes [doc]. *)
Definition POST (session_user : option string)
    (workflowId singleAgentId requestedAgentType : option string)
    (findOne : string -> string -> option workflow) (now : nat) : M response :=
  try_catchM
    (match session_user with
     | None => mret (RespError 401 "Unauthorized")
     | Some userId =>
         if negb (given workflowId) then mret (RespError 400 "Workflow ID is required")
         else
           match findOne (default "" workflowId) userId with
           | None => mret (RespError 404 "Workflow not found")
           | Some w =>
               modify_doc (fun _ => w);;
               if given singleAgentId
               then executeSingleAgent (default "" singleAgentId) requestedAgentType
               else fullRun now
           end
     end)
    (fun _ => mret (RespError 500 "Failed to execute workflow")).

End Route.

(** ** Vocabulary of the properties *)

(** The state in which a request finds the route: the loaded document,
    nothing written and no agent invoked yet. *)
Definition loaded (w : workflow) : state := mkState w [] [] VUndefined [] 0.

(** *** The Context Accumulator, in the words of the specification

    [project(agentKind, result, context)]: the context with
    [previousResults[agentKind] = result] and, when [agentKind] has a named
    slot, that slot set to [result]. *)
Definition project (slot_of : string -> option string)
    (agentKind : string) (result context : value) : value :=
  let context' := set_previousResult context agentKind result in
  match slot_of agentKind with
  | Some slot => set_prop context' slot result
  | None => context'
  end.

(** The six agent kinds the single-node runner restores, with their slots. *)
Definition route_slot_of_kind (agentKind : string) : option string :=
  if String.eqb agentKind "story-intelligence" then Some "storyContext"
  else if String.eqb agentKind "knowledge-graph" then Some "knowledgeGraph"
  else if String.eqb agentKind "temporal-reasoning" then Some "timeline"
  else if String.eqb agentKind "continuity-validator" then Some "continuityReport"
  else if String.eqb agentKind "creative-coauthor" then Some "suggestions"
  else if String.eqb agentKind "intelligent-recall" then Some "memoryBank"
  else None.

(** The seven slots the specification lists: the six above and
    [teaserContent], which the summary generator reads for the teaser
    agent. *)
Definition listed_slot_of_kind (agentKind : string) : option string :=
  if String.eqb agentKind "cinematic-teaser" then Some "teaserContent"
  else route_slot_of_kind agentKind.

(** A node other than the target that carries a result. *)
Definition contributes (nodeId : string) (n : node) : bool :=
  negb (String.eqb (n_id n) nodeId) && truthy (d_result (n_data n)).

(** "For every other node that already carries a result, project it into
    the context via the Context Accumulator." *)
Definition reconstructed (w : workflow) (nodeId : string) : value :=
  fold_left
    (fun context n =>
       project route_slot_of_kind (d_agentType (n_data n)) (d_result (n_data n)) context)
    (List.filter (contributes nodeId) (w_nodes w))
    (initialContext w).

(** The result of the last node in stored order, other than the target,
    that carries a result and has the given agent kind. *)
Fixpoint last_result (nodeId agentKind : string) (nodes : list node) (found : value)
  : value :=
  match nodes with
  | [] => found
  | n :: r =>
      last_result nodeId agentKind r
        (if contributes nodeId n && String.eqb (d_agentType (n_data n)) agentKind
         then d_result (n_data n) else found)
  end.

(** A context as the route builds it: an object whose [previousResults] is
    an object. *)
Definition context_ok (context : value) : Prop :=
  exists ps prev, context = VObj ps /\ lookup_prop "previousResults" ps = VObj prev.

(** The agent kinds recorded in [context.previousResults]. *)
Definition recorded (agentKind : string) (context : value) : Prop :=
  In agentKind (map fst (own_props (opt_get context "previousResults"))).

(** *** The trace of agent invocations *)

(** The context the loop carries on with after an invocation: the returned
    [updatedContext], or the context of the invocation when it threw. *)
Definition next_context (c : call) : value :=
  match c_outcome c with
  | Normal ru => ru.2
  | Throw _ => c_context c
  end.

(** Every invocation of the trace receives the context its predecessor
    left. *)
Fixpoint chained (context : value) (trace : list call) : Prop :=
  match trace with
  | [] => True
  | c :: r => c_context c = context /\ chained (next_context c) r
  end.

Fixpoint final_context (context : value) (trace : list call) : value :=
  match trace with
  | [] => context
  | c :: r => final_context (next_context c) r
  end.

(** Every invocation of the trace holds what [executeAgent] answered to it;
    [n] counts the invocations made before the trace. *)
Fixpoint answered (executeAgent : nat -> string -> value -> completion (value * value))
    (n : nat) (trace : list call) : Prop :=
  match trace with
  | [] => True
  | c :: r =>
      c_outcome c = executeAgent n (c_agentType c) (c_context c)
      /\ answered executeAgent (S n) r
  end.

Definition succeeded (c : call) : bool :=
  match c_outcome c with Normal _ => true | Throw _ => false end.

(** The invocations a run added to the trace. *)
Definition new_calls (before after : state) : list call :=
  drop (length (calls before)) (calls after).

Definition new_saved (before after : state) : list workflow :=
  drop (length (saved before)) (saved after).

(** *** The frame of a single-node run *)

Definition same_outside (nodeId : string) (before after : list node) : Prop :=
  length after = length before /\
  forall i n, before !! i = Some n -> n_id n <> nodeId -> after !! i = Some n.

Definition frame (nodeId : string) (before after : workflow) : Prop :=
  w_progress after = w_progress before /\
  w_status after = w_status before /\
  same_outside nodeId (w_nodes before) (w_nodes after).

(** *** Values JSON.stringify can serialize *)

Fixpoint bigint_free (v : value) : bool :=
  match v with
  | VBigInt _ => false
  | VArr l =>
      (fix all (l : list value) : bool :=
         match l with [] => true | x :: r => bigint_free x && all r end) l
  | VObj ps =>
      (fix all (ps : list (string * value)) : bool :=
         match ps with [] => true | (_, x) :: r => bigint_free x && all r end) ps
  | _ => true
  end.

(** *** A scripted agent *)

(** Modelled from the spec: [executeAgent] of [@/lib/agents/agent-executor]
    is not part of the route.  Its [n]-th invocation answers the [n]-th
    entry of a script, and a result is merged into the context by the
    specification's Context Accumulator ([previousResults[agentKind] =
    result], and the named slot of the kind set to [result]); an invocation
    beyond the script throws. *)
Definition scripted (script : list (completion value))
  : nat -> string -> value -> completion (value * value) :=
  fun n agentKind context =>
    match script !! n with
    | Some (Normal result) =>
        Normal (result, project listed_slot_of_kind agentKind result context)
    | Some (Throw e) => Throw e
    | None => Throw (JsError "Error" "no answer")
    end.

Definition no_definitions : string -> value := fun _ => VUndefined.

Definition pending (nodeId agentKind : string) : node :=
  mkNode nodeId (mkData agentKind (VStr nodeId) StPending VUndefined VUndefined VUndefined
                   VUndefined).

Definition idle_progress : progress := mkProgress None [] 0 [].

Definition pipeline (brief : string) (nodes : list node) : workflow :=
  mkWorkflow (VStr brief) VUndefined nodes WfIdle None idle_progress VUndefined.

(** The example of the specification: A succeeds, B fails with "timeout",
    C succeeds. *)
Definition noir : value := VObj [("genre", VStr "noir")].
Definition score82 : value := VObj [("continuityScore", VNum 82)].
Definition timeout_error : js_error := JsError "Error" "timeout".

Definition example_pipeline : workflow :=
  pipeline "A detective story"
    [ pending "A" "story-intelligence";
      pending "B" "knowledge-graph";
      pending "C" "continuity-validator" ].

Definition example_agent := scripted [Normal noir; Throw timeout_error; Normal score82].

(** Two nodes of one agent kind: the first succeeds, the second fails. *)
Definition twin_pipeline : workflow :=
  pipeline "A detective story"
    [ pending "A" "story-intelligence";
      pending "B" "story-intelligence";
      pending "C" "knowledge-graph" ].

Definition twin_agent :=
  scripted [Normal noir; Throw timeout_error; Normal (VObj [("characters", VArr [])])].

(** A pipeline whose only node fails. *)
Definition lonely_pipeline : workflow := pipeline "" [pending "A" "story-intelligence"].
Definition failing_agent := scripted [Throw timeout_error].

(** A pipeline that ran before: A holds the result of that run, T holds a
    teaser. *)
Definition teaser : value := VObj [("tagline", VStr "Trust no one")].

Definition finished (nodeId agentKind : string) (result : value) (output : string) : node :=
  mkNode nodeId (mkData agentKind (VStr nodeId) StSuccess VUndefined result (VStr output)
                   VUndefined).

Definition rerun_pipeline : workflow :=
  mkWorkflow (VStr "A detective story") VUndefined
    [ finished "A" "story-intelligence" noir "**Genre:** noir";
      finished "T" "cinematic-teaser" teaser "**Tagline:** Trust no one" ]
    WfCompleted (Some 1) (mkProgress None ["A"; "T"] 2 []) VUndefined.

(** A pipeline that ran before with two nodes of one agent kind, whose
    results differ, and a third node. *)
Definition western : value := VObj [("genre", VStr "western")].

Definition redrafted_pipeline : workflow :=
  mkWorkflow (VStr "A detective story") VUndefined
    [ finished "A" "story-intelligence" noir "**Genre:** noir";
      finished "B" "story-intelligence" western "**Genre:** western";
      pending "C" "knowledge-graph" ]
    WfCompleted (Some 1) (mkProgress None ["A"; "B"] 3 []) VUndefined.

(** *** Writes that are accepted, writes that are rejected *)

(** No write is rejected. *)
Definition accepts (save_outcome : nat -> workflow -> completion unit) : Prop :=
  forall k w, save_outcome k w = Normal tt.

Definition accept_all : nat -> workflow -> completion unit := fun _ _ => Normal tt.

(** The write number [k] of the request (counted from 0) is rejected with
    the message [msg], every other write is accepted. *)
Definition rejecting (k : nat) (msg : string) : nat -> workflow -> completion unit :=
  fun j _ => if Nat.eqb j k then Throw (JsError "MongoNetworkError" msg) else Normal tt.

(** *** Sentences of the specification, as they are stated

    Each is compared with the route below. *)

(** "The failed node's agent kind is absent from the previousResults
    consumed by subsequent nodes." *)
Definition absent_after_failure
    (executeAgent : nat -> string -> value -> completion (value * value))
    (definitions : string -> value)
    (save_outcome : nat -> workflow -> completion unit) (now : nat) (st : state) : Prop :=
  let trace := new_calls st (fullRun executeAgent definitions save_outcome now st).1 in
  forall k c c' e,
    trace !! k = Some c -> trace !! S k = Some c' -> c_outcome c = Throw e ->
    c_context c' = c_context c /\ ~ recorded (c_agentType c) (c_context c').

(** "Whenever an agent kind among the recognized set has produced a result,
    the corresponding slot (storyContext, knowledgeGraph, timeline,
    continuityReport, suggestions, memoryBank, teaserContent) is populated
    with that result, and a result from any agent kind outside that set is
    recorded only under previousResults." *)
Definition seven_slots_projected (nodeId : string) (context : value) (n : node) : Prop :=
  contributes nodeId n = true ->
  let agentKind := d_agentType (n_data n) in
  let result := d_result (n_data n) in
  let context' := restore nodeId context n in
  opt_get (opt_get context' "previousResults") agentKind = result /\
  match listed_slot_of_kind agentKind with
  | Some slot => opt_get context' slot = result
  | None => context' = set_previousResult context agentKind result
  end.

(** "After the error transition the node carries status 'error' and the
    failure's message, while its result and rendered output remain unset",
    for a single-node run. *)
Definition unset_after_failure
    (executeAgent : nat -> string -> value -> completion (value * value))
    (save_outcome : nat -> workflow -> completion unit)
    (st : state) (nodeId : string) (agentType : option string) : Prop :=
  forall i n e,
    find_node nodeId (w_nodes (doc st)) = Some (i, n) ->
    executeAgent (length (calls st)) (effectiveAgentType agentType n)
      (singleAgentContext (doc st) nodeId) = Throw e ->
    let after := (executeSingleAgent executeAgent save_outcome nodeId agentType st).1 in
    exists n',
      w_nodes (doc after) !! i = Some n' /\
      last (saved after) = Some (doc after) /\
      d_status (n_data n') = StError /\
      d_error (n_data n') = VStr (message e) /\
      d_result (n_data n') = VUndefined /\
      d_output (n_data n') = VUndefined.

(** "For every node other than X that carries a result, that node's result
    [is] keyed by its agent kind in previousResults and projected into its
    recognized named slot", of the context the single-node run on X hands
    to the agent. *)
Definition every_result_projected (w : workflow) (nodeId : string) : Prop :=
  let context := singleAgentContext w nodeId in
  forall n,
    In n (w_nodes w) -> contributes nodeId n = true ->
    opt_get (opt_get context "previousResults") (d_agentType (n_data n))
    = d_result (n_data n)
    /\ forall slot, route_slot_of_kind (d_agentType (n_data n)) = Some slot ->
                    opt_get context slot = d_result (n_data n).

(** "agentsExecuted equals the count of nodes attempted in the run and
    successfulAgents the count of attempted nodes with no error." *)
Definition summary_counts_attempts
    (executeAgent : nat -> string -> value -> completion (value * value))
    (definitions : string -> value)
    (save_outcome : nat -> workflow -> completion unit) (now : nat) (st : state) : Prop :=
  forall success wf res sum,
    (fullRun executeAgent definitions save_outcome now st).2
    = Normal (RespFull success wf res sum) ->
    agentsExecuted sum = length (w_nodes (doc st)) /\
    successfulAgents sum
    = (length (w_nodes (doc st)) - length (errors (w_progress wf)))%nat.

(** *** Vocabulary of the further properties *)

(** [v == null]: [undefined] or [null], the values whose properties cannot
    be read. *)
Definition nullish (v : value) : bool :=
  match v with VUndefined | VNull => true | _ => false end.


(** The agent kinds whose template reads only counts ([?.length || 0]) and
    one scalar of the result (lines 253-263). *)
Definition count_only_kinds : list string :=
  [ "knowledge-graph"; "temporal-reasoning"; "continuity-validator"; "creative-coauthor" ].

(** What identifies a node in the pipeline: the route reads these three
    and never assigns them. *)
Definition identity (n : node) : string * string * value :=
  (n_id n, d_agentType (n_data n), d_label (n_data n)).

(** [n.data.status === s] *)
Definition status_is (s : node_status) (n : node) : bool :=
  match d_status (n_data n), s with
  | StPending, StPending | StRunning, StRunning
  | StSuccess, StSuccess | StError, StError => true
  | _, _ => false
  end.

(** The document when a turn of the loop has entered its node (lines
    168-169): [progress.currentNode = node.id; node.data.status =
    'running']. *)
Definition entered (i : nat) (n : node) (w : workflow) : workflow :=
  touch i (set_status StRunning)
    (set_progress (set_currentNode (Some (n_id n)) (w_progress w)) w).

(** The document when the [catch] block of the loop has run (lines
    206-211). *)
Definition failed_turn (i : nat) (n : node) (e : js_error) (w : workflow) : workflow :=
  set_progress (push_error (n_id n, message e) (w_progress w))
    (touch i (set_error (VStr (message e))) (touch i (set_status StError) w)).

(** The document when the [catch] block of the single-node runner has
    written into the node (lines 91-92). *)
Definition failed_node (i : nat) (e : js_error) (w : workflow) : workflow :=
  touch i (set_error (VStr (message e))) (touch i (set_status StError) w).

(** The [catch] block of the single-node runner (lines 85-100) on a
    document that has the node at index [i], from the state [s] the [try]
    block had reached: the answer is the failure when the write is
    accepted, and the rejection leaves the runner otherwise. *)
Definition caught (save_outcome : nat -> workflow -> completion unit)
    (i : nat) (e : js_error) (s : state) : state * completion response :=
  match save_outcome (attempts s) (failed_node i e (doc s)) with
  | Normal _ => (written (with_doc (failed_node i e) s), Normal (RespSingleFail (message e)))
  | Throw e' => (unwritten (with_doc (failed_node i e) s), Throw e')
  end.

(** The document with which a full run starts (lines 145-152). *)
Definition started (now : nat) (w : workflow) : workflow :=
  set_progress (mkProgress (n_id <$> head (w_nodes w)) [] (length (w_nodes w)) [])
    (set_lastRun (Some now) (set_w_status WfRunning w)).

(** The document with which a full run ends (lines 219-225), [context]
    being the context the loop ended with. *)
Definition finished_run (context : value) (w : workflow) : workflow :=
  set_analysisContext context
    (set_progress (set_currentNode None (w_progress w))
       (set_w_status (final_status (w_progress w)) w)).

(** The state in which the loop of a full run starts, once the first
    write is accepted (lines 153-164), and the state in which lines
    219-225 leave the run. *)
Definition run_start (now : nat) (st : state) : state :=
  put_context (initialContext (doc st))
    (put_results [] (written (with_doc (fun _ => started now (doc st)) st))).

Definition run_end (s : state) : state := with_doc (finished_run (agentContext s)) s.

(** What the loop of a full run leaves alone in the document: the brief,
    the inputs, the identities of the nodes, the pipeline status, the date
    of the run, the node count of the progress and the analysis context. *)
Definition kept (before after : workflow) : Prop :=
  w_brief after = w_brief before
  /\ w_inputs after = w_inputs before
  /\ map identity (w_nodes after) = map identity (w_nodes before)
  /\ w_status after = w_status before
  /\ w_lastRun after = w_lastRun before
  /\ totalNodes (w_progress after) = totalNodes (w_progress before)
  /\ w_analysisContext after = w_analysisContext before.

(** Between [st] and [st'] at most [k] checkpoints were written, and they
    and the document of [st'] are related by [R] to the document of
    [st]. *)
Definition checkpoints (R : workflow -> workflow -> Prop) (k : nat) (st st' : state)
  : Prop :=
  R (doc st) (doc st')
  /\ exists new,
       saved st' = saved st ++ new
       /\ Forall (R (doc st)) new
       /\ (length new <= k)%nat.

(** The agent kind and the result of an invocation that returned. *)
Definition returned (c : call) : option (string * value) :=
  match c_outcome c with
  | Normal ru => Some (c_agentType c, ru.1)
  | Throw _ => None
  end.

(** What some turns of the loop over nodes of agent kinds [kinds] and ids
    [ids] did between [st] and [st']: invocations in the order of the
    nodes, each on a context whose snapshot could be taken; one entry of
    [results] per invocation that returned; and ids pushed to
    [completedNodes] only with such an entry. *)
Definition in_order (kinds ids : list string) (st st' : state) : Prop :=
  exists trace new_results completed,
    calls st' = calls st ++ trace
    /\ results st' = results st ++ new_results
    /\ completedNodes (w_progress (doc st'))
       = completedNodes (w_progress (doc st)) ++ completed
    /\ map c_agentType trace `sublist_of` kinds
    /\ map (fun e => (r_agentType e, r_result e)) new_results = omap returned trace
    /\ map r_nodeId new_results `sublist_of` ids
    /\ completed `sublist_of` map r_nodeId new_results
    /\ Forall (fun c => exists snap, inputSnapshot (c_context c) = Normal snap) trace.

(** Two states of the loop with equal local variables, equal progress and
    as many earlier invocations. *)
Definition same_run (s1 s2 : state) : Prop :=
  agentContext s1 = agentContext s2
  /\ length (calls s1) = length (calls s2)
  /\ results s1 = results s2
  /\ w_progress (doc s1) = w_progress (doc s2).

(** *** More example inputs *)

(** An agent that answers [result] and hands the context back as it got
    it, and one that answers without an [updatedContext]. *)
Definition steady_agent (result : value)
  : nat -> string -> value -> completion (value * value) :=
  fun _ _ context => Normal (result, context).

Definition forgetful_agent : nat -> string -> value -> completion (value * value) :=
  fun _ _ _ => Normal (noir, VUndefined).

(** A result JSON.stringify rejects, for a node of an agent kind outside
    the switch. *)
Definition word_count : value := VObj [("wordCount", VBigInt 120000)].

Definition doctor_pipeline : workflow :=
  pipeline "A detective story" [pending "D" "script-doctor"].

(** The pipeline of the example after an earlier run that left results, an
    error message and an analysis context behind. *)
Definition stale_pipeline : workflow :=
  mkWorkflow (VStr "A detective story") VUndefined
    [ finished "A" "story-intelligence" score82 "stale";
      mkNode "B" (mkData "knowledge-graph" (VStr "B") StError VUndefined noir
                    (VStr "stale") (VStr "quota exceeded"));
      finished "C" "continuity-validator" noir "stale" ]
    WfPartial (Some 1) (mkProgress None ["A"; "C"] 3 [("B", "quota exceeded")])
    (VObj [("storyContext", teaser)]).

(** *** Symbolic execution of the monad *)

Ltac destruct_state s :=
  destruct s as [[? ? ? ? ? [? ? ? ?] ?] ? ? ? ? ?].

(** Unfold the monadic plumbing and the record accessors, and nothing of
    the JavaScript layer. *)
Ltac run_M :=
  lazy beta iota zeta delta
    [try_catchM call_agent modify_progress modify_node
     modify_doc save set_agentContext set_results push_result lift gets modify with_doc
     written unwritten put_context put_results add_result add_call
     mbind M_bind mret M_ret fst snd
     doc saved calls agentContext results attempts
     w_brief w_inputs w_nodes w_status w_lastRun w_progress w_analysisContext
     set_nodes set_w_status set_lastRun set_progress set_analysisContext touch
     currentNode completedNodes totalNodes errors
     set_currentNode push_completed push_error
     new_calls new_saved loaded].

Ltac run_step := unfold node_step, node_try, node_catch; run_M.

(** One step through a template of the formatter. *)
Ltac step_bind :=
  match goal with
  | |- context [get ?a ?b] => destruct (get a b); simpl; try discriminate
  | |- context [opt_join ?k ?a ?b] => destruct (opt_join k a b); simpl; try discriminate
  | |- context [slice3_for_map ?a] => destruct (slice3_for_map a); simpl; try discriminate
  | |- context [map_bullets ?a] => destruct (map_bullets a); simpl; try discriminate
  end.

Create Rewrite HintDb route_doc.

(** Read a field of a state or of a document built by [touch], [entered],
    [failed_turn] or [set_progress], without unfolding the document. *)
Ltac read_state :=
  cbn [doc saved calls agentContext results attempts written unwritten with_doc
       put_context put_results add_result add_call fst snd];
  autorewrite with route_doc.

(** * Properties of the functions of the route *)

(** ** Objects and strings *)

Lemma lookup_assign_eq k v ps : lookup_prop k (assign_prop k v ps) = v.
Proof.
  induction ps as [|[k' v'] ps IH]; simpl.
  - now rewrite String.eqb_refl.
  - destruct (String.eqb k k') eqn:E; simpl; rewrite E; auto.
Qed.

Lemma lookup_assign_ne k k' v ps :
  k <> k' -> lookup_prop k (assign_prop k' v ps) = lookup_prop k ps.
Proof.
  intros Hne. induction ps as [|[k0 v0] ps IH]; simpl.
  - apply String.eqb_neq in Hne. now rewrite Hne.
  - destruct (String.eqb k' k0) eqn:E; simpl.
    + apply String.eqb_eq in E. subst k0.
      apply String.eqb_neq in Hne. now rewrite Hne.
    + now rewrite IH.
Qed.

Lemma keys_assign k v ps :
  In k (map fst (assign_prop k v ps)).
Proof.
  induction ps as [|[k' v'] ps IH]; simpl; [now left|].
  destruct (String.eqb k k') eqn:E; simpl; [|now right].
  apply String.eqb_eq in E. now left.
Qed.

Lemma keys_assign_iff k k' v ps :
  In k (map fst (assign_prop k' v ps)) <-> k = k' \/ In k (map fst ps).
Proof.
  induction ps as [|[k0 v0] ps IH]; simpl.
  - split; [intros [->|[]]; auto | intros [->|[]]; auto].
  - destruct (String.eqb k' k0) eqn:E; simpl.
    + apply String.eqb_eq in E. subst k0. split; [intros [->|H]|intros [->|[->|H]]]; auto.
    + rewrite IH. split; [intros [->|[->|H]]|intros [->|[->|H]]]; auto.
Qed.

Lemma substring_length n s : (String.length (String.substring 0 n s) <= n)%nat.
Proof.
  revert s. induction n as [|n IH]; intros [|c s]; simpl; try lia.
  specialize (IH s). lia.
Qed.

Lemma try_catch_same {A} (body : completion A) :
  try_catch body (fun _ => body) = body.
Proof. now destruct body. Qed.

Lemma to_string_array l : to_string (VArr l) = join "," l.
Proof.
  induction l as [|x [|y r] IH]; try reflexivity.
  change (to_string (VArr (x :: y :: r)))
    with (join_item x +:+ "," +:+ to_string (VArr (y :: r))).
  now rewrite IH.
Qed.

(** Reading a property of a truthy value never throws. *)
Lemma get_truthy v k : truthy v = true -> get v k = Normal (opt_get v k).
Proof. destruct v; simpl; intros; try discriminate; reflexivity. Qed.

Lemma get_object ps k : get (VObj ps) k = Normal (lookup_prop k ps).
Proof. reflexivity. Qed.

(** ** The output formatter *)

(** JSON.stringify returns on every value without a BigInt. *)
Lemma serialize_total :
  forall v indent, bigint_free v = true -> exists o, serialize indent v = Normal o.
Proof.
  fix IH 1.
  intros [ | | [|] | n | n | s | l | ps] indent H;
    try (eexists; reflexivity); try discriminate.
  - assert (Hl : exists items,
               (fix elements (l : list value) : completion (list string) :=
                  match l with
                  | [] => Normal []
                  | x :: r =>
                      o ← serialize (indent +:+ "  ") x;
                      rest ← elements r;
                      Normal (default "null" o :: rest)
                  end) l = Normal items).
    { simpl in H. induction l as [|x r IHr]; [eexists; reflexivity|].
      apply andb_prop in H. destruct H as [Hx Hr].
      destruct (IH x (indent +:+ "  ") Hx) as [o Ho].
      destruct (IHr Hr) as [items Hitems].
      rewrite Ho. simpl. rewrite Hitems. eexists; reflexivity. }
    destruct Hl as [items Hitems]. simpl. rewrite Hitems. eexists; reflexivity.
  - assert (Hl : exists items,
               (fix members (ps : list (string * value)) : completion (list string) :=
                  match ps with
                  | [] => Normal []
                  | (k, x) :: r =>
                      o ← serialize (indent +:+ "  ") x;
                      rest ← members r;
                      Normal (match o with
                              | Some s => (quote k +:+ ": " +:+ s) :: rest
                              | None => rest
                              end)
                  end) ps = Normal items).
    { simpl in H. induction ps as [|[k x] r IHr]; [eexists; reflexivity|].
      apply andb_prop in H. destruct H as [Hx Hr].
      destruct (IH x (indent +:+ "  ") Hx) as [o Ho].
      destruct (IHr Hr) as [items Hitems].
      rewrite Ho. simpl. rewrite Hitems. eexists; reflexivity. }
    destruct Hl as [items Hitems]. simpl. rewrite Hitems. eexists; reflexivity.
Qed.

Lemma generic_rendering_total result :
  bigint_free result = true -> exists out, generic_rendering result = Normal out.
Proof.
  intros H. destruct result; try (eexists; reflexivity); try discriminate;
    unfold generic_rendering, JSON_stringify;
    (destruct (serialize_total _ "" H) as [o Ho]; rewrite Ho; eexists; reflexivity).
Qed.

(** On a result without a BigInt the formatter returns, whatever the agent
    kind and however malformed the result. *)
Lemma formatAgentOutput_total_on_json agentType result :
  bigint_free result = true -> exists out, formatAgentOutput agentType result = Normal out.
Proof.
  intros H. unfold formatAgentOutput, try_catch.
  destruct (switch_agentType agentType result) as [out|e]; [eauto|].
  now apply generic_rendering_total.
Qed.

(** Outside the seven recognized kinds the formatter is the generic
    rendering. *)
Lemma formatAgentOutput_unknown_kind agentType result :
  ~ In agentType recognized_kinds ->
  formatAgentOutput agentType result = generic_rendering result.
Proof.
  intros Hn. unfold formatAgentOutput, switch_agentType.
  repeat match goal with
  | |- context [String.eqb agentType ?k] =>
      destruct (String.eqb agentType k) eqn:?E;
      [ apply String.eqb_eq in E; exfalso; apply Hn; subst agentType;
        unfold recognized_kinds; simpl; tauto | clear E ]
  end.
  apply try_catch_same.
Qed.

(** The formatter throws only what its fallback throws. *)
Lemma formatAgentOutput_throws agentType result e :
  formatAgentOutput agentType result = Throw e -> generic_rendering result = Throw e.
Proof.
  unfold formatAgentOutput, try_catch.
  destruct (switch_agentType agentType result); [discriminate | auto].
Qed.

(** A [null] result makes the template throw and is rendered by the
    fallback; a result that lacks every expected field is rendered with
    zeros. *)
Example formatAgentOutput_null :
  formatAgentOutput "story-intelligence" VNull = Normal (VStr "null").
Proof. reflexivity. Qed.

Example formatAgentOutput_partial :
  formatAgentOutput "temporal-reasoning" (VObj [("flashbacks", VArr [VNum 1; VNum 2])])
  = Normal (VStr ("**Timeline Events:** 0" +:+ LF +:+ "**Flashbacks:** 2" +:+ LF
                  +:+ "**Causal Chains:** 0" +:+ LF +:+ "**Issues Found:** 0")).
Proof. reflexivity. Qed.

Example formatAgentOutput_unknown :
  formatAgentOutput "script-doctor" (VObj [("notes", VArr [VStr "tighten act 2"])])
  = Normal (VStr ("{" +:+ LF +:+ "  " +:+ DQUOTE +:+ "notes" +:+ DQUOTE +:+ ": ["
                  +:+ LF +:+ "    " +:+ DQUOTE +:+ "tighten act 2" +:+ DQUOTE
                  +:+ LF +:+ "  ]" +:+ LF +:+ "}")).
Proof. reflexivity. Qed.

(** C3, on the code: the [catch] handler of formatAgentOutput calls
    JSON.stringify again, so a result JSON.stringify rejects escapes both
    the [default:] branch and the handler.  An agent kind outside the seven
    recognized ones with a result holding a BigInt, and the recognized kind
    [intelligent-recall] with such an object (which has no [slice]), both
    make formatAgentOutput throw. *)
Theorem C3_formatAgentOutput_throws_on_bigint :
  formatAgentOutput "script-doctor" (VObj [("wordCount", VBigInt 120000)])
  = Throw (TypeError "Do not know how to serialize a BigInt")
  /\ formatAgentOutput "intelligent-recall" (VObj [("wordCount", VBigInt 120000)])
     = Throw (TypeError "Do not know how to serialize a BigInt").
Proof. split; vm_compute; reflexivity. Qed.

(** ** The context of a single-node run *)

Lemma route_slot_not_base agentKind slot :
  route_slot_of_kind agentKind = Some slot ->
  slot <> "previousResults" /\ slot <> "storyBrief" /\ slot <> "manuscript".
Proof.
  unfold route_slot_of_kind.
  repeat match goal with
  | |- context [String.eqb agentKind ?k] => destruct (String.eqb agentKind k)
  end; intros [= <-]; repeat split; discriminate.
Qed.

(** Distinct agent kinds have distinct slots. *)
Lemma route_slot_injective k k' slot :
  route_slot_of_kind k = Some slot -> route_slot_of_kind k' = Some slot -> k = k'.
Proof.
  unfold route_slot_of_kind.
  repeat match goal with
  | |- context [String.eqb k ?c] =>
      let E := fresh "E" in destruct (String.eqb k c) eqn:E;
      [apply String.eqb_eq in E|clear E]
  end;
  repeat match goal with
  | |- context [String.eqb k' ?c] =>
      let E := fresh "E" in destruct (String.eqb k' c) eqn:E;
      [apply String.eqb_eq in E|clear E]
  end;
  intros H1 H2; try discriminate; try congruence.
Qed.

(** The if-chain of the route is the Context Accumulator with the six-slot
    table. *)
Lemma restore_project nodeId context n :
  restore nodeId context n
  = if contributes nodeId n
    then project route_slot_of_kind (d_agentType (n_data n)) (d_result (n_data n)) context
    else context.
Proof.
  unfold restore, contributes, project, route_slot_of_kind.
  destruct (negb (String.eqb (n_id n) nodeId) && truthy (d_result (n_data n))); auto.
  repeat match goal with
  | |- context [String.eqb ?a ?k] => destruct (String.eqb a k)
  end; reflexivity.
Qed.

Lemma fold_restore_project nodeId nodes : forall context,
  fold_left (restore nodeId) nodes context
  = fold_left
      (fun c n => project route_slot_of_kind (d_agentType (n_data n)) (d_result (n_data n)) c)
      (List.filter (contributes nodeId) nodes) context.
Proof.
  induction nodes as [|n nodes IH]; intros context; simpl; auto.
  rewrite restore_project. destruct (contributes nodeId n); simpl; apply IH.
Qed.

Lemma context_ok_initial w : context_ok (initialContext w).
Proof. eexists _, []. split; reflexivity. Qed.

(** What one projection does to a context of the route. *)
Lemma project_ok agentKind result context :
  context_ok context ->
  let context' := project route_slot_of_kind agentKind result context in
  context_ok context'
  /\ (forall k, opt_get (opt_get context' "previousResults") k
                = if String.eqb k agentKind then result
                  else opt_get (opt_get context "previousResults") k)
  /\ (forall s, s <> "previousResults" ->
        opt_get context' s
        = match route_slot_of_kind agentKind with
          | Some slot => if String.eqb s slot then result else opt_get context s
          | None => opt_get context s
          end).
Proof.
  intros (ps & prev & -> & Hprev). cbv zeta.
  unfold project, set_previousResult. simpl. rewrite Hprev. simpl.
  destruct (route_slot_of_kind agentKind) as [slot|] eqn:Hslot; simpl.
  - destruct (route_slot_not_base _ _ Hslot) as (Hne & _).
    split; [|split].
    + eexists _, _. split; [reflexivity|].
      rewrite lookup_assign_ne by congruence. apply lookup_assign_eq.
    + intros k. rewrite lookup_assign_ne by congruence. rewrite lookup_assign_eq. simpl.
      destruct (String.eqb k agentKind) eqn:E.
      * apply String.eqb_eq in E. subst. apply lookup_assign_eq.
      * apply String.eqb_neq in E. now rewrite lookup_assign_ne.
    + intros s Hs. destruct (String.eqb s slot) eqn:E.
      * apply String.eqb_eq in E. subst. apply lookup_assign_eq.
      * apply String.eqb_neq in E. now rewrite !lookup_assign_ne.
  - split; [|split].
    + eexists _, _. split; [reflexivity|]. apply lookup_assign_eq.
    + intros k. rewrite lookup_assign_eq. simpl.
      destruct (String.eqb k agentKind) eqn:E.
      * apply String.eqb_eq in E. subst. apply lookup_assign_eq.
      * apply String.eqb_neq in E. now rewrite lookup_assign_ne.
    + intros s Hs. now rewrite lookup_assign_ne.
Qed.

(** The Context Accumulator records the agent kind, whatever the table of
    slots. *)
Lemma project_recorded slot_of agentKind result context :
  (forall s, slot_of agentKind = Some s -> s <> "previousResults") ->
  context_ok context ->
  context_ok (project slot_of agentKind result context)
  /\ forall k, recorded k (project slot_of agentKind result context)
               <-> k = agentKind \/ recorded k context.
Proof.
  intros Hslot (ps & prev & -> & Hprev).
  unfold project, set_previousResult, recorded. simpl. rewrite Hprev. simpl.
  destruct (slot_of agentKind) as [slot|] eqn:E; simpl.
  - specialize (Hslot _ eq_refl). split.
    + eexists _, _. split; [reflexivity|].
      rewrite lookup_assign_ne by congruence. apply lookup_assign_eq.
    + intros k. rewrite lookup_assign_ne by congruence. rewrite lookup_assign_eq. simpl.
      apply keys_assign_iff.
  - split.
    + eexists _, _. split; [reflexivity|]. apply lookup_assign_eq.
    + intros k. rewrite lookup_assign_eq. simpl. apply keys_assign_iff.
Qed.

Lemma listed_slot_not_base agentKind slot :
  listed_slot_of_kind agentKind = Some slot -> slot <> "previousResults".
Proof.
  unfold listed_slot_of_kind.
  destruct (String.eqb agentKind "cinematic-teaser"); [intros [= <-]; discriminate|].
  intros H. now apply route_slot_not_base in H.
Qed.

(** The loop of the single-node runner, key by key: each entry of
    [previousResults] and each of the six slots holds the result of the last
    contributing node of its agent kind; every other key is as before. *)
Lemma restore_fold nodeId nodes : forall context,
  context_ok context ->
  let context' := fold_left (restore nodeId) nodes context in
  context_ok context'
  /\ (forall k, opt_get (opt_get context' "previousResults") k
                = last_result nodeId k nodes (opt_get (opt_get context "previousResults") k))
  /\ (forall k slot, route_slot_of_kind k = Some slot ->
        opt_get context' slot = last_result nodeId k nodes (opt_get context slot))
  /\ (forall s, s <> "previousResults" -> (forall k, route_slot_of_kind k <> Some s) ->
        opt_get context' s = opt_get context s).
Proof.
  induction nodes as [|n nodes IH]; intros context Hok; cbv zeta; simpl.
  - auto.
  - assert (Hstep :
      context_ok (restore nodeId context n)
      /\ (forall k, opt_get (opt_get (restore nodeId context n) "previousResults") k
                    = if contributes nodeId n && String.eqb (d_agentType (n_data n)) k
                      then d_result (n_data n)
                      else opt_get (opt_get context "previousResults") k)
      /\ (forall k slot, route_slot_of_kind k = Some slot ->
            opt_get (restore nodeId context n) slot
            = if contributes nodeId n && String.eqb (d_agentType (n_data n)) k
              then d_result (n_data n) else opt_get context slot)
      /\ (forall s, s <> "previousResults" -> (forall k, route_slot_of_kind k <> Some s) ->
            opt_get (restore nodeId context n) s = opt_get context s)).
    { rewrite restore_project. destruct (contributes nodeId n); simpl; [|auto].
      destruct (project_ok (d_agentType (n_data n)) (d_result (n_data n)) context Hok)
        as (H1 & H2 & H3).
      split; [exact H1|]. split; [|split].
      - intros k. rewrite H2, String.eqb_sym. reflexivity.
      - intros k slot Hslot. destruct (route_slot_not_base _ _ Hslot) as (Hne & _).
        rewrite (H3 _ Hne).
        destruct (String.eqb (d_agentType (n_data n)) k) eqn:E.
        + apply String.eqb_eq in E. rewrite E, Hslot. now rewrite String.eqb_refl.
        + destruct (route_slot_of_kind (d_agentType (n_data n))) as [slot'|] eqn:E';
            [|reflexivity].
          destruct (String.eqb slot slot') eqn:Es; [|reflexivity].
          apply String.eqb_eq in Es. subst slot'.
          apply String.eqb_neq in E. exfalso. apply E.
          eapply route_slot_injective; eauto.
      - intros s Hs Hnone. rewrite (H3 _ Hs).
        destruct (route_slot_of_kind (d_agentType (n_data n))) as [slot'|] eqn:E';
          [|reflexivity].
        destruct (String.eqb s slot') eqn:Es; [|reflexivity].
        apply String.eqb_eq in Es. subst. exfalso. eapply Hnone; eauto. }
    destruct Hstep as (S1 & S2 & S3 & S4).
    specialize (IH _ S1). cbv zeta in IH. destruct IH as (I1 & I2 & I3 & I4).
    split; [exact I1|]. split; [|split].
    + intros k. now rewrite I2, S2.
    + intros k slot Hslot. now rewrite (I3 _ _ Hslot), (S3 _ _ Hslot).
    + intros s Hs Hnone. now rewrite (I4 _ Hs Hnone), (S4 _ Hs Hnone).
Qed.

(** The stored data of the target node plays no part. *)
Lemma restore_fold_ignores_target nodeId f nodes : forall context,
  fold_left (restore nodeId)
    (map (fun m => if String.eqb (n_id m) nodeId then on_data f m else m) nodes) context
  = fold_left (restore nodeId) nodes context.
Proof.
  induction nodes as [|n nodes IH]; intros context; simpl; auto.
  destruct (String.eqb (n_id n) nodeId) eqn:E; [|apply IH].
  rewrite IH. f_equal.
  unfold restore. simpl. now rewrite E.
Qed.

(** The table of the projection: six agent kinds, six slots. *)
Lemma route_slot_table agentKind slot :
  route_slot_of_kind agentKind = Some slot <->
  In (agentKind, slot)
     [ ("story-intelligence", "storyContext"); ("knowledge-graph", "knowledgeGraph");
       ("temporal-reasoning", "timeline"); ("continuity-validator", "continuityReport");
       ("creative-coauthor", "suggestions"); ("intelligent-recall", "memoryBank") ].
Proof.
  unfold route_slot_of_kind. split.
  - repeat match goal with
    | |- context [String.eqb agentKind ?c] =>
        let E := fresh "E" in destruct (String.eqb agentKind c) eqn:E;
        [apply String.eqb_eq in E; subst agentKind; intros [= <-]; simpl; tauto|clear E]
    end. discriminate.
  - simpl. intros H.
    repeat (destruct H as [[= <- <-]|H]; [reflexivity|]). contradiction.
Qed.

(** C6, as the route has it.  The projection of the single-node runner is
    a fixed mapping of six agent kinds to six slots (storyContext,
    knowledgeGraph, timeline, continuityReport, suggestions, memoryBank).
    Projecting the result of a node records it under
    [previousResults[agentKind]]; when the agent kind is one of the six, its
    slot is set to that result and no other slot changes; for any other
    agent kind nothing but [previousResults] changes. *)
Theorem C6_six_slots_projected nodeId context n :
  context_ok context ->
  contributes nodeId n = true ->
  let agentKind := d_agentType (n_data n) in
  let result := d_result (n_data n) in
  let context' := restore nodeId context n in
  context_ok context'
  /\ opt_get (opt_get context' "previousResults") agentKind = result
  /\ match route_slot_of_kind agentKind with
     | Some slot =>
         opt_get context' slot = result
         /\ forall s, s <> slot -> s <> "previousResults" ->
                      opt_get context' s = opt_get context s
     | None =>
         context' = set_previousResult context agentKind result
         /\ forall s, s <> "previousResults" -> opt_get context' s = opt_get context s
     end.
Proof.
  intros Hok Hc. cbv zeta. rewrite restore_project, Hc.
  destruct (project_ok (d_agentType (n_data n)) (d_result (n_data n)) context Hok)
    as (H1 & H2 & H3).
  split; [exact H1|]. split; [now rewrite H2, String.eqb_refl|].
  destruct (route_slot_of_kind (d_agentType (n_data n))) as [slot|] eqn:Hslot.
  - destruct (route_slot_not_base _ _ Hslot) as (Hne & _). split.
    + now rewrite (H3 _ Hne), String.eqb_refl.
    + intros s Hs Hp. rewrite (H3 _ Hp).
      apply String.eqb_neq in Hs. now rewrite Hs.
  - split; [|exact H3].
    unfold project. now rewrite Hslot.
Qed.

(** ** The input snapshot *)

(** What a snapshot holds, whenever one is produced. *)
Lemma inputSnapshot_shape context snap :
  inputSnapshot context = Normal snap ->
  exists text keys,
    snap = VObj [ ("storyBrief", VStr (text +:+ "..."));
                  ("hasManuscript", VBool (truthy (opt_get context "manuscript")));
                  ("previousAgents", VArr (map VStr keys)) ]
    /\ (String.length text <= 500)%nat
    /\ (forall s, opt_get context "storyBrief" = VStr s -> text = String.substring 0 500 s)
    /\ object_keys (opt_get context "previousResults") = Normal keys.
Proof.
  unfold inputSnapshot. intros H.
  destruct (get context "storyBrief") as [brief|] eqn:Hb; simpl in H; [|discriminate].
  destruct (opt_substring brief 500) as [cut|] eqn:Hcut; simpl in H; [|discriminate].
  destruct (get context "manuscript") as [manuscript|] eqn:Hm; simpl in H; [|discriminate].
  destruct (get context "previousResults") as [prev|] eqn:Hp; simpl in H; [|discriminate].
  destruct (object_keys prev) as [keys|] eqn:Hk; simpl in H; [|discriminate].
  injection H as <-.
  assert (G : forall k v, get context k = Normal v -> opt_get context k = v).
  { intros k v. destruct context; simpl; intros [= <-]; reflexivity. }
  apply G in Hb, Hm, Hp. subst brief manuscript prev.
  exists (to_string cut), keys. repeat split; auto.
  - destruct (opt_get context "storyBrief"); simpl in Hcut; try discriminate;
      injection Hcut as <-; simpl; try lia. apply substring_length.
  - intros s Hs. rewrite Hs in Hcut. simpl in Hcut. now injection Hcut as <-.
Qed.

(** A snapshot is produced from every context of the route whose brief is
    a text or is absent. *)
Lemma inputSnapshot_total context :
  context_ok context ->
  (exists s, opt_get context "storyBrief" = VStr s)
  \/ opt_get context "storyBrief" = VUndefined
  \/ opt_get context "storyBrief" = VNull ->
  exists snap, inputSnapshot context = Normal snap.
Proof.
  intros (ps & prev & -> & Hprev) Hbrief. unfold inputSnapshot.
  rewrite !get_object, Hprev. simpl in *.
  destruct Hbrief as [[s ->]|[->| ->]]; simpl; eexists; reflexivity.
Qed.

(** ** Loops and lists *)

Lemma for_nodes_cons i n r body st :
  for_nodes i (n :: r) body st
  = match body i n st with
    | (s', Normal _) => for_nodes (S i) r body s'
    | (s', Throw e) => (s', Throw e)
    end.
Proof. reflexivity. Qed.

Lemma drop_app_own {A} (l k : list A) : drop (length l) (l ++ k) = k.
Proof. induction l; simpl; auto. Qed.

Lemma last_snoc_own {A} (l : list A) (x : A) : last (l ++ [x]) = Some x.
Proof. induction l as [|a [|b l] IH]; simpl in *; auto. Qed.

Lemma last_snoc2_own {A} (l : list A) (x y : A) : last (l ++ [x; y]) = Some y.
Proof. change (l ++ [x; y]) with (l ++ [x] ++ [y]). now rewrite app_assoc, last_snoc_own. Qed.

(** ** Traces, summaries and frames *)

Lemma chained_app context a b :
  chained context a -> chained (final_context context a) b -> chained context (a ++ b).
Proof.
  revert context. induction a as [|c a IH]; intros context Ha Hb; simpl in *; auto.
  destruct Ha as [Hc Ha]. split; auto.
Qed.

Lemma final_context_app context a b :
  final_context context (a ++ b) = final_context (final_context context a) b.
Proof. revert context. induction a; intros; simpl; auto. Qed.

Lemma chained_drop trace : forall context k c,
  chained context trace -> trace !! k = Some c ->
  chained (next_context c) (drop (S k) trace).
Proof.
  induction trace as [|c0 trace IH]; intros context k c Hch Hk; [discriminate|].
  destruct Hch as [_ Hch]. destruct k as [|k]; simpl in *.
  - injection Hk as ->. now rewrite drop_0.
  - eapply IH; eauto.
Qed.

Lemma chained_take trace : forall context k c,
  chained context trace -> trace !! k = Some c ->
  chained context (take k trace) /\ c_context c = final_context context (take k trace).
Proof.
  induction trace as [|c0 trace IH]; intros context k c Hch Hk; [discriminate|].
  destruct Hch as [Hc Hch]. destruct k as [|k]; simpl in *.
  - injection Hk as ->. auto.
  - destruct (IH _ _ _ Hch Hk) as [H1 H2]. auto.
Qed.

Lemma answered_take executeAgent trace : forall n k,
  answered executeAgent n trace -> answered executeAgent n (take k trace).
Proof.
  induction trace as [|c trace IH]; intros n [|k] H; simpl in *; auto.
  destruct H as [H1 H2]. auto.
Qed.

Lemma generateExecutionSummary_counts res context sum :
  generateExecutionSummary res context = Normal sum ->
  agentsExecuted sum = length res
  /\ successfulAgents sum = length (filter (fun r => no_error_field r = true) res).
Proof.
  unfold generateExecutionSummary. intros H.
  repeat match type of H with
  | mbind _ ?m = _ => destruct m; simpl in H; try discriminate
  end.
  injection H as <-. auto.
Qed.

(** On a context that is an object the summary never throws, whatever its
    slots hold. *)
Lemma generateExecutionSummary_total res ps :
  exists sum, generateExecutionSummary res (VObj ps) = Normal sum.
Proof.
  unfold generateExecutionSummary. rewrite !get_object. simpl.
  repeat match goal with
  | |- context [if truthy ?v then _ else _] =>
      let E := fresh "E" in
      destruct (truthy v) eqn:E; [rewrite (get_truthy _ _ E)|]; simpl
  end; eexists; reflexivity.
Qed.

Lemma find_node_Some nodeId ns i n :
  find_node nodeId ns = Some (i, n) -> ns !! i = Some n /\ n_id n = nodeId.
Proof. unfold find_node. rewrite list_find_Some. tauto. Qed.

(** Writing into the data of a node does not change which node [find]
    returns. *)
Lemma find_node_alter nodeId f ns i n :
  find_node nodeId ns = Some (i, n) ->
  find_node nodeId (alter (on_data f) i ns) = Some (i, on_data f n).
Proof.
  unfold find_node. rewrite !list_find_Some. intros (Hi & Hn & Hfirst).
  split; [|split].
  - now rewrite list_lookup_alter_eq, Hi.
  - exact Hn.
  - intros j y Hj Hlt. rewrite list_lookup_alter_ne in Hj by lia. eauto.
Qed.

Lemma same_outside_refl nodeId ns : same_outside nodeId ns ns.
Proof. split; auto. Qed.

Lemma frame_refl nodeId w : frame nodeId w w.
Proof. repeat split; auto. Qed.

(** Writing into the target node keeps the frame. *)
Lemma frame_touch nodeId w0 w i n f :
  w_nodes w0 !! i = Some n -> n_id n = nodeId ->
  frame nodeId w0 w -> frame nodeId w0 (touch i f w).
Proof.
  intros Hi Hid (Hp & Hs & Hlen & Hout).
  repeat split; simpl; auto.
  - now rewrite length_alter.
  - intros j m Hj Hne.
    rewrite list_lookup_alter_ne; [eauto|].
    intros ->. rewrite Hi in Hj. injection Hj as ->. contradiction.
Qed.

Lemma frame_set_analysisContext nodeId w0 w c :
  frame nodeId w0 w -> frame nodeId w0 (set_analysisContext c w).
Proof. intros (Hp & Hs & Hlen & Hout). repeat split; simpl; auto. Qed.

Lemma final_status_cases p :
  (final_status p = WfError <-> completedNodes p = [])
  /\ (final_status p = WfPartial <-> completedNodes p <> [] /\ errors p <> [])
  /\ (final_status p = WfCompleted <-> completedNodes p <> [] /\ errors p = []).
Proof.
  unfold final_status.
  destruct (completedNodes p) as [|c cs], (errors p) as [|e es]; simpl;
    repeat split; intros; try discriminate; try congruence;
    try (destruct H; congruence).
Qed.

(** ** Objects and strings, continued *)

Lemma get_not_nullish v k : nullish v = false -> get v k = Normal (opt_get v k).
Proof. destruct v; simpl; intros; try discriminate; reflexivity. Qed.










Lemma substring_short s : forall n, (String.length s <= n)%nat -> String.substring 0 n s = s.
Proof.
  induction s as [|c s IH]; intros [|n] H; simpl in *; auto; try lia.
  f_equal. apply IH. lia.
Qed.

Lemma substring_long s : forall n, (n <= String.length s)%nat ->
  String.length (String.substring 0 n s) = n.
Proof.
  induction s as [|c s IH]; intros [|n] H; simpl in *; auto; try lia.
  f_equal. apply IH. lia.
Qed.

Lemma length_append_own s t :
  String.length (s +:+ t) = (String.length s + String.length t)%nat.
Proof. induction s; simpl; auto. Qed.

Lemma drop_cons_inv {A} (l r : list A) i x :
  drop i l = x :: r -> l !! i = Some x /\ drop (S i) l = r.
Proof.
  revert i. induction l as [|a l IH]; intros [|i] H; simpl in *; try discriminate.
  - injection H as -> ->. split; auto.
  - apply IH in H. auto.
Qed.

Lemma map_cons_inv {A B} (f : A -> B) a l b k :
  map f (a :: l) = map f (b :: k) -> f a = f b /\ map f l = map f k.
Proof. simpl. intros H. injection H as H1 H2. auto. Qed.

(** ** formatAgentOutput, continued *)

Lemma serialize_None indent v : serialize indent v = Normal None -> v = VUndefined.
Proof.
  destruct v as [| |[|]| | | |l|ps]; simpl; try discriminate; auto.
  - destruct ((fix elements (l : list value) : completion (list string) := _) l);
      simpl; discriminate.
  - destruct ((fix members (ps : list (string * value)) : completion (list string) := _) ps);
      simpl; discriminate.
Qed.

Lemma generic_rendering_text result out :
  generic_rendering result = Normal out ->
  (exists s, out = VStr s) \/ (result = VUndefined /\ out = VUndefined).
Proof.
  unfold generic_rendering, JSON_stringify.
  destruct result; try (intros [= <-]; eauto; fail);
  match goal with |- context [serialize ?i ?v] =>
    destruct (serialize i v) as [[s|]|e] eqn:E end;
  simpl; intros [= <-]; eauto; apply serialize_None in E; try discriminate; auto.
Qed.

(** Every template of the switch yields a string. *)
Lemma switch_agentType_text agentType result out :
  switch_agentType agentType result = Normal out ->
  (exists s, out = VStr s) \/ (result = VUndefined /\ out = VUndefined).
Proof.
  unfold switch_agentType.
  repeat (destruct (String.eqb agentType _);
          [unfold render_story_intelligence, render_knowledge_graph,
             render_temporal_reasoning, render_continuity_validator,
             render_creative_coauthor, render_intelligent_recall,
             render_cinematic_teaser, field_of, count_of, joined_of;
           repeat step_bind; intros [= <-]; eauto|]).
  apply generic_rendering_text.
Qed.

Lemma map_bullets_total l :
  forallb (fun a => negb (nullish a)) l = true -> exists bs, map_bullets l = Normal bs.
Proof.
  induction l as [|a l IH]; simpl; [eauto|].
  rewrite andb_true_iff, negb_true_iff. intros [Ha Hl].
  destruct (IH Hl) as [bs ->]. rewrite (get_not_nullish _ _ Ha). simpl. eauto.
Qed.

Lemma map_bullets_length l : forall bs, map_bullets l = Normal bs -> length bs = length l.
Proof.
  induction l as [|a l IH]; simpl; intros bs.
  - now intros [= <-].
  - destruct (get a "query"); simpl; [|discriminate].
    destruct (map_bullets l); simpl; [|discriminate]. intros [= <-]. simpl. f_equal. auto.
Qed.

(** X15.  What formatAgentOutput returns is text, whatever the agent kind
    and the result, with one exception: for the result [undefined]
    (which JSON.stringify maps to [undefined]) the output is
    [undefined]. *)
Theorem X15_formatAgentOutput_is_text agentType result out :
  formatAgentOutput agentType result = Normal out ->
  (exists s, out = VStr s) \/ (result = VUndefined /\ out = VUndefined).
Proof.
  unfold formatAgentOutput, try_catch.
  destruct (switch_agentType agentType result) eqn:E.
  - intros [= <-]. eapply switch_agentType_text; eauto.
  - apply generic_rendering_text.
Qed.

Lemma X15_witness :
  formatAgentOutput "cinematic-teaser" teaser
  = Normal (VStr ("**Tagline:** Trust no one" +:+ LF +:+ "**Visual Scenes:** 0" +:+ LF
                  +:+ "**Hooks:** undefined"))
  /\ ((exists s, VStr ("**Tagline:** Trust no one" +:+ LF +:+ "**Visual Scenes:** 0" +:+ LF
                       +:+ "**Hooks:** undefined") = VStr s)
      \/ (teaser = VUndefined
          /\ VStr ("**Tagline:** Trust no one" +:+ LF +:+ "**Visual Scenes:** 0" +:+ LF
                   +:+ "**Hooks:** undefined") = VUndefined)).
Proof.
  split; [reflexivity|].
  apply (X15_formatAgentOutput_is_text "cinematic-teaser" teaser). reflexivity.
Defined.

(** X16.  For every agent kind, recognized or not, the result [null] is
    rendered as the text "null" and the result [undefined] as [undefined]:
    each template fails on reading a property of the result and the
    handler falls back to JSON.stringify. *)
Theorem X16_formatAgentOutput_nullish_result agentType :
  formatAgentOutput agentType VNull = Normal (VStr "null")
  /\ formatAgentOutput agentType VUndefined = Normal VUndefined.
Proof.
  unfold formatAgentOutput, switch_agentType.
  repeat (destruct (String.eqb agentType _); [split; reflexivity|]).
  split; reflexivity.
Qed.

(** X17.  For the agent kinds knowledge-graph, temporal-reasoning,
    continuity-validator and creative-coauthor the template itself
    succeeds on every result other than [null] and [undefined]: the
    output is the template's text and the JSON fallback is not reached, so
    that these kinds never throw, also on a result that JSON.stringify
    rejects. *)
Theorem X17_count_templates_render_any_result agentType result :
  In agentType count_only_kinds ->
  nullish result = false ->
  exists s, switch_agentType agentType result = Normal (VStr s)
            /\ formatAgentOutput agentType result = Normal (VStr s).
Proof.
  intros Hk Hr. unfold formatAgentOutput.
  simpl in Hk. destruct Hk as [<-|[<-|[<-|[<-|[]]]]];
    unfold switch_agentType; simpl;
    unfold render_knowledge_graph, render_temporal_reasoning,
      render_continuity_validator, render_creative_coauthor, count_of, field_of;
    rewrite !(get_not_nullish _ _ Hr); simpl; eauto.
Qed.

Lemma X17_witness :
  In "knowledge-graph" count_only_kinds
  /\ nullish word_count = false
  /\ bigint_free word_count = false
  /\ exists s, formatAgentOutput "knowledge-graph" word_count = Normal (VStr s).
Proof.
  assert (Hk : In "knowledge-graph" count_only_kinds) by (simpl; auto).
  assert (Hr : nullish word_count = false) by reflexivity.
  split; [exact Hk|]. split; [exact Hr|]. split; [reflexivity|].
  destruct (X17_count_templates_render_any_result "knowledge-graph" word_count Hk Hr)
    as (s & _ & Hs).
  exists s. exact Hs.
Defined.

(** X18.  For intelligent-recall on an array whose first three items are
    neither [null] nor [undefined], the output is the count of all items
    followed by one bullet for each of the first three items at most: the
    items after the third matter through their number only. *)
Theorem X18_intelligent_recall_first_three l l' :
  forallb (fun a => negb (nullish a)) (firstn 3 l) = true ->
  firstn 3 l' = firstn 3 l ->
  length l' = length l ->
  formatAgentOutput "intelligent-recall" (VArr l')
  = formatAgentOutput "intelligent-recall" (VArr l)
  /\ exists bullets,
       map_bullets (firstn 3 l) = Normal bullets
       /\ length bullets = Nat.min 3 (length l)
       /\ formatAgentOutput "intelligent-recall" (VArr l)
          = Normal (VStr ("**Insights Generated:** "
                          +:+ to_string (or_else (of_nat (length l)) (VNum 0)) +:+ LF
                          +:+ join_strings LF bullets)).
Proof.
  intros Hnn Hf Hlen.
  destruct (map_bullets_total _ Hnn) as [bs Hbs].
  assert (Hl : forall k,
    formatAgentOutput "intelligent-recall" (VArr k)
    = try_catch (bullets ← map_bullets (firstn 3 k);
                 Normal (VStr ("**Insights Generated:** "
                               +:+ to_string (or_else (of_nat (length k)) (VNum 0)) +:+ LF
                               +:+ join_strings LF bullets)))
        (fun _ => generic_rendering (VArr k))) by reflexivity.
  assert (Hn : length bs = Nat.min 3 (length l))
    by (rewrite (map_bullets_length _ _ Hbs); apply length_firstn).
  rewrite !Hl, Hf, Hlen, Hbs. split; [reflexivity|].
  exists bs. repeat split; auto.
Qed.

Lemma X18_witness :
  formatAgentOutput "intelligent-recall"
    (VArr [VObj [("query", VStr "who")]; VObj [("query", VStr "where")]; VNum 3; VNull])
  = formatAgentOutput "intelligent-recall"
      (VArr [VObj [("query", VStr "who")]; VObj [("query", VStr "where")]; VNum 3;
             word_count]).
Proof.
  exact (proj1 (X18_intelligent_recall_first_three
                  [VObj [("query", VStr "who")]; VObj [("query", VStr "where")]; VNum 3;
                   word_count]
                  [VObj [("query", VStr "who")]; VObj [("query", VStr "where")]; VNum 3;
                   VNull]
                  eq_refl eq_refl eq_refl)).
Defined.

(** ** generateExecutionSummary, continued *)

(** The summary of a context other than [null] and [undefined]. *)
Lemma generateExecutionSummary_value res context :
  nullish context = false ->
  let slot := opt_get context in
  generateExecutionSummary res context
  = Normal {| agentsExecuted := length res;
              successfulAgents := length (filter (fun r => no_error_field r = true) res);
              storyAnalyzed := truthy (slot "storyContext");
              knowledgeGraphBuilt := truthy (slot "knowledgeGraph");
              timelineAnalyzed := truthy (slot "timeline");
              continuityChecked := truthy (slot "continuityReport");
              suggestionsGenerated := truthy (slot "suggestions");
              teaserCreated := truthy (slot "teaserContent");
              highlights :=
                (if truthy (slot "storyContext")
                 then ["Genre identified: "
                       +:+ to_string (opt_get (slot "storyContext") "genre")]
                 else [])
                ++ (if truthy (slot "knowledgeGraph")
                    then [to_string (length_or_0 (opt_get (slot "knowledgeGraph") "characters"))
                          +:+ " characters mapped"]
                    else [])
                ++ (if truthy (slot "continuityReport")
                    then ["Continuity score: "
                          +:+ to_string (opt_get (slot "continuityReport") "continuityScore")
                          +:+ "/100"]
                    else [])
                ++ (if truthy (slot "teaserContent")
                    then ["Trailer tagline: " +:+ DQUOTE
                          +:+ to_string (opt_get (slot "teaserContent") "tagline")
                          +:+ DQUOTE]
                    else []) |}.
Proof.
  intros Hc. cbv zeta. unfold generateExecutionSummary.
  rewrite !(get_not_nullish _ _ Hc). cbn [mbind completion_bind].
  destruct (truthy (opt_get context "storyContext")) eqn:T1;
    [rewrite (get_truthy _ _ T1)|]; cbn [mbind completion_bind];
  (destruct (truthy (opt_get context "knowledgeGraph")) eqn:T2;
    [rewrite (get_truthy _ _ T2)|]; cbn [mbind completion_bind]);
  (destruct (truthy (opt_get context "continuityReport")) eqn:T3;
    [rewrite (get_truthy _ _ T3)|]; cbn [mbind completion_bind]);
  (destruct (truthy (opt_get context "teaserContent")) eqn:T4;
    [rewrite (get_truthy _ _ T4)|]; cbn [mbind completion_bind]);
  reflexivity.
Qed.

(** X19.  generateExecutionSummary throws exactly when the context is
    [null] or [undefined]; on every other context, whatever its slots
    hold, it returns a summary. *)
Theorem X19_summary_throws_iff_nullish res context :
  (exists e, generateExecutionSummary res context = Throw e) <-> nullish context = true.
Proof.
  split.
  - intros [e He]. destruct (nullish context) eqn:N; [reflexivity|].
    rewrite (generateExecutionSummary_value res context N) in He. discriminate.
  - destruct context; try discriminate; intros _; simpl; eauto.
Qed.

(** X20.  In a summary, [successfulAgents] never exceeds
    [agentsExecuted]; each of the six flags is the truthiness of its slot
    of the context; and there is one highlight for each of the slots
    storyContext, knowledgeGraph, continuityReport and teaserContent that
    is populated, and none for timeline and suggestions. *)
Theorem X20_summary_shape res context sum :
  generateExecutionSummary res context = Normal sum ->
  (successfulAgents sum <= agentsExecuted sum)%nat
  /\ storyAnalyzed sum = truthy (opt_get context "storyContext")
  /\ knowledgeGraphBuilt sum = truthy (opt_get context "knowledgeGraph")
  /\ timelineAnalyzed sum = truthy (opt_get context "timeline")
  /\ continuityChecked sum = truthy (opt_get context "continuityReport")
  /\ suggestionsGenerated sum = truthy (opt_get context "suggestions")
  /\ teaserCreated sum = truthy (opt_get context "teaserContent")
  /\ length (highlights sum)
     = (Nat.b2n (storyAnalyzed sum) + Nat.b2n (knowledgeGraphBuilt sum)
        + Nat.b2n (continuityChecked sum) + Nat.b2n (teaserCreated sum))%nat.
Proof.
  intros H. destruct (nullish context) eqn:N.
  - destruct context; discriminate.
  - rewrite (generateExecutionSummary_value res context N) in H. injection H as <-.
    cbn [agentsExecuted successfulAgents storyAnalyzed knowledgeGraphBuilt timelineAnalyzed
         continuityChecked suggestionsGenerated teaserCreated highlights].
    repeat split; try reflexivity.
    + apply length_filter.
    + rewrite !length_app.
      destruct (truthy (opt_get context "storyContext")),
        (truthy (opt_get context "knowledgeGraph")),
        (truthy (opt_get context "continuityReport")),
        (truthy (opt_get context "teaserContent")); reflexivity.
Qed.

Lemma X20_witness :
  let context := VObj [("storyContext", noir); ("timeline", VObj []);
                       ("suggestions", VArr [])] in
  let sum := mkSummary 1 0 true false true false true false ["Genre identified: noir"] in
  generateExecutionSummary [mkResult "A" "story-intelligence" (VStr "A")
                              (VObj [("error", VStr "model overloaded")])] context
  = Normal sum
  /\ length (highlights sum) = 1%nat.
Proof.
  cbv zeta. split; [reflexivity|].
  destruct (X20_summary_shape
              [mkResult "A" "story-intelligence" (VStr "A")
                 (VObj [("error", VStr "model overloaded")])]
              (VObj [("storyContext", noir); ("timeline", VObj []);
                     ("suggestions", VArr [])])
              (mkSummary 1 0 true false true false true false ["Genre identified: noir"])
              eq_refl) as (_ & _ & _ & _ & _ & _ & _ & T).
  exact T.
Defined.

(** ** The input snapshot, continued *)

(** X14.  The [storyBrief] of a snapshot has at most 503 characters.  A
    brief of at most 500 characters is shown whole and still gets the
    marker "..."; a longer one is shown as exactly 503 characters; and
    when the context has no brief ([undefined] or [null]) the snapshot
    shows the text "undefined...". *)
Theorem X14_inputSnapshot_marker context snap :
  inputSnapshot context = Normal snap ->
  exists shown,
    opt_get snap "storyBrief" = VStr shown
    /\ (String.length shown <= 503)%nat
    /\ (forall s, opt_get context "storyBrief" = VStr s ->
          ((String.length s <= 500)%nat -> shown = s +:+ "...")
          /\ ((500 < String.length s)%nat -> String.length shown = 503%nat))
    /\ (nullish (opt_get context "storyBrief") = true -> shown = "undefined...").
Proof.
  intros H. destruct (inputSnapshot_shape _ _ H) as (text & ks & -> & Hlen & Htext & _).
  exists (text +:+ "..."). split; [reflexivity|]. split.
  { rewrite length_append_own. simpl. lia. }
  split.
  - intros s Hs. rewrite (Htext s Hs). split; intros Hl.
    + now rewrite substring_short.
    + rewrite length_append_own, substring_long by lia. reflexivity.
  - intros Hn. unfold inputSnapshot in H.
    destruct context; try discriminate; simpl in H, Hn.
    all: try (destruct (String.eqb _ _); discriminate).
    destruct (lookup_prop "storyBrief" props); try discriminate; simpl in H.
    all: destruct (object_keys _); simpl in H; try discriminate; injection H as H;
      symmetry; exact H.
Qed.

Lemma X14_witness :
  inputSnapshot (VObj [("manuscript", VStr "INT. OFFICE - NIGHT");
                       ("previousResults", VObj [])])
  = Normal (VObj [ ("storyBrief", VStr "undefined..."); ("hasManuscript", VBool true);
                   ("previousAgents", VArr []) ])
  /\ exists shown,
       opt_get (VObj [ ("storyBrief", VStr "undefined..."); ("hasManuscript", VBool true);
                       ("previousAgents", VArr []) ]) "storyBrief" = VStr shown
       /\ (String.length shown <= 503)%nat.
Proof.
  split; [reflexivity|].
  destruct (X14_inputSnapshot_marker
              (VObj [("manuscript", VStr "INT. OFFICE - NIGHT");
                     ("previousResults", VObj [])])
              (VObj [ ("storyBrief", VStr "undefined..."); ("hasManuscript", VBool true);
                      ("previousAgents", VArr []) ])
              eq_refl) as (shown & H1 & H2 & _).
  exists shown. split; [exact H1|exact H2].
Defined.

(** * The route, path by path *)

(** ** Reading a document *)

Lemma nodes_touch i f w : w_nodes (touch i f w) = alter (on_data f) i (w_nodes w).
Proof. reflexivity. Qed.

Lemma nodes_set_progress p w : w_nodes (set_progress p w) = w_nodes w.
Proof. reflexivity. Qed.

Lemma nodes_entered i n w :
  w_nodes (entered i n w) = alter (on_data (set_status StRunning)) i (w_nodes w).
Proof. reflexivity. Qed.

Lemma nodes_failed_turn i n e w :
  w_nodes (failed_turn i n e w)
  = alter (on_data (set_error (VStr (message e)))) i
      (alter (on_data (set_status StError)) i (w_nodes w)).
Proof. reflexivity. Qed.

Lemma progress_touch i f w : w_progress (touch i f w) = w_progress w.
Proof. reflexivity. Qed.

Lemma progress_set_progress p w : w_progress (set_progress p w) = p.
Proof. reflexivity. Qed.

Lemma progress_entered i n w :
  w_progress (entered i n w) = set_currentNode (Some (n_id n)) (w_progress w).
Proof. reflexivity. Qed.

Lemma progress_failed_turn i n e w :
  w_progress (failed_turn i n e w) = push_error (n_id n, message e) (w_progress w).
Proof. reflexivity. Qed.

Lemma nodes_failed_node i e w :
  w_nodes (failed_node i e w)
  = alter (on_data (set_error (VStr (message e)))) i
      (alter (on_data (set_status StError)) i (w_nodes w)).
Proof. reflexivity. Qed.

Lemma nodes_set_analysisContext c w : w_nodes (set_analysisContext c w) = w_nodes w.
Proof. reflexivity. Qed.

Lemma analysisContext_touch i f w : w_analysisContext (touch i f w) = w_analysisContext w.
Proof. reflexivity. Qed.

Lemma analysisContext_failed_node i e w :
  w_analysisContext (failed_node i e w) = w_analysisContext w.
Proof. reflexivity. Qed.

Lemma analysisContext_set c w : w_analysisContext (set_analysisContext c w) = c.
Proof. reflexivity. Qed.

#[local] Hint Rewrite nodes_failed_turn nodes_set_progress nodes_touch nodes_entered
  nodes_failed_node nodes_set_analysisContext
  progress_failed_turn progress_set_progress progress_touch progress_entered
  analysisContext_touch analysisContext_failed_node analysisContext_set : route_doc.

Lemma last_written s : last (saved (written s)) = Some (doc (written s)).
Proof. cbn [saved doc written]. apply last_snoc_own. Qed.

Lemma identity_alter f i ns :
  (forall d, d_agentType (f d) = d_agentType d /\ d_label (f d) = d_label d) ->
  map identity (alter (on_data f) i ns) = map identity ns.
Proof.
  intros Hf. revert i. induction ns as [|n ns IH]; intros [|i]; simpl; auto.
  - f_equal. unfold identity. simpl. destruct (Hf (n_data n)) as [-> ->]. reflexivity.
  - f_equal. apply IH.
Qed.

Lemma kept_refl w : kept w w.
Proof. repeat split. Qed.

Lemma kept_trans a b c : kept a b -> kept b c -> kept a c.
Proof. unfold kept. intuition congruence. Qed.

Lemma kept_touch w0 w i f :
  (forall d, d_agentType (f d) = d_agentType d /\ d_label (f d) = d_label d) ->
  kept w0 w -> kept w0 (touch i f w).
Proof.
  intros Hf (H1 & H2 & H3 & H4 & H5 & H6 & H7).
  repeat split; simpl; auto. now rewrite identity_alter.
Qed.

Lemma kept_progress w0 w p :
  totalNodes p = totalNodes (w_progress w) -> kept w0 w -> kept w0 (set_progress p w).
Proof.
  intros Hp (H1 & H2 & H3 & H4 & H5 & H6 & H7). repeat split; simpl; auto. congruence.
Qed.

Lemma kept_entered w0 w i n : kept w0 w -> kept w0 (entered i n w).
Proof.
  intros H. unfold entered. apply kept_touch; [now split|]. now apply kept_progress.
Qed.

Lemma kept_failed_turn w0 w i n e : kept w0 w -> kept w0 (failed_turn i n e w).
Proof.
  intros H. unfold failed_turn. apply kept_progress; [reflexivity|].
  apply kept_touch; [now split|]. apply kept_touch; [now split|]. exact H.
Qed.

(** *** Checkpoints, transformer by transformer *)

Lemma checkpoints_refl R k st : R (doc st) (doc st) -> checkpoints R k st st.
Proof.
  intros H. split; [exact H|]. exists []. rewrite app_nil_r.
  split; [reflexivity|]. split; [apply List.Forall_nil|]. cbn [length]. lia.
Qed.

Lemma checkpoints_written R k st s :
  checkpoints R k st s -> checkpoints R (S k) st (written s).
Proof.
  intros (K & new & Hs & Hf & Hl). split; [exact K|].
  exists (new ++ [doc s]). cbn [doc saved written]. rewrite Hs, <- app_assoc.
  split; [reflexivity|].
  split; [|rewrite length_app; cbn [length]; lia].
  apply Forall_app. split; [exact Hf|].
  apply List.Forall_cons; [exact K|apply List.Forall_nil].
Qed.

Lemma checkpoints_unwritten R k st s :
  checkpoints R k st s -> checkpoints R k st (unwritten s).
Proof. intros H. exact H. Qed.

Lemma checkpoints_add_call R k st s c :
  checkpoints R k st s -> checkpoints R k st (add_call c s).
Proof. intros H. exact H. Qed.

Lemma checkpoints_put_context R k st s c :
  checkpoints R k st s -> checkpoints R k st (put_context c s).
Proof. intros H. exact H. Qed.

Lemma checkpoints_add_result R k st s r :
  checkpoints R k st s -> checkpoints R k st (add_result r s).
Proof. intros H. exact H. Qed.

Lemma checkpoints_with_doc R k st s f :
  R (doc st) (f (doc s)) -> checkpoints R k st s -> checkpoints R k st (with_doc f s).
Proof. intros K (_ & H). split; [exact K|exact H]. Qed.

Lemma checkpoints_more R k k' st s :
  (k <= k')%nat -> checkpoints R k st s -> checkpoints R k' st s.
Proof.
  intros Hk (K & new & Hs & Hf & Hl). split; [exact K|].
  exists new. split; [exact Hs|]. split; [exact Hf|lia].
Qed.

Lemma checkpoints_trans k1 k2 a b c :
  checkpoints kept k1 a b -> checkpoints kept k2 b c -> checkpoints kept (k1 + k2) a c.
Proof.
  intros (K1 & n1 & S1 & F1 & L1) (K2 & n2 & S2 & F2 & L2).
  split; [eapply kept_trans; eassumption|].
  exists (n1 ++ n2). rewrite S2, S1, <- app_assoc. split; [reflexivity|].
  split; [|rewrite length_app; lia].
  apply Forall_app. split; [exact F1|].
  eapply Forall_impl; [exact F2|]. intros w Hw. eapply kept_trans; eassumption.
Qed.

(** *** Invocations in order *)

Lemma in_order_refl st : in_order [] [] st st.
Proof.
  exists [], [], []. rewrite !app_nil_r. repeat split; auto; constructor.
Qed.

Lemma in_order_trans k1 k2 i1 i2 a b c :
  in_order k1 i1 a b -> in_order k2 i2 b c -> in_order (k1 ++ k2) (i1 ++ i2) a c.
Proof.
  intros (t1 & r1 & c1 & A1 & A2 & A3 & A4 & A5 & A6 & A7 & A8)
         (t2 & r2 & c2 & B1 & B2 & B3 & B4 & B5 & B6 & B7 & B8).
  exists (t1 ++ t2), (r1 ++ r2), (c1 ++ c2).
  rewrite B1, B2, B3, A1, A2, A3, <- !app_assoc, !map_app, omap_app, A5, B5.
  repeat split; auto using sublist_app. apply Forall_app; auto.
Qed.

(** The turns that were not taken change nothing. *)
Lemma in_order_more k1 k2 i1 i2 a b :
  in_order k1 i1 a b -> in_order (k1 ++ k2) (i1 ++ i2) a b.
Proof.
  intros (t1 & r1 & c1 & A1 & A2 & A3 & A4 & A5 & A6 & A7 & A8).
  exists t1, r1, c1. repeat split; auto.
  - etransitivity; [exact A4|]. apply sublist_inserts_r. reflexivity.
  - etransitivity; [exact A6|]. apply sublist_inserts_r. reflexivity.
Qed.

Lemma inputSnapshot_nullish context :
  nullish context = true -> exists e, inputSnapshot context = Throw e.
Proof. destruct context; try discriminate; intros _; simpl; eauto. Qed.


(** ** What JSON.stringify rejects *)

Lemma serialize_throws :
  forall v indent, bigint_free v = false ->
    serialize indent v = Throw (TypeError "Do not know how to serialize a BigInt").
Proof.
  fix IH 1.
  intros [ | | [|] | n | n | s | l | ps] indent H; try discriminate; try reflexivity.
  - assert (Hl : (fix elements (l : list value) : completion (list string) :=
                    match l with
                    | [] => Normal []
                    | x :: r =>
                        o ← serialize (indent +:+ "  ") x;
                        rest ← elements r;
                        Normal (default "null" o :: rest)
                    end) l = Throw (TypeError "Do not know how to serialize a BigInt")).
    { simpl in H. induction l as [|x r IHr]; [discriminate|].
      destruct (bigint_free x) eqn:Hx.
      - destruct (serialize_total x (indent +:+ "  ") Hx) as [o Ho].
        rewrite Ho. simpl. simpl in H. rewrite (IHr H). reflexivity.
      - rewrite (IH x (indent +:+ "  ") Hx). reflexivity. }
    simpl. rewrite Hl. reflexivity.
  - assert (Hl : (fix members (ps : list (string * value)) : completion (list string) :=
                    match ps with
                    | [] => Normal []
                    | (k, x) :: r =>
                        o ← serialize (indent +:+ "  ") x;
                        rest ← members r;
                        Normal (match o with
                                | Some s => (quote k +:+ ": " +:+ s) :: rest
                                | None => rest
                                end)
                    end) ps = Throw (TypeError "Do not know how to serialize a BigInt")).
    { simpl in H. induction ps as [|[k x] r IHr]; [discriminate|].
      destruct (bigint_free x) eqn:Hx.
      - destruct (serialize_total x (indent +:+ "  ") Hx) as [o Ho].
        rewrite Ho. simpl. simpl in H. rewrite (IHr H). reflexivity.
      - rewrite (IH x (indent +:+ "  ") Hx). reflexivity. }
    simpl. rewrite Hl. reflexivity.
Qed.

(** [NextResponse.json] answers exactly when its body holds no BigInt. *)
Lemma NextResponse_json_cases r :
  (bigint_free (body r) = true /\ NextResponse_json r = Normal r)
  \/ (bigint_free (body r) = false
      /\ NextResponse_json r = Throw (TypeError "Do not know how to serialize a BigInt")).
Proof.
  unfold NextResponse_json, JSON_stringify.
  destruct (bigint_free (body r)) eqn:H.
  - left. split; [reflexivity|].
    destruct (serialize_total _ "" H) as [o ->]. reflexivity.
  - right. split; [reflexivity|]. rewrite (serialize_throws _ "" H). reflexivity.
Qed.

Lemma NextResponse_json_Normal r r' : NextResponse_json r = Normal r' -> r' = r.
Proof.
  destruct (NextResponse_json_cases r) as [[_ ->]|[_ ->]]; [|discriminate].
  now intros [= <-].
Qed.

(** ** The equations of the route *)

Section Equations.

Variable executeAgent : nat -> string -> value -> completion (value * value).
Variable AGENT_DEFINITIONS : string -> value.
Variable save_outcome : nat -> workflow -> completion unit.

(** The [catch] block of the loop (lines 204-215). *)
Lemma node_catch_eq i n e s :
  node_catch save_outcome i n e s
  = match save_outcome (attempts s) (failed_turn i n e (doc s)) with
    | Normal _ => (written (with_doc (failed_turn i n e) s), Normal tt)
    | Throw e' => (unwritten (with_doc (failed_turn i n e) s), Throw e')
    end.
Proof.
  destruct_state s. unfold node_catch, failed_turn. run_M.
  destruct (save_outcome _ _); reflexivity.
Qed.

(** The [try] block of the loop (lines 167-203): each of the three writes
    may be rejected, and the snapshot, the agent and the formatter may
    throw. *)
Lemma node_try_eq i n st :
  node_try executeAgent AGENT_DEFINITIONS save_outcome i n st
  = let kind := d_agentType (n_data n) in
    let context := agentContext st in
    let s1 := with_doc (entered i n) st in
    match save_outcome (attempts st) (entered i n (doc st)) with
    | Throw e => (unwritten s1, Throw e)
    | Normal _ =>
      match inputSnapshot context with
      | Throw e => (written s1, Throw e)
      | Normal input =>
        let s2 := with_doc (touch i (set_input input)) (written s1) in
        match save_outcome (S (attempts st))
                (touch i (set_input input) (entered i n (doc st)))
        with
        | Throw e => (unwritten s2, Throw e)
        | Normal _ =>
          let outcome := executeAgent (length (calls st)) kind context in
          let s3 := add_call (mkCall kind context outcome) (written s2) in
          match outcome with
          | Throw e => (s3, Throw e)
          | Normal ru =>
            let entry := mkResult (n_id n) kind
                           (or_else (opt_get (AGENT_DEFINITIONS kind) "name")
                                    (d_label (n_data n))) ru.1 in
            let s4 := with_doc (touch i (set_result ru.1))
                        (with_doc (touch i (set_status StSuccess))
                           (add_result entry (put_context ru.2 s3))) in
            match formatAgentOutput kind ru.1 with
            | Throw e => (s4, Throw e)
            | Normal output =>
              let s5 := with_doc (fun w => set_progress
                                             (push_completed (n_id n) (w_progress w))
                                             (touch i (set_output output) w)) s4 in
              match save_outcome (S (S (attempts st))) (doc s5) with
              | Throw e => (unwritten s5, Throw e)
              | Normal _ => (written s5, Normal tt)
              end
            end
          end
        end
      end
    end.
Proof.
  destruct_state st. unfold node_try, entered. run_M.
  destruct (save_outcome _ _); [|reflexivity].
  destruct (inputSnapshot _); run_M; [|reflexivity].
  destruct (save_outcome _ _); [|reflexivity].
  destruct (executeAgent _ _ _) as [[r u]|e]; run_M; [|reflexivity].
  destruct (formatAgentOutput _ _); run_M; [|reflexivity].
  destruct (save_outcome _ _); reflexivity.
Qed.

Lemma node_step_eq i n st :
  node_step executeAgent AGENT_DEFINITIONS save_outcome i n st
  = match node_try executeAgent AGENT_DEFINITIONS save_outcome i n st with
    | (s', Normal _) => (s', Normal tt)
    | (s', Throw e) => node_catch save_outcome i n e s'
    end.
Proof.
  unfold node_step, try_catchM.
  destruct (node_try _ _ _ _ _ _) as [s' [[]|e]]; reflexivity.
Qed.

(** The full run (lines 143-234): the first write, the loop, the last
    write and the answer. *)
Lemma fullRun_eq now st :
  fullRun executeAgent AGENT_DEFINITIONS save_outcome now st
  = match save_outcome (attempts st) (started now (doc st)) with
    | Throw e => (unwritten (with_doc (fun _ => started now (doc st)) st), Throw e)
    | Normal _ =>
      match for_nodes 0 (w_nodes (doc st))
              (node_step executeAgent AGENT_DEFINITIONS save_outcome) (run_start now st)
      with
      | (s2, Throw e) => (s2, Throw e)
      | (s2, Normal _) =>
        match save_outcome (attempts s2) (doc (run_end s2)) with
        | Throw e => (unwritten (run_end s2), Throw e)
        | Normal _ =>
          (written (run_end s2),
           sum ← generateExecutionSummary (results s2) (agentContext s2);
           NextResponse_json
             (RespFull (negb (Nat.eqb (length (completedNodes (w_progress (doc s2)))) 0))
                (doc (run_end s2)) (results s2) sum))
        end
      end
    end.
Proof.
  destruct_state st. unfold fullRun, run_start, run_end, started, finished_run. run_M.
  destruct (save_outcome _ _); [|reflexivity].
  match goal with |- context [for_nodes 0 ?l ?b ?s] =>
    destruct (for_nodes 0 l b s) as [s2 [[]|e]] end; [|reflexivity].
  destruct_state s2. run_M.
  match goal with
  | |- context [match save_outcome ?k ?w with _ => _ end] => destruct (save_outcome k w)
  end; [|reflexivity].
  destruct (generateExecutionSummary _ _); reflexivity.
Qed.

(** The single-node runner (lines 12-101) on a node that is found: the two
    writes may be rejected, the agent, the formatter and the snapshot may
    throw, and so may the serialization of the answer; each failure goes
    to the [catch] block. *)
Lemma executeSingleAgent_eq nodeId agentType st i n :
  find_node nodeId (w_nodes (doc st)) = Some (i, n) ->
  executeSingleAgent executeAgent save_outcome nodeId agentType st
  = let w := doc st in
    let context := singleAgentContext w nodeId in
    let kind := effectiveAgentType agentType n in
    let s1 := with_doc (touch i (set_status StRunning)) (put_context context st) in
    match save_outcome (attempts st) (touch i (set_status StRunning) w) with
    | Throw e => caught save_outcome i e (unwritten s1)
    | Normal _ =>
      let outcome := executeAgent (length (calls st)) kind context in
      let s2 := add_call (mkCall kind context outcome) (written s1) in
      match outcome with
      | Throw e => caught save_outcome i e s2
      | Normal ru =>
        let s3 := with_doc (touch i (set_result ru.1))
                    (with_doc (touch i (set_status StSuccess)) s2) in
        match formatAgentOutput kind ru.1 with
        | Throw e => caught save_outcome i e s3
        | Normal output =>
          let s4 := with_doc (touch i (set_output output)) s3 in
          match inputSnapshot context with
          | Throw e => caught save_outcome i e s4
          | Normal input =>
            let s5 := with_doc (fun w => set_analysisContext
                                           (spread (w_analysisContext w) ru.2) w)
                        (with_doc (touch i (set_input input)) s4) in
            match save_outcome (S (attempts st)) (doc s5) with
            | Throw e => caught save_outcome i e (unwritten s5)
            | Normal _ =>
              match NextResponse_json
                      (RespSingleOk ru.1
                         (set_input input
                            (set_output output
                               (set_result ru.1
                                  (set_status StSuccess
                                     (set_status StRunning (n_data n))))))
                         (kind +:+ " executed successfully")) with
              | Throw e => caught save_outcome i e (written s5)
              | Normal r => (written s5, Normal r)
              end
            end
          end
        end
      end
    end.
Proof.
  intros Hfind. destruct (find_node_Some _ _ _ _ Hfind) as [Hi _].
  destruct_state st. simpl in Hfind, Hi.
  unfold executeSingleAgent, executeSingleAgent_try, executeSingleAgent_catch, caught,
    failed_node.
  run_M. rewrite Hfind. run_M.
  pose proof (find_node_alter nodeId (set_status StRunning) _ _ _ Hfind) as F1.
  destruct (save_outcome _ _); run_M.
  2:{ rewrite F1. run_M. destruct (save_outcome _ _); reflexivity. }
  destruct (executeAgent _ _ _) as [[result updated]|e]; run_M.
  2:{ rewrite F1. run_M. destruct (save_outcome _ _); reflexivity. }
  pose proof (find_node_alter nodeId (set_status StSuccess) _ _ _ F1) as F2.
  pose proof (find_node_alter nodeId (set_result result) _ _ _ F2) as F3.
  destruct (formatAgentOutput _ _) as [output|e]; run_M.
  2:{ rewrite F3. run_M. destruct (save_outcome _ _); reflexivity. }
  pose proof (find_node_alter nodeId (set_output output) _ _ _ F3) as F4.
  destruct (inputSnapshot _) as [input|e]; run_M.
  2:{ rewrite F4. run_M. destruct (save_outcome _ _); reflexivity. }
  pose proof (find_node_alter nodeId (set_input input) _ _ _ F4) as F5.
  destruct (save_outcome _ _); run_M.
  2:{ rewrite F5. run_M. destruct (save_outcome _ _); reflexivity. }
  rewrite !list_lookup_alter_eq, Hi. cbn [fmap option_fmap option_map default on_data n_data].
  destruct (NextResponse_json _); run_M; [reflexivity|].
  rewrite F5. run_M. destruct (save_outcome _ _); reflexivity.
Qed.

Lemma executeSingleAgent_not_found nodeId agentType st :
  find_node nodeId (w_nodes (doc st)) = None ->
  executeSingleAgent executeAgent save_outcome nodeId agentType st
  = (st, Normal (RespError 404 "Node not found in workflow")).
Proof.
  intros Hfind. destruct_state st. simpl in Hfind.
  unfold executeSingleAgent, executeSingleAgent_try. run_M. rewrite Hfind. reflexivity.
Qed.

(** A request that is let in, on a workflow that is found. *)
Lemma POST_dispatch userId workflowId singleAgentId requestedAgentType findOne now st w :
  given workflowId = true ->
  findOne (default "" workflowId) userId = Some w ->
  POST executeAgent AGENT_DEFINITIONS save_outcome (Some userId) workflowId singleAgentId
    requestedAgentType findOne now st
  = try_catchM
      (if given singleAgentId
       then executeSingleAgent executeAgent save_outcome (default "" singleAgentId)
              requestedAgentType
       else fullRun executeAgent AGENT_DEFINITIONS save_outcome now)
      (fun _ => mret (RespError 500 "Failed to execute workflow"))
      (with_doc (fun _ => w) st).
Proof.
  intros Hid Hfound. unfold POST. rewrite Hid, Hfound. reflexivity.
Qed.

End Equations.

(** Every path through a turn of the loop: thirteen, by the write, the
    snapshot, the agent or the formatter that failed and by whether the
    write of the [catch] block was accepted. *)
Ltac destruct_save :=
  match goal with
  | |- context [match ?x with Normal _ => _ | Throw _ => _ end] =>
      lazymatch type of x with
      | completion unit => destruct x as [[]|?] eqn:?
      end
  end.

Ltac destruct_save_at k :=
  match goal with
  | |- context [match ?f k ?w with Normal _ => _ | Throw _ => _ end] =>
      destruct (f k w) as [[]|?] eqn:?
  end.

Ltac destruct_call st :=
  match goal with
  | |- context [match ?f (length (calls st)) ?a ?c with Normal _ => _ | Throw _ => _ end] =>
      destruct (f (length (calls st)) a c) as [[? ?]|?] eqn:?
  end.

Ltac catch_cases := rewrite node_catch_eq; destruct_save.

Ltac turn_cases st :=
  rewrite node_step_eq, node_try_eq; cbv zeta;
  destruct_save_at (attempts st);
  [ destruct (inputSnapshot _) as [?|?] eqn:?;
    [ destruct_save_at (S (attempts st));
      [ destruct_call st;
        [ cbn [fst snd];
          destruct (formatAgentOutput _ _) as [?|?] eqn:?;
          [ destruct_save_at (S (S (attempts st))); [ | catch_cases ] | catch_cases ]
        | catch_cases ]
      | catch_cases ]
    | catch_cases ]
  | catch_cases ].

(** ** One turn of the loop *)

Ltac kept_solver :=
  repeat lazymatch goal with
  | |- kept ?w ?w => apply kept_refl
  | |- kept _ (entered _ _ _) => apply kept_entered
  | |- kept _ (failed_turn _ _ _ _) => apply kept_failed_turn
  | |- kept _ (touch _ _ _) => apply kept_touch; [intros ?; split; reflexivity|]
  | |- kept _ (set_progress _ _) => apply kept_progress; [reflexivity|]
  end.

(** [related] proves the relation of a document to the one the run
    started with. *)
Ltac checkpoints_solver related :=
  repeat lazymatch goal with
  | |- checkpoints _ _ ?st ?st => apply checkpoints_refl; related
  | |- checkpoints _ _ _ (written _) => apply checkpoints_written
  | |- checkpoints _ _ _ (unwritten _) => apply checkpoints_unwritten
  | |- checkpoints _ _ _ (add_call _ _) => apply checkpoints_add_call
  | |- checkpoints _ _ _ (put_context _ _) => apply checkpoints_put_context
  | |- checkpoints _ _ _ (add_result _ _) => apply checkpoints_add_result
  | |- checkpoints _ _ _ (with_doc _ _) =>
      apply checkpoints_with_doc; [read_state; related|]
  end.

Section Turns.

Variable executeAgent : nat -> string -> value -> completion (value * value).
Variable AGENT_DEFINITIONS : string -> value.
Variable save_outcome : nat -> workflow -> completion unit.

Local Abbreviation step := (node_step executeAgent AGENT_DEFINITIONS save_outcome).

(** A turn pushes the id of its node to [completedNodes] or, with a
    message, to [errors]; to both when the write of line 203 is rejected;
    and it throws only when the write of its [catch] block is rejected. *)
Lemma node_step_progress i n st :
  let r := step i n st in
  let p := w_progress (doc st) in
  let p' := w_progress (doc r.1) in
  totalNodes p' = totalNodes p
  /\ exists cs es,
       completedNodes p' = completedNodes p ++ cs
       /\ errors p' = errors p ++ es
       /\ ((cs = [n_id n] /\ es = [] /\ r.2 = Normal tt)
           \/ ((cs = [] \/ cs = [n_id n]) /\ exists m, es = [(n_id n, m)])).
Proof.
  cbv zeta. turn_cases st; read_state;
    cbn [push_error push_completed set_currentNode completedNodes errors totalNodes];
    (split; [reflexivity|]).
  1: exists [n_id n], []; rewrite app_nil_r; auto 10.
  1-2: eexists [n_id n], [_]; eauto 10.
  all: eexists [], [_]; rewrite app_nil_r; eauto 10.
Qed.

(** A turn writes at most three checkpoints. *)
Lemma node_step_checkpoints i n st : checkpoints kept 3 st (step i n st).1.
Proof. turn_cases st; cbn [fst]; checkpoints_solver kept_solver. Qed.

(** A turn of the loop writes into the node of its own index only. *)
Lemma node_step_elsewhere i n st j :
  j <> i -> w_nodes (doc (step i n st).1) !! j = w_nodes (doc st) !! j.
Proof.
  intros Hne. turn_cases st; read_state; now rewrite !list_lookup_alter_ne by auto.
Qed.

(** A turn makes at most one invocation, with the context the loop
    carries; the loop goes on with what [next_context] says; and
    [results] grows exactly when the invocation returned. *)
Lemma node_step_trace i n st :
  let r := step i n st in
  (calls r.1 = calls st /\ agentContext r.1 = agentContext st
   /\ results r.1 = results st)
  \/ (exists c,
       calls r.1 = calls st ++ [c]
       /\ c_context c = agentContext st
       /\ c_agentType c = d_agentType (n_data n)
       /\ c_outcome c = executeAgent (length (calls st)) (c_agentType c) (c_context c)
       /\ agentContext r.1 = next_context c
       /\ length (results r.1)
          = (length (results st) + if succeeded c then 1 else 0)%nat).
Proof.
  cbv zeta. turn_cases st; read_state; try (left; repeat split; reflexivity);
    right; (eexists; split; [reflexivity|]);
    unfold next_context, succeeded; cbn [c_context c_agentType c_outcome fst snd];
    rewrite ?length_app; cbn [length]; repeat split; auto; lia.
Qed.

(** The node of the turn ends with the status 'success' or 'error'. *)
Lemma node_step_status i n st :
  w_nodes (doc st) !! i = Some n ->
  let r := step i n st in
  let p := w_progress (doc st) in
  let p' := w_progress (doc r.1) in
  exists n',
    w_nodes (doc r.1) !! i = Some n'
    /\ n_id n' = n_id n
    /\ drop (S i) (w_nodes (doc r.1)) = drop (S i) (w_nodes (doc st))
    /\ ((d_status (n_data n') = StSuccess /\ r.2 = Normal tt
         /\ completedNodes p' = completedNodes p ++ [n_id n] /\ errors p' = errors p)
        \/ (d_status (n_data n') = StError
            /\ (completedNodes p' = completedNodes p
                \/ completedNodes p' = completedNodes p ++ [n_id n])
            /\ exists m, errors p' = errors p ++ [(n_id n, m)])).
Proof.
  intros Hi. cbv zeta. turn_cases st; read_state;
    rewrite !list_lookup_alter_eq, Hi, !drop_alter_lt by lia;
    cbn [push_error push_completed set_currentNode completedNodes errors];
    (eexists; split; [reflexivity|]; split; [reflexivity|]; split; [reflexivity|]).
  1: left; repeat split; reflexivity.
  all: right; (split; [reflexivity|]); (split; [|eexists; reflexivity]); auto.
Qed.

Lemma node_step_in_order i n st :
  in_order [d_agentType (n_data n)] [n_id n] st (step i n st).1.
Proof.
  turn_cases st; unfold in_order; read_state;
    cbn [push_error push_completed set_currentNode completedNodes];
    first
      [ solve [ exists [], [], []; rewrite !app_nil_r;
                repeat split; auto; try constructor; apply sublist_nil_l ]
      | solve [ eexists [_], [], []; rewrite !app_nil_r;
                (split; [reflexivity|]);
                repeat split; auto; try constructor; try apply sublist_nil_l; eauto ]
      | solve [ eexists [_], [_], []; rewrite !app_nil_r;
                (split; [reflexivity|]); (split; [reflexivity|]);
                repeat split; auto; try constructor; try apply sublist_nil_l; eauto ]
      | solve [ eexists [_], [_], [_];
                (split; [reflexivity|]); (split; [reflexivity|]); (split; [reflexivity|]);
                repeat split; auto; try constructor; eauto ] ].
Qed.

(** *** A turn whose writes are accepted *)

(** Every path through such a turn: the snapshot throws, the agent throws,
    the formatter throws, or the turn completes. *)
Lemma node_step_accepted i n st :
  accepts save_outcome ->
  step i n st
  = let context := agentContext st in
    let kind := d_agentType (n_data n) in
    let s1 := written (with_doc (entered i n) st) in
    match inputSnapshot context with
    | Throw e => (written (with_doc (failed_turn i n e) s1), Normal tt)
    | Normal input =>
        let s2 := written (with_doc (touch i (set_input input)) s1) in
        let outcome := executeAgent (length (calls st)) kind context in
        let s3 := add_call (mkCall kind context outcome) s2 in
        match outcome with
        | Throw e => (written (with_doc (failed_turn i n e) s3), Normal tt)
        | Normal ru =>
            let entry := mkResult (n_id n) kind
                           (or_else (opt_get (AGENT_DEFINITIONS kind) "name")
                                    (d_label (n_data n))) ru.1 in
            let s4 := with_doc (touch i (set_result ru.1))
                        (with_doc (touch i (set_status StSuccess))
                           (add_result entry (put_context ru.2 s3))) in
            match formatAgentOutput kind ru.1 with
            | Throw e => (written (with_doc (failed_turn i n e) s4), Normal tt)
            | Normal output =>
                (written
                   (with_doc (fun w => set_progress
                                         (push_completed (n_id n) (w_progress w))
                                         (touch i (set_output output) w)) s4),
                 Normal tt)
            end
        end
    end.
Proof.
  intros Hacc. unfold accepts in Hacc.
  rewrite node_step_eq, node_try_eq. cbv zeta. rewrite Hacc.
  destruct (inputSnapshot _) as [input|e]; [|now rewrite node_catch_eq, Hacc].
  rewrite Hacc.
  destruct (executeAgent _ _ _) as [[r u]|e]; [|now rewrite node_catch_eq, Hacc].
  cbn [fst snd].
  destruct (formatAgentOutput _ _) as [out|e]; [|now rewrite node_catch_eq, Hacc].
  now rewrite Hacc.
Qed.

End Turns.

(** The four paths of a turn whose writes are accepted. *)
Ltac accepted_cases H st :=
  rewrite (node_step_accepted _ _ _ _ _ st H); cbv zeta;
  destruct (inputSnapshot _) as [?|?] eqn:?;
  [ destruct_call st;
    [ cbn [fst snd]; destruct (formatAgentOutput _ _) as [?|?] eqn:? | ]
  | ].

(** ** The loop *)

Section Loop.

Variable executeAgent : nat -> string -> value -> completion (value * value).
Variable AGENT_DEFINITIONS : string -> value.
Variable save_outcome : nat -> workflow -> completion unit.

Local Abbreviation step := (node_step executeAgent AGENT_DEFINITIONS save_outcome).

(** The loop stops at the first turn that throws, that is, at the first
    turn whose [catch] block has its write rejected. *)
Lemma loop_checkpoints l : forall i st,
  checkpoints kept (3 * length l) st (for_nodes i l step st).1.
Proof.
  induction l as [|n l IH]; intros i st.
  - apply checkpoints_refl, kept_refl.
  - rewrite for_nodes_cons.
    pose proof (node_step_checkpoints executeAgent AGENT_DEFINITIONS save_outcome i n st)
      as H.
    destruct (step i n st) as [s' [[]|e]]; cbn [fst] in *.
    + eapply checkpoints_more; [|eapply checkpoints_trans; [exact H|apply (IH (S i))]].
      cbn [length]. lia.
    + eapply checkpoints_more; [|exact H]. cbn [length]. lia.
Qed.

Lemma loop_elsewhere l : forall i st j,
  (j < i \/ i + length l <= j)%nat ->
  w_nodes (doc (for_nodes i l step st).1) !! j = w_nodes (doc st) !! j.
Proof.
  induction l as [|n l IH]; intros i st j Hj; [reflexivity|].
  rewrite for_nodes_cons.
  pose proof (node_step_elsewhere executeAgent AGENT_DEFINITIONS save_outcome i n st j)
    as He.
  cbn [length] in Hj.
  destruct (step i n st) as [s' [[]|e]]; cbn [fst] in *.
  - rewrite IH by lia. apply He. lia.
  - apply He. lia.
Qed.

Lemma loop_trace l : forall i st,
  let r := for_nodes i l step st in
  exists trace,
    calls r.1 = calls st ++ trace
    /\ chained (agentContext st) trace
    /\ answered executeAgent (length (calls st)) trace
    /\ agentContext r.1 = final_context (agentContext st) trace
    /\ length (results r.1)
       = (length (results st) + length (List.filter succeeded trace))%nat.
Proof.
  induction l as [|n l IH]; intros i st; cbv zeta.
  - exists []. simpl. rewrite app_nil_r. repeat split; auto.
  - rewrite for_nodes_cons.
    pose proof (node_step_trace executeAgent AGENT_DEFINITIONS save_outcome i n st) as Ht.
    cbv zeta in Ht.
    destruct (step i n st) as [s' [[]|e]]; cbn [fst] in *.
    + specialize (IH (S i) s'). cbv zeta in IH.
      destruct IH as (tr & IHc & IHch & IHan & IHf & IHr).
      destruct Ht as [(Hc & Ha & Hr)|(c & Hc & Hx & _ & Han & Ha & Hr)].
      * exists tr. rewrite IHc, IHf, IHr, Hc, Ha, Hr. rewrite <- Ha, <- Hc. auto.
      * exists (c :: tr). rewrite IHc, IHf, IHr, Hc, Ha, Hr. rewrite <- app_assoc.
        simpl. rewrite <- Ha.
        rewrite Hc, length_app in IHan. simpl in IHan.
        replace (length (calls st) + 1)%nat with (S (length (calls st))) in IHan by lia.
        repeat split; auto. destruct (succeeded c); simpl; lia.
    + destruct Ht as [(Hc & Ha & Hr)|(c & Hc & Hx & _ & Han & Ha & Hr)].
      * exists []. rewrite Hc, Ha, Hr, app_nil_r. simpl. repeat split; auto.
      * exists [c]. rewrite Hc, Ha, Hr. simpl.
        repeat split; auto. destruct (succeeded c); simpl; lia.
Qed.

Lemma loop_in_order l : forall i st,
  in_order (map (fun n => d_agentType (n_data n)) l) (map n_id l) st
    (for_nodes i l step st).1.
Proof.
  induction l as [|n l IH]; intros i st.
  - apply in_order_refl.
  - rewrite for_nodes_cons.
    pose proof (node_step_in_order executeAgent AGENT_DEFINITIONS save_outcome i n st)
      as Ho.
    destruct (step i n st) as [s' [[]|e]]; cbn [fst] in *.
    + apply (in_order_trans [_] _ [_] _ _ _ _ Ho (IH (S i) s')).
    + apply (in_order_more [_] _ [_] _ _ _ Ho).
Qed.

(** When the loop has taken every turn, every node has the status
    'success' or 'error'; the ids in [errors] are those of the nodes with
    status 'error'; and [completedNodes] holds the ids of the nodes with
    status 'success', and may hold ids of nodes with status 'error'. *)
Lemma loop_status l : forall i st,
  drop i (w_nodes (doc st)) = l ->
  let r := for_nodes i l step st in
  r.2 = Normal tt ->
  let p := w_progress (doc st) in
  let p' := w_progress (doc r.1) in
  let turned := drop i (w_nodes (doc r.1)) in
  map n_id turned = map n_id l
  /\ forallb (fun n => status_is StSuccess n || status_is StError n) turned = true
  /\ map fst (errors p')
     = map fst (errors p) ++ map n_id (List.filter (status_is StError) turned)
  /\ exists cs,
       completedNodes p' = completedNodes p ++ cs
       /\ map n_id (List.filter (status_is StSuccess) turned) `sublist_of` cs
       /\ cs `sublist_of` map n_id turned.
Proof.
  induction l as [|n l IH]; intros i st Hd; cbv zeta.
  - intros _. simpl. rewrite Hd. simpl. rewrite !app_nil_r.
    repeat split; auto. exists []. rewrite app_nil_r. repeat split; auto; constructor.
  - rewrite for_nodes_cons.
    apply drop_cons_inv in Hd as [Hi Hd].
    pose proof (node_step_status executeAgent AGENT_DEFINITIONS save_outcome i n st Hi)
      as Hs. cbv zeta in Hs.
    pose proof (loop_elsewhere l (S i) (step i n st).1 i) as He.
    destruct (step i n st) as [s' [[]|e]]; cbn [fst snd] in *; [|discriminate].
    intros Hr.
    destruct Hs as (n' & Hi' & Hid & Hdrop & Hp).
    rewrite Hd in Hdrop. specialize (IH (S i) s' Hdrop). cbv zeta in IH.
    destruct (IH Hr) as (I1 & I2 & I3 & cs & I4 & I5 & I6).
    rewrite I1 in I6. rewrite Hi' in He. specialize (He (or_introl (Nat.lt_succ_diag_r i))).
    rewrite (drop_S _ _ _ He). cbn [map forallb List.filter].
    rewrite I1, I2, I3, I4, Hid.
    destruct Hp as [(Hst & _ & -> & ->)|(Hst & Hc & m & ->)];
      (assert (S1 : status_is StSuccess n' = negb (status_is StError n'))
         by (unfold status_is; rewrite Hst; reflexivity));
      (assert (S2 : status_is StError n' = _)
         by (unfold status_is; rewrite Hst; reflexivity));
      rewrite S1, S2; cbn [negb orb andb map];
      rewrite ?map_app, <- ?app_assoc; cbn [map fst app]; rewrite ?Hid.
    + repeat split; auto. exists (n_id n :: cs).
      split; [reflexivity|]. split; [now apply sublist_skip|now apply sublist_skip].
    + repeat split; auto. destruct Hc as [->| ->].
      * exists cs. split; [reflexivity|]. split; [exact I5|now apply sublist_cons].
      * exists (n_id n :: cs). rewrite <- app_assoc.
        split; [reflexivity|]. split; [now apply sublist_cons|now apply sublist_skip].
Qed.

(** *** The loop when every write is accepted *)

Hypothesis accepted : accepts save_outcome.

(** With every write accepted, a turn does not throw, writes two or three
    checkpoints and moves the id of its node either to [completedNodes]
    or, with a message, to [errors]. *)
Lemma node_step_accounting i n st :
  let r := step i n st in
  let p := w_progress (doc st) in
  let p' := w_progress (doc r.1) in
  r.2 = Normal tt
  /\ (exists new, saved r.1 = saved st ++ new /\ (2 <= length new)%nat)
  /\ ((completedNodes p' = completedNodes p ++ [n_id n] /\ errors p' = errors p)
      \/ (completedNodes p' = completedNodes p
          /\ exists m, errors p' = errors p ++ [(n_id n, m)])).
Proof.
  cbv zeta. accepted_cases accepted st; read_state;
    cbn [push_error push_completed set_currentNode completedNodes errors];
    rewrite <- ?app_assoc;
    (split; [reflexivity|]);
    (split; [eexists; split; [reflexivity|]; cbn [length app]; lia|]);
    eauto 8.
Qed.

Lemma loop_accounting l : forall i st,
  let r := for_nodes i l step st in
  let p := w_progress (doc st) in
  let p' := w_progress (doc r.1) in
  r.2 = Normal tt
  /\ (exists new, saved r.1 = saved st ++ new /\ (2 * length l <= length new)%nat)
  /\ (length (completedNodes p') + length (errors p')
      = length (completedNodes p) + length (errors p) + length l)%nat.
Proof.
  induction l as [|n l IH]; intros i st; cbv zeta.
  - simpl. split; [reflexivity|]. split; [|lia].
    exists []. rewrite app_nil_r. split; [reflexivity|]. simpl. lia.
  - rewrite for_nodes_cons.
    pose proof (node_step_accounting i n st) as H. cbv zeta in H.
    destruct (step i n st) as [s' c]. cbn [fst snd] in H.
    destruct H as (-> & (new & Hs & Hl) & Hp).
    specialize (IH (S i) s'). cbv zeta in IH.
    destruct IH as (IH1 & (new' & Hs' & Hl') & IH3).
    split; [exact IH1|]. split.
    + exists (new ++ new'). rewrite Hs', Hs, <- app_assoc. split; [reflexivity|].
      rewrite length_app. cbn [length]. lia.
    + rewrite IH3.
      destruct Hp as [[-> ->]|[-> [m ->]]]; rewrite length_app; cbn [length]; lia.
Qed.

(** The node of a turn ends with the status 'success' and its id in
    [completedNodes], or with the status 'error' and its id in
    [errors]. *)
Lemma node_step_status_accepted i n st :
  w_nodes (doc st) !! i = Some n ->
  let r := step i n st in
  let p := w_progress (doc st) in
  let p' := w_progress (doc r.1) in
  exists n',
    w_nodes (doc r.1) !! i = Some n'
    /\ (d_status (n_data n') = StSuccess
        /\ completedNodes p' = completedNodes p ++ [n_id n]
        \/ d_status (n_data n') = StError /\ completedNodes p' = completedNodes p).
Proof.
  intros Hi. cbv zeta. accepted_cases accepted st; read_state;
    rewrite !list_lookup_alter_eq, Hi;
    cbn [push_error push_completed set_currentNode completedNodes errors];
    (eexists; split; [reflexivity|]); auto.
Qed.

Lemma loop_status_accepted l : forall i st,
  drop i (w_nodes (doc st)) = l ->
  let r := for_nodes i l step st in
  completedNodes (w_progress (doc r.1))
  = completedNodes (w_progress (doc st))
    ++ map n_id (List.filter (status_is StSuccess) (drop i (w_nodes (doc r.1)))).
Proof.
  induction l as [|n l IH]; intros i st Hd; cbv zeta.
  - simpl. rewrite Hd. simpl. now rewrite app_nil_r.
  - rewrite for_nodes_cons.
    apply drop_cons_inv in Hd as [Hi Hd].
    pose proof (node_step_accounting i n st) as Hn. cbv zeta in Hn.
    destruct Hn as (Hn & _).
    pose proof (node_step_status executeAgent AGENT_DEFINITIONS save_outcome i n st Hi)
      as Hs. cbv zeta in Hs.
    pose proof (node_step_status_accepted i n st Hi) as Ha. cbv zeta in Ha.
    pose proof (loop_elsewhere l (S i) (step i n st).1 i) as He.
    destruct (step i n st) as [s' c]. cbn [fst snd] in *. subst c.
    destruct Hs as (n' & Hi' & Hid & Hdrop & _).
    destruct Ha as (n'' & Hi'' & Hp). rewrite Hi' in Hi''. injection Hi'' as <-.
    rewrite Hd in Hdrop. specialize (IH (S i) s' Hdrop). cbv zeta in IH.
    rewrite Hi' in He. specialize (He (or_introl (Nat.lt_succ_diag_r i))).
    rewrite (drop_S _ _ _ He). cbn [map List.filter]. rewrite IH.
    destruct Hp as [[Hst ->]|[Hst ->]];
      (assert (S1 : status_is StSuccess n' = _)
         by (unfold status_is; rewrite Hst; reflexivity));
      rewrite S1; cbn [map]; rewrite <- ?app_assoc, ?Hid; reflexivity.
Qed.

(** A turn on a context whose snapshot can be taken invokes the agent. *)
Lemma node_step_invokes i n st snap :
  inputSnapshot (agentContext st) = Normal snap ->
  let r := step i n st in
  let c := mkCall (d_agentType (n_data n)) (agentContext st)
             (executeAgent (length (calls st)) (d_agentType (n_data n)) (agentContext st)) in
  calls r.1 = calls st ++ [c] /\ agentContext r.1 = next_context c.
Proof.
  intros Hs. cbv zeta. unfold next_context. cbn [c_outcome c_context].
  rewrite (node_step_accepted _ _ _ i n st accepted). cbv zeta. rewrite Hs.
  destruct (executeAgent _ _ _) as [[r u]|e]; [|read_state; auto].
  cbn [fst snd]. destruct (formatAgentOutput _ _); read_state; auto.
Qed.

Lemma loop_invokes l : forall i st,
  (exists snap, inputSnapshot (agentContext st) = Normal snap) ->
  (forall k kind context ru,
      (exists snap, inputSnapshot context = Normal snap) ->
      executeAgent k kind context = Normal ru ->
      exists snap, inputSnapshot ru.2 = Normal snap) ->
  let r := for_nodes i l step st in
  exists trace,
    calls r.1 = calls st ++ trace
    /\ map c_agentType trace = map (fun n => d_agentType (n_data n)) l.
Proof.
  induction l as [|n l IH]; intros i st Hs Hagent; cbv zeta.
  - exists []. now rewrite app_nil_r.
  - rewrite for_nodes_cons.
    pose proof (node_step_accounting i n st) as Hn. cbv zeta in Hn. destruct Hn as (Hn & _).
    destruct Hs as [snap Hs].
    pose proof (node_step_invokes i n st snap Hs) as Hi. cbv zeta in Hi.
    destruct (step i n st) as [s' c]. cbn [fst snd] in *. subst c.
    destruct Hi as (Hc & Ha).
    assert (Hs' : exists snap', inputSnapshot (agentContext s') = Normal snap').
    { rewrite Ha. unfold next_context. cbn [c_outcome c_context].
      destruct (executeAgent _ _ _) as [ru|e] eqn:E; eauto. }
    destruct (IH (S i) s' Hs' Hagent) as (tr & T1 & T2).
    eexists (_ :: tr). rewrite T1, Hc, <- app_assoc. split; [reflexivity|].
    cbn [map c_agentType]. now rewrite T2.
Qed.

(** Two turns from states with equal local variables and progress do the
    same. *)
Lemma node_step_fresh i n1 n2 s1 s2 :
  identity n1 = identity n2 ->
  same_run s1 s2 ->
  let r1 := step i n1 s1 in
  let r2 := step i n2 s2 in
  same_run r1.1 r2.1
  /\ exists trace, calls r1.1 = calls s1 ++ trace /\ calls r2.1 = calls s2 ++ trace.
Proof.
  intros Hid (Hctx & Hlen & Hres & Hp). injection Hid as Hid Hkind Hlabel.
  cbv zeta.
  rewrite (node_step_accepted _ _ _ i n1 s1 accepted),
          (node_step_accepted _ _ _ i n2 s2 accepted). cbv zeta.
  rewrite <- Hid, <- Hkind, <- Hlabel, <- Hctx, <- Hlen.
  unfold same_run.
  destruct (inputSnapshot _) as [snap|e].
  2:{ read_state. rewrite Hp, Hlen, Hres, <- ?Hid. repeat split; auto.
      exists []. now rewrite !app_nil_r. }
  destruct (executeAgent _ _ _) as [[r u]|e].
  2:{ read_state. rewrite Hp, !length_app, Hlen, Hres, <- ?Hid.
      repeat split; auto. eauto. }
  cbn [fst snd].
  destruct (formatAgentOutput _ _) as [out|e]; read_state;
    rewrite Hp, !length_app, Hlen, Hres, <- ?Hid; repeat split; eauto.
Qed.

Lemma loop_fresh l1 : forall l2 i s1 s2,
  map identity l1 = map identity l2 ->
  same_run s1 s2 ->
  let r1 := for_nodes i l1 step s1 in
  let r2 := for_nodes i l2 step s2 in
  same_run r1.1 r2.1
  /\ exists trace, calls r1.1 = calls s1 ++ trace /\ calls r2.1 = calls s2 ++ trace.
Proof.
  induction l1 as [|n1 l1 IH]; intros [|n2 l2] i s1 s2 Hl Hs; try discriminate; cbv zeta.
  - split; [exact Hs|]. exists []. now rewrite !app_nil_r.
  - apply map_cons_inv in Hl as [Hn Hl]. rewrite !for_nodes_cons.
    pose proof (node_step_accounting i n1 s1) as P1.
    pose proof (node_step_accounting i n2 s2) as P2.
    cbv zeta in P1, P2. destruct P1 as (P1 & _). destruct P2 as (P2 & _).
    pose proof (node_step_fresh i n1 n2 s1 s2 Hn Hs) as F. cbv zeta in F.
    destruct (step i n1 s1) as [s1' c1].
    destruct (step i n2 s2) as [s2' c2].
    cbn [fst snd] in *. subst c1 c2.
    destruct F as (F & tr & T1 & T2).
    destruct (IH l2 (S i) s1' s2' Hl F) as (F' & tr' & T1' & T2').
    split; [exact F'|]. exists (tr ++ tr'). rewrite T1', T2', T1, T2, <- !app_assoc. auto.
Qed.

End Loop.

(** ** The full run *)

Lemma map_identity_ids l k : map identity l = map identity k -> map n_id l = map n_id k.
Proof.
  intros H. apply (f_equal (map (fun x : string * string * value => x.1.1))) in H.
  rewrite !map_map in H. exact H.
Qed.

Lemma run_start_doc now st : doc (run_start now st) = started now (doc st).
Proof. reflexivity. Qed.

Lemma run_start_calls now st : calls (run_start now st) = calls st.
Proof. reflexivity. Qed.

Lemma run_start_context now st : agentContext (run_start now st) = initialContext (doc st).
Proof. reflexivity. Qed.

Lemma run_start_results now st : results (run_start now st) = [].
Proof. reflexivity. Qed.

Lemma run_start_saved now st :
  saved (run_start now st) = saved st ++ [started now (doc st)].
Proof. reflexivity. Qed.

Lemma run_start_progress now st :
  w_progress (doc (run_start now st))
  = mkProgress (n_id <$> head (w_nodes (doc st))) [] (length (w_nodes (doc st))) [].
Proof. reflexivity. Qed.

Lemma run_end_doc s : doc (run_end s) = finished_run (agentContext s) (doc s).
Proof. reflexivity. Qed.

(** What [kept] gives for the checkpoints of a run that started at [now]. *)
Lemma kept_started now w0 w :
  kept (started now w0) w ->
  w_status w = WfRunning
  /\ w_lastRun w = Some now
  /\ totalNodes (w_progress w) = length (w_nodes w0)
  /\ w_analysisContext w = w_analysisContext w0
  /\ w_brief w = w_brief w0
  /\ w_inputs w = w_inputs w0
  /\ map identity (w_nodes w) = map identity (w_nodes w0).
Proof. intros (A1 & A2 & A3 & A4 & A5 & A6 & A7). simpl in *. auto 10. Qed.

Section FullRun.

Variable executeAgent : nat -> string -> value -> completion (value * value).
Variable AGENT_DEFINITIONS : string -> value.
Variable save_outcome : nat -> workflow -> completion unit.

Local Abbreviation looped now st :=
  (for_nodes 0 (w_nodes (doc st))
     (node_step executeAgent AGENT_DEFINITIONS save_outcome) (run_start now st)).

(** The four ways a full run ends: its first write is rejected; the loop
    is left by a rejected write of a [catch] block; the last write is
    rejected; or the run comes to its answer. *)
Lemma fullRun_paths now st :
  (exists e,
      save_outcome (attempts st) (started now (doc st)) = Throw e
      /\ fullRun executeAgent AGENT_DEFINITIONS save_outcome now st
         = (unwritten (with_doc (fun _ => started now (doc st)) st), Throw e))
  \/ (exists e,
         (looped now st).2 = Throw e
         /\ fullRun executeAgent AGENT_DEFINITIONS save_outcome now st
            = ((looped now st).1, Throw e))
  \/ ((looped now st).2 = Normal tt
      /\ ((exists e,
              save_outcome (attempts (looped now st).1) (doc (run_end (looped now st).1))
              = Throw e
              /\ fullRun executeAgent AGENT_DEFINITIONS save_outcome now st
                 = (unwritten (run_end (looped now st).1), Throw e))
          \/ fullRun executeAgent AGENT_DEFINITIONS save_outcome now st
             = (written (run_end (looped now st).1),
                sum ← generateExecutionSummary (results (looped now st).1)
                        (agentContext (looped now st).1);
                NextResponse_json
                  (RespFull
                     (negb (Nat.eqb (length (completedNodes
                                               (w_progress (doc (looped now st).1)))) 0))
                     (doc (run_end (looped now st).1)) (results (looped now st).1) sum)))).
Proof.
  rewrite fullRun_eq. destruct_save_at (attempts st); [|left; eauto].
  right. destruct (looped now st) as [s2 [[]|e]]; cbn [fst snd]; [|left; eauto].
  right. split; [reflexivity|]. destruct_save; [right; reflexivity|left; eauto].
Qed.

(** A full run whose writes are all accepted comes to its answer. *)
Lemma fullRun_accepted now st :
  accepts save_outcome ->
  (looped now st).2 = Normal tt
  /\ fullRun executeAgent AGENT_DEFINITIONS save_outcome now st
     = (written (run_end (looped now st).1),
        sum ← generateExecutionSummary (results (looped now st).1)
                (agentContext (looped now st).1);
        NextResponse_json
          (RespFull
             (negb (Nat.eqb (length (completedNodes (w_progress (doc (looped now st).1)))) 0))
             (doc (run_end (looped now st).1)) (results (looped now st).1) sum)).
Proof.
  intros Hacc.
  destruct (loop_accounting executeAgent AGENT_DEFINITIONS save_outcome Hacc
              (w_nodes (doc st)) 0 (run_start now st)) as (Hl & _).
  split; [exact Hl|].
  rewrite fullRun_eq, Hacc.
  destruct (looped now st) as [s2 [[]|e]]; [|discriminate].
  cbn [fst snd]. now rewrite Hacc.
Qed.

(** Until a full run has come to line 221 the status of its document is
    'running'; from then on it is one of the three final ones. *)
Lemma fullRun_status now st :
  let r := fullRun executeAgent AGENT_DEFINITIONS save_outcome now st in
  (w_status (doc r.1) = WfRunning /\ exists e, r.2 = Throw e)
  \/ ((looped now st).2 = Normal tt
      /\ doc r.1 = doc (run_end (looped now st).1)
      /\ w_status (doc r.1) <> WfRunning).
Proof.
  cbv zeta.
  pose proof (loop_checkpoints executeAgent AGENT_DEFINITIONS save_outcome
                (w_nodes (doc st)) 0 (run_start now st)) as (K & _).
  rewrite run_start_doc in K. apply kept_started in K. destruct K as (K & _).
  destruct (fullRun_paths now st) as [(e & _ & ->)|[(e & _ & ->)|(Hl & [(e & _ & ->)| ->])]];
    cbn [fst snd].
  - left. split; [reflexivity|eauto].
  - left. split; [exact K|eauto].
  - right. split; [exact Hl|]. split; [reflexivity|].
    cbn [doc unwritten]. rewrite run_end_doc. cbn [w_status finished_run set_analysisContext
      set_progress set_w_status]. unfold final_status.
    destruct (Nat.eqb _ _); [discriminate|]. destruct (Nat.ltb _ _); discriminate.
  - right. split; [exact Hl|]. split; [reflexivity|].
    cbn [doc written]. rewrite run_end_doc. cbn [w_status finished_run set_analysisContext
      set_progress set_w_status]. unfold final_status.
    destruct (Nat.eqb _ _); [discriminate|]. destruct (Nat.ltb _ _); discriminate.
Qed.

(** *** The trace of invocations *)

(** The invocations of a full run start from the initial context and are
    chained, each on a context whose snapshot could be taken. *)
Lemma fullRun_trace now st :
  let after := (fullRun executeAgent AGENT_DEFINITIONS save_outcome now st).1 in
  let trace := new_calls st after in
  calls after = calls st ++ trace
  /\ chained (initialContext (doc st)) trace
  /\ answered executeAgent (length (calls st)) trace
  /\ Forall (fun c => exists snap, inputSnapshot (c_context c) = Normal snap) trace
  /\ (trace <> [] -> agentContext after = final_context (initialContext (doc st)) trace)
  /\ (w_status (doc after) <> WfRunning ->
        w_analysisContext (doc after) = final_context (initialContext (doc st)) trace
        /\ agentContext after = final_context (initialContext (doc st)) trace
        /\ length (results after) = length (List.filter succeeded trace)).
Proof.
  cbv zeta.
  destruct (loop_trace executeAgent AGENT_DEFINITIONS save_outcome
              (w_nodes (doc st)) 0 (run_start now st)) as (tr & Lc & Lch & Lan & Lf & Lr).
  destruct (loop_in_order executeAgent AGENT_DEFINITIONS save_outcome
              (w_nodes (doc st)) 0 (run_start now st))
    as (tr' & rs & cs & L1 & _ & _ & _ & _ & _ & _ & L8).
  rewrite Lc in L1. apply app_inv_head in L1. subst tr'.
  pose proof (fullRun_status now st) as Hst. cbv zeta in Hst.
  rewrite ?run_start_calls, ?run_start_context, ?run_start_results in Lc, Lch, Lan, Lf, Lr.
  destruct (fullRun_paths now st) as [(e & _ & Hr)|[(e & Hl & Hr)|(Hl & [(e & _ & Hr)| Hr])]];
    rewrite Hr in *; cbn [fst snd] in *; unfold new_calls.
  - cbn [calls unwritten with_doc doc]. rewrite drop_all, app_nil_r.
    split; [reflexivity|]. split; [exact I|]. split; [exact I|].
    split; [apply List.Forall_nil|]. split; [congruence|].
    intros Hn. exfalso. apply Hn. reflexivity.
  - rewrite Lc, drop_app_own.
    split; [reflexivity|]. split; [exact Lch|]. split; [exact Lan|]. split; [exact L8|].
    split; [intros _; exact Lf|]. intros Hn. exfalso.
    destruct Hst as [[Hs _]|(Hl' & _)]; [contradiction|]. rewrite Hl in Hl'. discriminate.
  - unfold run_end.
    cbn [calls unwritten with_doc agentContext results doc finished_run w_analysisContext
         set_analysisContext].
    rewrite Lc, drop_app_own.
    split; [reflexivity|]. split; [exact Lch|]. split; [exact Lan|]. split; [exact L8|].
    split; [intros _; exact Lf|]. intros _. rewrite Lr. cbn [length]. auto.
  - unfold run_end.
    cbn [calls written with_doc agentContext results doc finished_run w_analysisContext
         set_analysisContext].
    rewrite Lc, drop_app_own.
    split; [reflexivity|]. split; [exact Lch|]. split; [exact Lan|]. split; [exact L8|].
    split; [intros _; exact Lf|]. intros _. rewrite Lr. cbn [length]. auto.
Qed.

(** C2.  When an invocation of the full run fails, the rest of the run
    carries on from the very context that was handed to the failed node:
    the next invocation receives that same context, so the failed node's
    agent kind is recorded in the previousResults of the next node only if
    it already was in the previousResults the failed node itself
    received. *)
Theorem C2_failed_invocation_keeps_context now st k c c' e :
  let trace := new_calls st (fullRun executeAgent AGENT_DEFINITIONS save_outcome now st).1 in
  trace !! k = Some c ->
  trace !! S k = Some c' ->
  c_outcome c = Throw e ->
  c_context c' = c_context c
  /\ chained (c_context c) (drop (S k) trace)
  /\ (recorded (c_agentType c) (c_context c') -> recorded (c_agentType c) (c_context c)).
Proof.
  cbv zeta. intros Hk Hk' He.
  destruct (fullRun_trace now st) as (_ & Hch & _).
  pose proof (chained_drop _ _ _ _ Hch Hk) as Hd.
  unfold next_context in Hd. rewrite He in Hd.
  assert (Hc : c_context c' = c_context c).
  { rewrite (drop_S _ _ _ Hk') in Hd. now destruct Hd. }
  repeat split; auto. now rewrite Hc.
Qed.

End FullRun.

(** *** What a full run leaves behind *)

Section FullRunProperties.

Variable executeAgent : nat -> string -> value -> completion (value * value).
Variable AGENT_DEFINITIONS : string -> value.
Variable save_outcome : nat -> workflow -> completion unit.

Local Abbreviation looped now st :=
  (for_nodes 0 (w_nodes (doc st))
     (node_step executeAgent AGENT_DEFINITIONS save_outcome) (run_start now st)).

(** A full run that answers, answers with its report; the run has then
    taken every turn and written its last checkpoint. *)
Lemma fullRun_report now st resp :
  (fullRun executeAgent AGENT_DEFINITIONS save_outcome now st).2 = Normal resp ->
  let l := (looped now st).1 in
  exists sum,
    (looped now st).2 = Normal tt
    /\ (fullRun executeAgent AGENT_DEFINITIONS save_outcome now st).1 = written (run_end l)
    /\ generateExecutionSummary (results l) (agentContext l) = Normal sum
    /\ resp = RespFull (negb (Nat.eqb (length (completedNodes (w_progress (doc l)))) 0))
                (doc (run_end l)) (results l) sum.
Proof.
  intros H. cbv zeta.
  destruct (fullRun_paths executeAgent AGENT_DEFINITIONS save_outcome now st)
    as [(e & _ & Hr)|[(e & _ & Hr)|(Hl & [(e & _ & Hr)| Hr])]];
    rewrite Hr in *; cbn [fst snd] in *; try discriminate.
  destruct (generateExecutionSummary _ _) as [sum|e] eqn:E;
    cbn [mbind completion_bind] in H; [|discriminate].
  apply NextResponse_json_Normal in H. exists sum. auto.
Qed.

(** *** Accounting *)

(** When every write is accepted, every node is counted once. *)
Lemma fullRun_accounting now st :
  accepts save_outcome ->
  let after := (fullRun executeAgent AGENT_DEFINITIONS save_outcome now st).1 in
  let p := w_progress (doc after) in
  (length (completedNodes p) + length (errors p) = length (w_nodes (doc st)))%nat
  /\ totalNodes p = length (w_nodes (doc st))
  /\ currentNode p = None
  /\ w_status (doc after) = final_status p
  /\ last (saved after) = Some (doc after).
Proof.
  intros Hacc. cbv zeta.
  destruct (fullRun_accepted executeAgent AGENT_DEFINITIONS save_outcome now st Hacc)
    as (_ & ->).
  destruct (loop_accounting executeAgent AGENT_DEFINITIONS save_outcome Hacc
              (w_nodes (doc st)) 0 (run_start now st)) as (_ & _ & Ln).
  pose proof (loop_checkpoints executeAgent AGENT_DEFINITIONS save_outcome
                (w_nodes (doc st)) 0 (run_start now st)) as (K & _).
  rewrite run_start_doc in K. apply kept_started in K. destruct K as (_ & _ & Kt & _).
  rewrite run_start_progress in Ln. cbn [completedNodes errors length] in Ln.
  cbn [fst doc saved written]. rewrite last_snoc_own, run_end_doc.
  cbn [w_progress w_status finished_run set_analysisContext set_progress set_w_status
       completedNodes errors totalNodes currentNode set_currentNode].
  repeat split; auto.
Qed.

(** *** The execution summary *)

(** A story context without genre and a knowledge graph without characters
    are summarised with "undefined" and 0. *)
Example generateExecutionSummary_partial :
  generateExecutionSummary []
    (VObj [("storyContext", VObj []); ("knowledgeGraph", VObj [])])
  = Normal (mkSummary 0 0 true true false false false false
              ["Genre identified: undefined"; "0 characters mapped"]).
Proof. reflexivity. Qed.

(** C8.  The [results] handed to generateExecutionSummary hold one entry
    per invocation that returned: a node whose invocation threw is not in
    it.  [agentsExecuted] is the number of those entries and
    [successfulAgents] the number of them whose result has no truthy
    [error] field; and on any context object the summary is computed
    without throwing, whatever sub-fields its slots have or lack. *)
Theorem C8_summary_counts_returned_invocations now st success wf res sum :
  (fullRun executeAgent AGENT_DEFINITIONS save_outcome now st).2
  = Normal (RespFull success wf res sum) ->
  let trace := new_calls st (fullRun executeAgent AGENT_DEFINITIONS save_outcome now st).1 in
  agentsExecuted sum = length (List.filter succeeded trace)
  /\ agentsExecuted sum = length res
  /\ successfulAgents sum = length (filter (fun r => no_error_field r = true) res)
  /\ forall results ps, exists s, generateExecutionSummary results (VObj ps) = Normal s.
Proof.
  intros H. cbv zeta.
  destruct (fullRun_status executeAgent AGENT_DEFINITIONS save_outcome now st)
    as [[_ [e He]]|(_ & _ & Hn)]; [rewrite He in H; discriminate|].
  destruct (fullRun_trace executeAgent AGENT_DEFINITIONS save_outcome now st)
    as (_ & _ & _ & _ & _ & Ht).
  destruct (Ht Hn) as (_ & _ & Hlen).
  destruct (fullRun_report now st _ H) as (sum' & _ & Hr & E & Hresp).
  injection Hresp as _ _ -> ->.
  assert (Hres : results (fullRun executeAgent AGENT_DEFINITIONS save_outcome now st).1
                 = results (looped now st).1)
    by (rewrite Hr; reflexivity).
  rewrite Hres in Hlen. rewrite <- Hlen.
  destruct (generateExecutionSummary_counts _ _ _ E) as [H1 H2].
  repeat split; auto. intros. apply generateExecutionSummary_total.
Qed.

(** *** The checkpoints *)

(** The checkpoints of a full run, whatever writes are rejected. *)
Lemma fullRun_checkpoints now st :
  let after := (fullRun executeAgent AGENT_DEFINITIONS save_outcome now st).1 in
  let N := length (w_nodes (doc st)) in
  exists earlier,
    (new_saved st after = earlier \/ new_saved st after = earlier ++ [doc after])
    /\ (length earlier <= 1 + 3 * N)%nat
    /\ Forall (fun w => w_status w = WfRunning
                        /\ w_lastRun w = Some now
                        /\ totalNodes (w_progress w) = N
                        /\ w_analysisContext w = w_analysisContext (doc st)
                        /\ w_brief w = w_brief (doc st)
                        /\ w_inputs w = w_inputs (doc st)
                        /\ map identity (w_nodes w) = map identity (w_nodes (doc st)))
         earlier
    /\ w_brief (doc after) = w_brief (doc st)
    /\ w_inputs (doc after) = w_inputs (doc st)
    /\ w_lastRun (doc after) = Some now
    /\ map identity (w_nodes (doc after)) = map identity (w_nodes (doc st))
    /\ (accepts save_outcome ->
          new_saved st after = earlier ++ [doc after]
          /\ (1 + 2 * N <= length earlier)%nat).
Proof.
  cbv zeta.
  pose proof (loop_checkpoints executeAgent AGENT_DEFINITIONS save_outcome
                (w_nodes (doc st)) 0 (run_start now st)) as (K & new & Ls & Lf & Ll).
  rewrite run_start_doc in K, Lf. rewrite run_start_saved in Ls.
  pose proof (kept_started now (doc st) _ K) as (K1 & K2 & K3 & K4 & K5 & K6 & K7).
  assert (Hearlier :
    Forall (fun w => w_status w = WfRunning
                     /\ w_lastRun w = Some now
                     /\ totalNodes (w_progress w) = length (w_nodes (doc st))
                     /\ w_analysisContext w = w_analysisContext (doc st)
                     /\ w_brief w = w_brief (doc st)
                     /\ w_inputs w = w_inputs (doc st)
                     /\ map identity (w_nodes w) = map identity (w_nodes (doc st)))
      (started now (doc st) :: new)).
  { apply List.Forall_cons; [apply kept_started, kept_refl|].
    eapply Forall_impl; [exact Lf|]. intros w. apply kept_started. }
  assert (Hlower : accepts save_outcome -> (2 * length (w_nodes (doc st)) <= length new)%nat).
  { intros Hacc.
    destruct (loop_accounting executeAgent AGENT_DEFINITIONS save_outcome Hacc
                (w_nodes (doc st)) 0 (run_start now st)) as (_ & (new' & Ls' & Ll') & _).
    rewrite run_start_saved, Ls in Ls'. apply app_inv_head in Ls'. now subst new'. }
  destruct (fullRun_paths executeAgent AGENT_DEFINITIONS save_outcome now st)
    as [(e & Hs & Hr)|[(e & Hl & Hr)|(Hl & [(e & Hs & Hr)| Hr])]];
    rewrite Hr; cbn [fst snd]; unfold new_saved.
  - exists []. cbn [saved doc unwritten with_doc]. rewrite drop_all.
    split; [left; reflexivity|]. split; [cbn [length]; lia|].
    split; [apply List.Forall_nil|].
    split; [reflexivity|]. split; [reflexivity|]. split; [reflexivity|].
    split; [reflexivity|].
    intros Hacc. rewrite Hacc in Hs. discriminate.
  - exists (started now (doc st) :: new). rewrite Ls, <- app_assoc, drop_app_own.
    split; [left; reflexivity|]. split; [cbn [length]; lia|].
    split; [exact Hearlier|]. split; [exact K5|]. split; [exact K6|].
    split; [exact K2|]. split; [exact K7|].
    intros Hacc.
    destruct (loop_accounting executeAgent AGENT_DEFINITIONS save_outcome Hacc
                (w_nodes (doc st)) 0 (run_start now st)) as (Hl' & _).
    rewrite Hl in Hl'. discriminate.
  - exists (started now (doc st) :: new). cbn [saved doc unwritten]. unfold run_end.
    cbn [saved doc with_doc]. rewrite Ls, <- app_assoc, drop_app_own.
    split; [left; reflexivity|]. split; [cbn [length]; lia|].
    split; [exact Hearlier|]. split; [exact K5|]. split; [exact K6|].
    split; [exact K2|]. split; [exact K7|].
    intros Hacc. rewrite Hacc in Hs. discriminate.
  - exists (started now (doc st) :: new). cbn [saved doc written]. unfold run_end.
    cbn [saved doc with_doc]. rewrite Ls, <- !app_assoc, drop_app_own.
    split; [right; reflexivity|]. split; [cbn [length]; lia|].
    split; [exact Hearlier|]. split; [exact K5|]. split; [exact K6|].
    split; [exact K2|]. split; [exact K7|].
    intros Hacc. split; [reflexivity|]. specialize (Hlower Hacc). cbn [length]. lia.
Qed.

(** X4.  The checkpoints of a full run over N nodes.  Whatever writes
    are rejected, the checkpoints written before the last one are at most
    1 + 3 N, and every one of them has the status 'running', the date of
    this run, [totalNodes] = N and the analysis context the document had
    before the run (the new context is written with the last checkpoint
    only); no checkpoint changes the brief, the inputs, or the id, agent
    kind or label of a node.  When every write is accepted, these
    checkpoints are the one of the start and two or three for each node,
    and after them comes the last one, the document the run ends with. *)
Theorem X4_full_run_checkpoints now st :
  let after := (fullRun executeAgent AGENT_DEFINITIONS save_outcome now st).1 in
  let N := length (w_nodes (doc st)) in
  exists earlier,
    (new_saved st after = earlier \/ new_saved st after = earlier ++ [doc after])
    /\ (length earlier <= 1 + 3 * N)%nat
    /\ Forall (fun w => w_status w = WfRunning
                        /\ w_lastRun w = Some now
                        /\ totalNodes (w_progress w) = N
                        /\ w_analysisContext w = w_analysisContext (doc st)
                        /\ w_brief w = w_brief (doc st)
                        /\ w_inputs w = w_inputs (doc st)
                        /\ map identity (w_nodes w) = map identity (w_nodes (doc st)))
         earlier
    /\ w_brief (doc after) = w_brief (doc st)
    /\ w_inputs (doc after) = w_inputs (doc st)
    /\ w_lastRun (doc after) = Some now
    /\ map identity (w_nodes (doc after)) = map identity (w_nodes (doc st))
    /\ (accepts save_outcome ->
          new_saved st after = earlier ++ [doc after]
          /\ (1 + 2 * N <= length earlier)%nat).
Proof. exact (fullRun_checkpoints now st). Qed.

(** *** Statuses and progress *)

(** X5.  A full run leaves the ids of the nodes as they were.  Once it
    has taken every turn (its status is no longer 'running'), no node is
    left 'pending' or 'running': every node has the status 'success' or
    'error'; the entries of [errors] are the ids of the nodes with status
    'error', in stored order; [completedNodes] holds, in stored order,
    the ids of the nodes with status 'success' among ids of nodes.  When
    every write is accepted, [completedNodes] lists exactly the ids of
    the nodes with status 'success'. *)
Theorem X5_full_run_statuses now st :
  let after := (fullRun executeAgent AGENT_DEFINITIONS save_outcome now st).1 in
  let p := w_progress (doc after) in
  let nodes := w_nodes (doc after) in
  map n_id nodes = map n_id (w_nodes (doc st))
  /\ (w_status (doc after) <> WfRunning ->
        forallb (fun n => status_is StSuccess n || status_is StError n) nodes = true
        /\ map fst (errors p) = map n_id (List.filter (status_is StError) nodes)
        /\ map n_id (List.filter (status_is StSuccess) nodes) `sublist_of` completedNodes p
        /\ completedNodes p `sublist_of` map n_id nodes)
  /\ (accepts save_outcome ->
        completedNodes p = map n_id (List.filter (status_is StSuccess) nodes)).
Proof.
  cbv zeta.
  destruct (fullRun_checkpoints now st) as (_ & _ & _ & _ & _ & _ & _ & Hid & _).
  split; [now apply map_identity_ids|]. split.
  - intros Hn.
    destruct (fullRun_status executeAgent AGENT_DEFINITIONS save_outcome now st)
      as [[Hs _]|(Hl & Hd & _)]; [contradiction|].
    pose proof (loop_status executeAgent AGENT_DEFINITIONS save_outcome
                  (w_nodes (doc st)) 0 (run_start now st) eq_refl Hl) as L.
    cbv zeta in L. destruct L as (L1 & L2 & L3 & cs & L4 & L5 & L6).
    rewrite run_start_progress in L3, L4. cbn [errors completedNodes map app] in L3, L4.
    rewrite drop_0 in *.
    rewrite Hd, run_end_doc.
    cbn [w_nodes w_progress finished_run set_analysisContext set_progress set_w_status
         completedNodes errors set_currentNode].
    rewrite L4. auto.
  - intros Hacc.
    destruct (fullRun_accepted executeAgent AGENT_DEFINITIONS save_outcome now st Hacc)
      as (_ & ->).
    pose proof (loop_status_accepted executeAgent AGENT_DEFINITIONS save_outcome Hacc
                  (w_nodes (doc st)) 0 (run_start now st) eq_refl) as L.
    cbv zeta in L. rewrite run_start_progress, drop_0 in L. cbn [completedNodes app] in L.
    cbn [fst doc written]. rewrite run_end_doc.
    cbn [w_nodes w_progress finished_run set_analysisContext set_progress set_w_status
         completedNodes set_currentNode].
    exact L.
Qed.

(** *** The order of the invocations *)

(** X6.  In a full run of a request that starts without results, the
    agents are invoked in the stored order of the nodes, at most once per
    node; [results] holds, in that order, the agent kind and the result
    of each invocation that returned, under ids of nodes in stored order;
    and every id in [completedNodes] has its entry in [results]. *)
Theorem X6_full_run_order now st :
  results st = [] ->
  let after := (fullRun executeAgent AGENT_DEFINITIONS save_outcome now st).1 in
  let trace := new_calls st after in
  map c_agentType trace `sublist_of` map (fun n => d_agentType (n_data n)) (w_nodes (doc st))
  /\ map (fun e => (r_agentType e, r_result e)) (results after) = omap returned trace
  /\ map r_nodeId (results after) `sublist_of` map n_id (w_nodes (doc st))
  /\ completedNodes (w_progress (doc after)) `sublist_of` map r_nodeId (results after).
Proof.
  intros Hres. cbv zeta.
  destruct (loop_in_order executeAgent AGENT_DEFINITIONS save_outcome
              (w_nodes (doc st)) 0 (run_start now st))
    as (tr & rs & cs & L1 & L2 & L3 & L4 & L5 & L6 & L7 & _).
  rewrite run_start_calls in L1. rewrite run_start_results in L2.
  rewrite run_start_progress in L3. cbn [completedNodes app] in L2, L3.
  destruct (fullRun_paths executeAgent AGENT_DEFINITIONS save_outcome now st)
    as [(e & Hs & Hr)|[(e & Hl & Hr)|(Hl & [(e & _ & Hr)| Hr])]];
    rewrite Hr; cbn [fst snd]; unfold new_calls.
  - cbn [calls results doc unwritten with_doc]. rewrite drop_all, Hres.
    cbn [map omap]. repeat split; apply sublist_nil_l.
  - rewrite L1, L2, L3, drop_app_own. auto.
  - unfold run_end.
    cbn [calls results doc unwritten with_doc finished_run w_progress set_analysisContext
         set_progress completedNodes set_currentNode].
    rewrite L1, L2, L3, drop_app_own. auto.
  - unfold run_end.
    cbn [calls results doc written with_doc finished_run w_progress set_analysisContext
         set_progress completedNodes set_currentNode].
    rewrite L1, L2, L3, drop_app_own. auto.
Qed.

(** X7.  When every write is accepted, the snapshot of the initial
    context can be taken (the brief is a string or falsy) and the agents
    hand back contexts whose snapshot can be taken, a full run invokes
    the agent of every node, once each and in stored order. *)
Theorem X7_full_run_invokes_every_node now st :
  accepts save_outcome ->
  (exists snap, inputSnapshot (initialContext (doc st)) = Normal snap) ->
  (forall k kind context ru,
      (exists snap, inputSnapshot context = Normal snap) ->
      executeAgent k kind context = Normal ru ->
      exists snap, inputSnapshot ru.2 = Normal snap) ->
  let after := (fullRun executeAgent AGENT_DEFINITIONS save_outcome now st).1 in
  map c_agentType (new_calls st after)
  = map (fun n => d_agentType (n_data n)) (w_nodes (doc st)).
Proof.
  intros Hacc Hs Hagent. cbv zeta.
  destruct (fullRun_accepted executeAgent AGENT_DEFINITIONS save_outcome now st Hacc)
    as (_ & ->).
  destruct (loop_invokes executeAgent AGENT_DEFINITIONS save_outcome Hacc
              (w_nodes (doc st)) 0 (run_start now st) Hs Hagent) as (tr & L1 & L2).
  rewrite run_start_calls in L1.
  unfold new_calls, run_end. cbn [fst calls written with_doc].
  now rewrite L1, drop_app_own.
Qed.

(** X8.  When an invocation of a full run returns without a context
    ([updatedContext] is [undefined] or [null]), it is the last
    invocation of the run: no later node has its agent invoked, since
    taking its snapshot throws.  The loop ends with that context; the
    run throws, at the latest when generateExecutionSummary reads the
    context; and once the run has taken every turn the document holds
    that context as its [analysisContext]. *)
Theorem X8_context_lost now st k c ru :
  let after := (fullRun executeAgent AGENT_DEFINITIONS save_outcome now st).1 in
  let trace := new_calls st after in
  trace !! k = Some c ->
  c_outcome c = Normal ru ->
  nullish ru.2 = true ->
  length trace = S k
  /\ agentContext after = ru.2
  /\ (w_status (doc after) <> WfRunning -> w_analysisContext (doc after) = ru.2)
  /\ exists e, (fullRun executeAgent AGENT_DEFINITIONS save_outcome now st).2 = Throw e.
Proof.
  cbv zeta. intros Hk Hout Hnull.
  pose proof (fullRun_trace executeAgent AGENT_DEFINITIONS save_outcome now st) as T.
  cbv zeta in T. destruct T as (_ & Hchain & _ & Hsnap & Hctx & Hfinal).
  set (trace := new_calls st (fullRun executeAgent AGENT_DEFINITIONS save_outcome now st).1) in *.
  assert (Hnext : next_context c = ru.2) by (unfold next_context; now rewrite Hout).
  assert (Hlen : length trace = S k).
  { destruct (trace !! S k) as [c'|] eqn:E.
    - exfalso. pose proof (chained_drop _ _ _ _ Hchain Hk) as Hd'.
      rewrite (drop_S _ _ _ E) in Hd'. destruct Hd' as [Hc _].
      destruct (Forall_lookup_1 _ _ _ _ Hsnap E) as [snap Hs].
      rewrite Hc, Hnext in Hs.
      destruct (inputSnapshot_nullish _ Hnull) as [e He]. congruence.
    - apply lookup_ge_None in E. apply lookup_lt_Some in Hk. lia. }
  assert (Hfin : final_context (initialContext (doc st)) trace = ru.2).
  { rewrite <- (take_drop k trace), final_context_app, (drop_S _ _ _ Hk).
    rewrite drop_ge by lia. simpl. exact Hnext. }
  assert (Hne : trace <> []) by (intros E; rewrite E in Hk; discriminate).
  split; [exact Hlen|]. split; [now rewrite (Hctx Hne)|].
  split; [intros Hn; destruct (Hfinal Hn) as (-> & _); exact Hfin|].
  destruct ((fullRun executeAgent AGENT_DEFINITIONS save_outcome now st).2)
    as [resp|e] eqn:Hresp; [|eauto].
  exfalso.
  destruct (fullRun_report now st resp Hresp) as (sum & _ & Hr & E & _).
  pose proof (Hctx Hne) as Ha. rewrite Hr in Ha. unfold run_end in Ha.
  cbn [agentContext written with_doc] in Ha. rewrite Ha, Hfin in E.
  destruct (ru.2); try discriminate.
Qed.

(** *** A full run starts afresh *)

(** X9.  When every write is accepted, a full run does not depend on
    what earlier runs left in the document: two documents with the same
    brief, inputs and nodes (ids, agent kinds and labels in stored
    order), run after the same number of earlier invocations, give the
    same invocations, the same [results], and end with the same
    progress, status and analysis context, whatever their nodes' status,
    input, result, output and error, their progress, status and analysis
    context were. *)
Theorem X9_full_run_starts_afresh now st1 st2 :
  accepts save_outcome ->
  w_brief (doc st1) = w_brief (doc st2) ->
  w_inputs (doc st1) = w_inputs (doc st2) ->
  map identity (w_nodes (doc st1)) = map identity (w_nodes (doc st2)) ->
  length (calls st1) = length (calls st2) ->
  let r1 := fullRun executeAgent AGENT_DEFINITIONS save_outcome now st1 in
  let r2 := fullRun executeAgent AGENT_DEFINITIONS save_outcome now st2 in
  new_calls st1 r1.1 = new_calls st2 r2.1
  /\ results r1.1 = results r2.1
  /\ w_progress (doc r1.1) = w_progress (doc r2.1)
  /\ w_status (doc r1.1) = w_status (doc r2.1)
  /\ w_analysisContext (doc r1.1) = w_analysisContext (doc r2.1).
Proof.
  intros Hacc Hb Hi Hn Hc. cbv zeta.
  destruct (fullRun_accepted executeAgent AGENT_DEFINITIONS save_outcome now st1 Hacc)
    as (_ & ->).
  destruct (fullRun_accepted executeAgent AGENT_DEFINITIONS save_outcome now st2 Hacc)
    as (_ & ->).
  assert (Hlen : length (w_nodes (doc st1)) = length (w_nodes (doc st2))).
  { rewrite <- (length_map identity), Hn. apply length_map. }
  assert (Hhead : n_id <$> head (w_nodes (doc st1)) = n_id <$> head (w_nodes (doc st2))).
  { destruct (w_nodes (doc st1)) as [|a l], (w_nodes (doc st2)) as [|b k];
      try discriminate; auto. apply map_cons_inv in Hn as [Hn _]. simpl. f_equal.
      now injection Hn. }
  assert (Hinit : initialContext (doc st1) = initialContext (doc st2)).
  { unfold initialContext. now rewrite Hb, Hi. }
  destruct (loop_fresh executeAgent AGENT_DEFINITIONS save_outcome Hacc
              (w_nodes (doc st1)) (w_nodes (doc st2)) 0
              (run_start now st1) (run_start now st2) Hn)
    as ((L1 & L2 & L3 & L4) & tr & T1 & T2).
  { unfold same_run.
    rewrite !run_start_context, !run_start_calls, !run_start_results, !run_start_progress,
      Hhead, Hlen, Hinit. auto. }
  rewrite run_start_calls in T1, T2.
  unfold new_calls, run_end.
  cbn [fst calls results doc written with_doc finished_run w_progress w_status
       w_analysisContext set_analysisContext set_progress set_w_status].
  rewrite T1, T2, !drop_app_own, L1, L3, L4. auto.
Qed.

(** *** The response of a full run *)

(** X10.  When a full run answers with its report, the [workflow] of the
    response is the document of the last checkpoint, [results] is the
    list the loop built, the summary is computed from that list and the
    stored analysis context, and [success] is true exactly when some node
    completed, that is, false exactly when the final status is
    'error'. *)
Theorem X10_full_run_response now st success wf res sum :
  (fullRun executeAgent AGENT_DEFINITIONS save_outcome now st).2
  = Normal (RespFull success wf res sum) ->
  let after := (fullRun executeAgent AGENT_DEFINITIONS save_outcome now st).1 in
  wf = doc after
  /\ last (saved after) = Some wf
  /\ res = results after
  /\ generateExecutionSummary res (w_analysisContext wf) = Normal sum
  /\ (success = true <-> completedNodes (w_progress wf) <> [])
  /\ (success = false <-> w_status wf = WfError).
Proof.
  intros Hresp. cbv zeta.
  destruct (fullRun_report now st _ Hresp) as (sum' & _ & Hr & E & H).
  injection H as -> -> -> ->. rewrite Hr.
  cbn [doc saved results written]. rewrite last_snoc_own. unfold run_end.
  cbn [doc results with_doc finished_run w_progress w_status w_analysisContext
       set_analysisContext set_progress set_w_status completedNodes set_currentNode].
  destruct (final_status_cases (w_progress (doc (looped now st).1))) as (F1 & _).
  repeat split; auto.
  - intros Hn Hc. rewrite Hc in Hn. discriminate.
  - intros Hc. destruct (completedNodes _); [congruence|reflexivity].
  - intros Hn. apply F1. destruct (completedNodes _); [reflexivity|discriminate].
  - intros Hn. apply F1 in Hn. now rewrite Hn.
Qed.

End FullRunProperties.

(** ** The single-node runner *)

Ltac caught_cases := unfold caught; destruct_save.

(** Every path through a single-node run on a node that is found:
    fifteen, by what failed and by whether the write of the [catch] block
    was accepted. *)
Ltac single_cases st Hfind :=
  rewrite (executeSingleAgent_eq _ _ _ _ st _ _ Hfind); cbv zeta;
  destruct_save_at (attempts st);
  [ destruct_call st;
    [ cbn [fst snd];
      destruct (formatAgentOutput _ _) as [?|?] eqn:?;
      [ destruct (inputSnapshot _) as [?|?] eqn:?;
        [ destruct_save_at (S (attempts st));
          [ destruct (NextResponse_json _) as [?|?] eqn:?; [ | caught_cases ]
          | caught_cases ]
        | caught_cases ]
      | caught_cases ]
    | caught_cases ]
  | caught_cases ].

Ltac frame_solver Hi Hid :=
  repeat lazymatch goal with
  | |- frame _ ?w ?w => apply frame_refl
  | |- frame _ _ (touch _ _ _) => apply (frame_touch _ _ _ _ _ _ Hi Hid)
  | |- frame _ _ (set_analysisContext _ _) => apply frame_set_analysisContext
  | |- frame _ _ (failed_node _ _ _) => unfold failed_node
  end.

Section SingleRun.

Variable executeAgent : nat -> string -> value -> completion (value * value).
Variable AGENT_DEFINITIONS : string -> value.
Variable save_outcome : nat -> workflow -> completion unit.


(** A single-node run writes at most three checkpoints, and they and the
    document it ends with differ from the document it started with in
    the target node and the analysis context only. *)
Lemma executeSingleAgent_checkpoints nodeId agentType st :
  checkpoints (frame nodeId) 3 st
    (executeSingleAgent executeAgent save_outcome nodeId agentType st).1.
Proof.
  destruct (find_node nodeId (w_nodes (doc st))) as [[i n]|] eqn:Hfind.
  - destruct (find_node_Some _ _ _ _ Hfind) as [Hi Hid].
    single_cases st Hfind; cbn [fst]; checkpoints_solver ltac:(frame_solver Hi Hid).
  - rewrite (executeSingleAgent_not_found _ _ _ _ _ Hfind).
    apply checkpoints_refl, frame_refl.
Qed.

(** C5.  A single-node run on node X leaves [progress] and the pipeline
    [status] as they were, and leaves every node whose id is not X exactly
    as it was (status, result, output and error included), in the document
    it ends with and in every checkpoint it saves, whether the node is
    found or not, whether the invocation, the formatter, the snapshot or
    the serialization of the answer succeeds or throws, and whether the
    writes are accepted or rejected. *)
Theorem C5_single_run_frame nodeId agentType st :
  let after := (executeSingleAgent executeAgent save_outcome nodeId agentType st).1 in
  frame nodeId (doc st) (doc after)
  /\ Forall (frame nodeId (doc st)) (new_saved st after).
Proof.
  cbv zeta.
  destruct (executeSingleAgent_checkpoints nodeId agentType st) as (K & new & Hs & Hf & _).
  split; [exact K|]. unfold new_saved. now rewrite Hs, drop_app_own.
Qed.

(** The agent is invoked once, on the reconstructed context, unless the
    write of line 53 is rejected. *)
Lemma executeSingleAgent_calls nodeId agentType st i n :
  find_node nodeId (w_nodes (doc st)) = Some (i, n) ->
  let kind := effectiveAgentType agentType n in
  let context := singleAgentContext (doc st) nodeId in
  calls (executeSingleAgent executeAgent save_outcome nodeId agentType st).1
  = calls st
    ++ match save_outcome (attempts st) (touch i (set_status StRunning) (doc st)) with
       | Normal _ => [mkCall kind context (executeAgent (length (calls st)) kind context)]
       | Throw _ => []
       end.
Proof.
  intros Hfind. cbv zeta. single_cases st Hfind; read_state;
    rewrite ?app_nil_r; reflexivity.
Qed.

(** C4.  In a single-node run on node X the agent is invoked once (not at
    all when the write of line 53 is rejected), and the context handed to
    it holds the brief and the manuscript of the pipeline and, folded in
    stored order by the Context Accumulator, the result of every node
    other than X that carries one, wherever it stands relative to X.  Key
    by key: [previousResults[k]] and the slot of [k] hold the result of
    the last such node of agent kind [k]; and the data stored on X itself
    make no difference. *)
Theorem C4_single_run_context nodeId agentType st i n :
  find_node nodeId (w_nodes (doc st)) = Some (i, n) ->
  let w := doc st in
  let after := (executeSingleAgent executeAgent save_outcome nodeId agentType st).1 in
  let context := singleAgentContext w nodeId in
  let kind := effectiveAgentType agentType n in
  new_calls st after
  = match save_outcome (attempts st) (touch i (set_status StRunning) w) with
    | Normal _ => [mkCall kind context (executeAgent (length (calls st)) kind context)]
    | Throw _ => []
    end
  /\ context = reconstructed w nodeId
  /\ opt_get context "storyBrief" = or_else (w_brief w) (VStr "")
  /\ opt_get context "manuscript"
     = or_else (or_else (opt_get (w_inputs w) "manuscript")
                        (opt_get (w_inputs w) "fullText")) (VStr "")
  /\ (forall k, opt_get (opt_get context "previousResults") k
                = last_result nodeId k (w_nodes w) VUndefined)
  /\ (forall k slot, route_slot_of_kind k = Some slot ->
        opt_get context slot = last_result nodeId k (w_nodes w) VUndefined)
  /\ (forall f,
        singleAgentContext
          (set_nodes
             (map (fun m => if String.eqb (n_id m) nodeId then on_data f m else m)
                  (w_nodes w)) w) nodeId
        = context).
Proof using executeAgent save_outcome.
  intros Hfind. cbv zeta.
  pose proof (executeSingleAgent_calls nodeId agentType st i n Hfind) as Hcalls.
  cbv zeta in Hcalls.
  destruct (restore_fold nodeId (w_nodes (doc st)) _ (context_ok_initial (doc st)))
    as (_ & Hprev & Hslot & Hbase).
  fold (singleAgentContext (doc st) nodeId) in Hprev, Hslot, Hbase.
  split; [|split; [|split; [|split; [|split; [|split]]]]].
  - unfold new_calls. rewrite Hcalls, drop_app_own. reflexivity.
  - apply fold_restore_project.
  - rewrite Hbase; [reflexivity|discriminate|].
    intros k Hk. apply route_slot_not_base in Hk. destruct Hk as (_ & Hk & _). now apply Hk.
  - rewrite Hbase; [reflexivity|discriminate|].
    intros k Hk. apply route_slot_not_base in Hk. destruct Hk as (_ & _ & Hk). now apply Hk.
  - intros k. rewrite Hprev. reflexivity.
  - intros k slot Hk. rewrite (Hslot _ _ Hk). f_equal.
    apply route_slot_table in Hk. simpl in Hk.
    repeat (destruct Hk as [[= <- <-]|Hk]; [reflexivity|]). contradiction.
  - intros f. unfold singleAgentContext. simpl. apply restore_fold_ignores_target.
Qed.

(** The answers of executeSingleAgent: 404 without touching anything, the
    failure, or the report of the node; it throws only when the write of
    its [catch] block is rejected. *)
Lemma executeSingleAgent_answers nodeId agentType st :
  let res := executeSingleAgent executeAgent save_outcome nodeId agentType st in
  (res = (st, Normal (RespError 404 "Node not found in workflow")))
  \/ (exists msg, res.2 = Normal (RespSingleFail msg))
  \/ (exists result nodeData msg, res.2 = Normal (RespSingleOk result nodeData msg))
  \/ (exists e, res.2 = Throw e).
Proof.
  cbv zeta. destruct (find_node nodeId (w_nodes (doc st))) as [[i n]|] eqn:Hfind.
  - right. single_cases st Hfind; cbn [snd]; eauto 6.
    match goal with H : NextResponse_json _ = Normal _ |- _ =>
      apply NextResponse_json_Normal in H; subst end.
    eauto 6.
  - left. apply (executeSingleAgent_not_found _ _ _ _ _ Hfind).
Qed.

(** *** A single-node run whose writes are accepted *)

Lemma executeSingleAgent_accepted nodeId agentType st i n :
  accepts save_outcome ->
  find_node nodeId (w_nodes (doc st)) = Some (i, n) ->
  executeSingleAgent executeAgent save_outcome nodeId agentType st
  = let context := singleAgentContext (doc st) nodeId in
    let kind := effectiveAgentType agentType n in
    let failure := fun (e : js_error) (s : state) =>
      (written (with_doc (failed_node i e) s), Normal (RespSingleFail (message e))) in
    let s1 := written (with_doc (touch i (set_status StRunning)) (put_context context st)) in
    let outcome := executeAgent (length (calls st)) kind context in
    let s2 := add_call (mkCall kind context outcome) s1 in
    match outcome with
    | Throw e => failure e s2
    | Normal ru =>
        let s3 := with_doc (touch i (set_result ru.1))
                    (with_doc (touch i (set_status StSuccess)) s2) in
        match formatAgentOutput kind ru.1 with
        | Throw e => failure e s3
        | Normal output =>
            let s4 := with_doc (touch i (set_output output)) s3 in
            match inputSnapshot context with
            | Throw e => failure e s4
            | Normal input =>
                let s5 := written
                            (with_doc (fun w => set_analysisContext
                                                  (spread (w_analysisContext w) ru.2) w)
                               (with_doc (touch i (set_input input)) s4)) in
                match NextResponse_json
                        (RespSingleOk ru.1
                           (set_input input
                              (set_output output
                                 (set_result ru.1
                                    (set_status StSuccess
                                       (set_status StRunning (n_data n))))))
                           (kind +:+ " executed successfully")) with
                | Throw e => failure e s5
                | Normal r => (s5, Normal r)
                end
            end
        end
    end.
Proof.
  intros Hacc Hfind. unfold accepts in Hacc.
  rewrite (executeSingleAgent_eq _ _ _ _ st _ _ Hfind). cbv zeta. unfold caught.
  rewrite Hacc.
  destruct (executeAgent _ _ _) as [[r u]|e]; [|now rewrite Hacc].
  cbn [fst snd].
  destruct (formatAgentOutput _ _) as [out|e]; [|now rewrite Hacc].
  destruct (inputSnapshot _) as [input|e]; [|now rewrite Hacc].
  rewrite Hacc.
  destruct (NextResponse_json _) as [resp|e]; [reflexivity|now rewrite Hacc].
Qed.

(** *** The node state machine *)

(** C7.  When every write is accepted and the agent invocation of a node
    fails, in the loop of the full run or in a single-node run, the node
    ends with status 'error' and the failure's message as its error, that
    document is the last one saved, and its result and its output are
    left as they were. *)
Theorem C7_error_transition e :
  accepts save_outcome ->
  (forall i n st snap,
      w_nodes (doc st) !! i = Some n ->
      inputSnapshot (agentContext st) = Normal snap ->
      executeAgent (length (calls st)) (d_agentType (n_data n)) (agentContext st)
      = Throw e ->
      let after := (node_step executeAgent AGENT_DEFINITIONS save_outcome i n st).1 in
      exists n',
        w_nodes (doc after) !! i = Some n'
        /\ last (saved after) = Some (doc after)
        /\ d_status (n_data n') = StError
        /\ d_error (n_data n') = VStr (message e)
        /\ d_result (n_data n') = d_result (n_data n)
        /\ d_output (n_data n') = d_output (n_data n))
  /\ (forall nodeId agentType st i n,
        find_node nodeId (w_nodes (doc st)) = Some (i, n) ->
        executeAgent (length (calls st)) (effectiveAgentType agentType n)
          (singleAgentContext (doc st) nodeId) = Throw e ->
        let after := (executeSingleAgent executeAgent save_outcome nodeId agentType st).1 in
        exists n',
          w_nodes (doc after) !! i = Some n'
          /\ last (saved after) = Some (doc after)
          /\ d_status (n_data n') = StError
          /\ d_error (n_data n') = VStr (message e)
          /\ d_result (n_data n') = d_result (n_data n)
          /\ d_output (n_data n') = d_output (n_data n)).
Proof.
  intros Hacc. split.
  - intros i n st snap Hi Hsnap Hthrow. cbv zeta.
    rewrite (node_step_accepted _ _ _ i n st Hacc). cbv zeta. rewrite Hsnap, Hthrow.
    cbn [fst]. rewrite last_written. read_state.
    rewrite !list_lookup_alter_eq, Hi. cbn [fmap option_fmap option_map].
    eexists. split; [reflexivity|]. cbn. auto 10.
  - intros nodeId agentType st i n Hfind Hthrow. cbv zeta.
    destruct (find_node_Some _ _ _ _ Hfind) as [Hi _].
    rewrite (executeSingleAgent_accepted nodeId agentType st i n Hacc Hfind). cbv zeta.
    rewrite Hthrow. cbn [fst]. rewrite last_written. read_state.
    rewrite !list_lookup_alter_eq, Hi. cbn [fmap option_fmap option_map].
    eexists. split; [reflexivity|]. cbn. auto 10.
Qed.

End SingleRun.

(** *** A node that completes, and a result that cannot be rendered *)

Section Transitions.

Variable executeAgent : nat -> string -> value -> completion (value * value).
Variable AGENT_DEFINITIONS : string -> value.
Variable save_outcome : nat -> workflow -> completion unit.


(** X11.  When every write is accepted, a node that completes carries the
    status 'success', the snapshot of the context as its input, the
    result and its rendering; it keeps its id, its agent kind and its
    label, also when a single-node request names another agent kind to
    run; and its [error] is not cleared, so the message of an earlier
    failure stays on the node.  In a single-node run the node completes
    only if the answer can be serialized: when the result holds a BigInt
    the node has been stored as above, and then ends with the status
    'error' and the serializer's message, and the answer is the
    failure. *)
Theorem X11_success_transition :
  accepts save_outcome ->
  (forall i n st snap r u out,
      w_nodes (doc st) !! i = Some n ->
      let kind := d_agentType (n_data n) in
      inputSnapshot (agentContext st) = Normal snap ->
      executeAgent (length (calls st)) kind (agentContext st) = Normal (r, u) ->
      formatAgentOutput kind r = Normal out ->
      let after := (node_step executeAgent AGENT_DEFINITIONS save_outcome i n st).1 in
      w_nodes (doc after) !! i
      = Some (mkNode (n_id n)
                (mkData kind (d_label (n_data n)) StSuccess snap r out (d_error (n_data n))))
      /\ last (saved after) = Some (doc after)
      /\ agentContext after = u)
  /\ (forall nodeId agentType st i n snap r u out,
        find_node nodeId (w_nodes (doc st)) = Some (i, n) ->
        let kind := effectiveAgentType agentType n in
        let context := singleAgentContext (doc st) nodeId in
        executeAgent (length (calls st)) kind context = Normal (r, u) ->
        formatAgentOutput kind r = Normal out ->
        inputSnapshot context = Normal snap ->
        let res := executeSingleAgent executeAgent save_outcome nodeId agentType st in
        let data := mkData (d_agentType (n_data n)) (d_label (n_data n)) StSuccess snap r out
                      (d_error (n_data n)) in
        let report := RespSingleOk r data (kind +:+ " executed successfully") in
        let message := "Do not know how to serialize a BigInt" in
        last (saved res.1) = Some (doc res.1)
        /\ (bigint_free (body report) = true ->
              w_nodes (doc res.1) !! i = Some (mkNode (n_id n) data)
              /\ res.2 = Normal report)
        /\ (bigint_free (body report) = false ->
              w_nodes (doc res.1) !! i
              = Some (mkNode (n_id n)
                        (mkData (d_agentType (n_data n)) (d_label (n_data n)) StError snap r
                           out (VStr message)))
              /\ res.2 = Normal (RespSingleFail message))).
Proof.
  intros Hacc. split.
  - intros i n st snap r u out Hi kind Hsnap Hcall Hfmt. cbv zeta.
    rewrite (node_step_accepted _ _ _ i n st Hacc). cbv zeta. fold kind.
    rewrite Hsnap, Hcall. cbn [fst snd]. rewrite Hfmt.
    cbn [fst]. rewrite last_written. read_state.
    rewrite !list_lookup_alter_eq, Hi. auto.
  - intros nodeId agentType st i n snap r u out Hfind kind context Hcall Hfmt Hsnap.
    cbv zeta.
    destruct (find_node_Some _ _ _ _ Hfind) as [Hi _].
    rewrite (executeSingleAgent_accepted _ _ nodeId agentType st i n Hacc Hfind). cbv zeta.
    fold kind context. rewrite Hcall. cbn [fst snd]. rewrite Hfmt, Hsnap.
    change (set_input snap
              (set_output out
                 (set_result r (set_status StSuccess (set_status StRunning (n_data n))))))
      with (mkData (d_agentType (n_data n)) (d_label (n_data n)) StSuccess snap r out
              (d_error (n_data n))).
    destruct (NextResponse_json_cases
                (RespSingleOk r
                   (mkData (d_agentType (n_data n)) (d_label (n_data n)) StSuccess snap r out
                      (d_error (n_data n)))
                   (kind +:+ " executed successfully"))) as [[Hb ->]|[Hb ->]];
      rewrite Hb; cbn [fst snd]; rewrite last_written; read_state;
      rewrite !list_lookup_alter_eq, Hi;
      (split; [reflexivity|]); split; intros; try discriminate; auto.
Qed.

(** X12.  When every write is accepted, the agent returns and
    formatAgentOutput throws on its result, the node ends with the status
    'error' and the formatter's message but holds the new result, next to
    the output of an earlier run.  In a full run the loop has already
    taken over the returned context and pushed the entry to [results],
    and the node goes to [errors], not to [completedNodes]; in a
    single-node run the analysis context stays as it was and the answer
    is the failure. *)
Theorem X12_rendering_failure e :
  accepts save_outcome ->
  (forall i n st snap r u,
      w_nodes (doc st) !! i = Some n ->
      let kind := d_agentType (n_data n) in
      inputSnapshot (agentContext st) = Normal snap ->
      executeAgent (length (calls st)) kind (agentContext st) = Normal (r, u) ->
      formatAgentOutput kind r = Throw e ->
      let after := (node_step executeAgent AGENT_DEFINITIONS save_outcome i n st).1 in
      w_nodes (doc after) !! i
      = Some (mkNode (n_id n)
                (mkData kind (d_label (n_data n)) StError snap r (d_output (n_data n))
                   (VStr (message e))))
      /\ agentContext after = u
      /\ results after
         = results st
           ++ [mkResult (n_id n) kind
                 (or_else (opt_get (AGENT_DEFINITIONS kind) "name") (d_label (n_data n))) r]
      /\ completedNodes (w_progress (doc after)) = completedNodes (w_progress (doc st))
      /\ errors (w_progress (doc after))
         = errors (w_progress (doc st)) ++ [(n_id n, message e)])
  /\ (forall nodeId agentType st i n r u,
        find_node nodeId (w_nodes (doc st)) = Some (i, n) ->
        let kind := effectiveAgentType agentType n in
        let context := singleAgentContext (doc st) nodeId in
        executeAgent (length (calls st)) kind context = Normal (r, u) ->
        formatAgentOutput kind r = Throw e ->
        let res := executeSingleAgent executeAgent save_outcome nodeId agentType st in
        w_nodes (doc res.1) !! i
        = Some (mkNode (n_id n)
                  (mkData (d_agentType (n_data n)) (d_label (n_data n)) StError
                     (d_input (n_data n)) r (d_output (n_data n)) (VStr (message e))))
        /\ w_analysisContext (doc res.1) = w_analysisContext (doc st)
        /\ last (saved res.1) = Some (doc res.1)
        /\ res.2 = Normal (RespSingleFail (message e))).
Proof.
  intros Hacc. split.
  - intros i n st snap r u Hi kind Hsnap Hcall Hfmt. cbv zeta.
    rewrite (node_step_accepted _ _ _ i n st Hacc). cbv zeta. fold kind.
    rewrite Hsnap, Hcall. cbn [fst snd]. rewrite Hfmt.
    read_state. rewrite !list_lookup_alter_eq, Hi. auto.
  - intros nodeId agentType st i n r u Hfind kind context Hcall Hfmt. cbv zeta.
    destruct (find_node_Some _ _ _ _ Hfind) as [Hi _].
    rewrite (executeSingleAgent_accepted _ _ nodeId agentType st i n Hacc Hfind). cbv zeta.
    fold kind context. rewrite Hcall. cbn [fst snd]. rewrite Hfmt.
    cbn [fst snd]. rewrite last_written. read_state.
    rewrite !list_lookup_alter_eq, Hi. auto.
Qed.


End Transitions.

(** ** The request handler *)





Section Requests.

Variable executeAgent : nat -> string -> value -> completion (value * value).
Variable AGENT_DEFINITIONS : string -> value.
Variable save_outcome : nat -> workflow -> completion unit.


(** X1.  The rejections of POST.  Without a session user the answer is
    401; with one but without a workflow id it is 400; when no workflow of
    that id belongs to the user it is 404; and in each of these cases
    nothing is loaded, saved or invoked.  When the workflow is found and
    the request names a node id the workflow does not have, the answer is
    404 "Node not found in workflow", and nothing is saved or invoked. *)
Theorem X1_POST_rejections session_user workflowId singleAgentId requestedAgentType
    findOne now st :
  let r := POST executeAgent AGENT_DEFINITIONS save_outcome session_user workflowId
             singleAgentId requestedAgentType findOne now st in
  (session_user = None -> r = (st, Normal (RespError 401 "Unauthorized")))
  /\ (forall userId, session_user = Some userId -> given workflowId = false ->
        r = (st, Normal (RespError 400 "Workflow ID is required")))
  /\ (forall userId, session_user = Some userId -> given workflowId = true ->
        findOne (default "" workflowId) userId = None ->
        r = (st, Normal (RespError 404 "Workflow not found")))
  /\ (forall userId w, session_user = Some userId -> given workflowId = true ->
        findOne (default "" workflowId) userId = Some w ->
        given singleAgentId = true ->
        find_node (default "" singleAgentId) (w_nodes w) = None ->
        r = (with_doc (fun _ => w) st, Normal (RespError 404 "Node not found in workflow"))).
Proof.
  cbv zeta. split; [|split; [|split]].
  - intros ->. reflexivity.
  - intros userId -> Hid. unfold POST. rewrite Hid. reflexivity.
  - intros userId -> Hid Hfound. unfold POST. rewrite Hid, Hfound. reflexivity.
  - intros userId w -> Hid Hfound Hsingle Hnode.
    rewrite (POST_dispatch _ _ _ _ _ _ _ _ _ _ _ Hid Hfound), Hsingle. unfold try_catchM.
    now rewrite (executeSingleAgent_not_found executeAgent save_outcome
                   (default "" singleAgentId) requestedAgentType
                   (with_doc (fun _ => w) st) Hnode).
Qed.

(** X2.  POST always answers: no exception leaves the handler.  And an
    answer with an error status other than 500 means that the request
    saved no checkpoint and invoked no agent. *)
Theorem X2_POST_always_answers session_user workflowId singleAgentId requestedAgentType
    findOne now st :
  let r := POST executeAgent AGENT_DEFINITIONS save_outcome session_user workflowId
             singleAgentId requestedAgentType findOne now st in
  exists resp,
    r.2 = Normal resp
    /\ forall http msg, resp = RespError http msg -> http <> 500%nat ->
         saved r.1 = saved st /\ calls r.1 = calls st.
Proof.
  cbv zeta. destruct session_user as [userId|]; [|eexists; split; [reflexivity|auto]].
  destruct (given workflowId) eqn:Hid.
  2:{ unfold POST. rewrite Hid. eexists; split; [reflexivity|auto]. }
  destruct (findOne (default "" workflowId) userId) as [w|] eqn:Hfound.
  2:{ unfold POST. rewrite Hid, Hfound. eexists; split; [reflexivity|auto]. }
  rewrite (POST_dispatch _ _ _ _ _ _ _ _ _ _ _ Hid Hfound). unfold try_catchM.
  destruct (given singleAgentId).
  - pose proof (executeSingleAgent_answers executeAgent save_outcome
                  (default "" singleAgentId) requestedAgentType
                  (with_doc (fun _ => w) st)) as H. cbv zeta in H.
    destruct (executeSingleAgent executeAgent save_outcome _ _ _) as [s' c]. cbn [fst snd] in *.
    destruct H as [[= -> ->]|[[msg ->]|[(result & nodeData & msg & ->)|[e ->]]]];
      (eexists; split; [reflexivity|]); intros http m; try discriminate.
    + intros _ _. auto.
    + intros [= <- _] Hne. now destruct Hne.
  - pose proof (fullRun_report executeAgent AGENT_DEFINITIONS save_outcome now
                  (with_doc (fun _ => w) st)) as H.
    destruct (fullRun executeAgent AGENT_DEFINITIONS save_outcome now _) as [s' [resp|e]];
      cbn [fst snd] in *.
    + destruct (H resp eq_refl) as (sum & _ & _ & _ & ->).
      eexists; split; [reflexivity|]. intros; discriminate.
    + eexists; split; [reflexivity|]. intros http m [= <- _] Hne. now destruct Hne.
Qed.



End Requests.

(** ** A write that is rejected, a snapshot that is not taken *)

(** C1.  When every write is accepted, after a full run over a pipeline
    of N >= 1 nodes every node is counted once, in [completedNodes] or in
    [errors]; the final status is 'error' exactly when no node completed,
    'partial' exactly when some node completed and some node failed, and
    'completed' exactly when some node completed and none failed; and that
    document is the last one saved.  But on a pipeline of one node whose
    agent returns and whose write of line 203 is rejected, the loop goes
    on and the run ends with the node in [completedNodes] and in
    [errors]: two entries for one node, the status 'partial' and
    [success: true], while the node has the status 'error'. *)
Theorem C1_rejected_write_counts_node_twice :
  (forall executeAgent AGENT_DEFINITIONS save_outcome now st,
      accepts save_outcome ->
      (1 <= length (w_nodes (doc st)))%nat ->
      let after := (fullRun executeAgent AGENT_DEFINITIONS save_outcome now st).1 in
      let p := w_progress (doc after) in
      (length (completedNodes p) + length (errors p) = length (w_nodes (doc st)))%nat
      /\ (w_status (doc after) = WfError <-> completedNodes p = [])
      /\ (w_status (doc after) = WfPartial <-> completedNodes p <> [] /\ errors p <> [])
      /\ (w_status (doc after) = WfCompleted <-> completedNodes p <> [] /\ errors p = [])
      /\ last (saved after) = Some (doc after))
  /\ (let r := fullRun (scripted [Normal noir]) no_definitions
                 (rejecting 3 "connection lost") 7 (loaded lonely_pipeline) in
      let p := w_progress (doc r.1) in
      length (w_nodes lonely_pipeline) = 1%nat
      /\ p = mkProgress None ["A"] 1 [("A", "connection lost")]
      /\ (length (completedNodes p) + length (errors p) = 2)%nat
      /\ w_status (doc r.1) = WfPartial
      /\ map (fun n => d_status (n_data n)) (w_nodes (doc r.1)) = [StError]
      /\ last (saved r.1) = Some (doc r.1)
      /\ exists wf res sum, r.2 = Normal (RespFull true wf res sum)).
Proof.
  split.
  - intros executeAgent AGENT_DEFINITIONS save_outcome now st Hacc _. cbv zeta.
    destruct (fullRun_accounting executeAgent AGENT_DEFINITIONS save_outcome now st Hacc)
      as (Hn & _ & _ & Hs & Hl).
    destruct (final_status_cases
                (w_progress
                   (doc (fullRun executeAgent AGENT_DEFINITIONS save_outcome now st).1)))
      as (H1 & H2 & H3).
    rewrite Hs. auto.
  - vm_compute. repeat split; eauto.
Qed.

(** C9.  The snapshot the route writes to [node.data.input] is a bounded
    projection of the context handed to the agent: the brief cut to its
    first 500 characters followed by the marker "...", the manuscript
    reduced to a boolean, and previousResults reduced to the list of its
    keys.  But the single-node runner does not capture it on the
    transition to 'running': on a pipeline whose only node A fails, a
    single-node run of A saves A as 'running' and then as 'error', both
    without input, although the snapshot of its context can be taken; the
    full run on the same pipeline saves A as 'running' with the snapshot
    before the agent is invoked. *)
Theorem C9_single_run_skips_snapshot :
  (forall context snap,
      inputSnapshot context = Normal snap ->
      exists text keys,
        snap = VObj [ ("storyBrief", VStr (text +:+ "..."));
                      ("hasManuscript", VBool (truthy (opt_get context "manuscript")));
                      ("previousAgents", VArr (map VStr keys)) ]
        /\ (String.length text <= 500)%nat
        /\ (forall s, opt_get context "storyBrief" = VStr s ->
                      text = String.substring 0 500 s)
        /\ object_keys (opt_get context "previousResults") = Normal keys)
  /\ (let snap := VObj [ ("storyBrief", VStr "..."); ("hasManuscript", VBool false);
                         ("previousAgents", VArr []) ] in
      let seen := fun st : state =>
        map (fun w => map (fun n => (d_status (n_data n), d_input (n_data n))) (w_nodes w))
            (saved st) in
      let alone := executeSingleAgent failing_agent accept_all "A" None
                     (loaded lonely_pipeline) in
      let full := fullRun failing_agent no_definitions accept_all 7
                    (loaded lonely_pipeline) in
      inputSnapshot (singleAgentContext lonely_pipeline "A") = Normal snap
      /\ seen alone.1 = [ [(StRunning, VUndefined)]; [(StError, VUndefined)] ]
      /\ alone.2 = Normal (RespSingleFail "timeout")
      /\ seen full.1 = [ [(StPending, VUndefined)]; [(StRunning, VUndefined)];
                         [(StRunning, snap)]; [(StError, snap)]; [(StError, snap)] ]).
Proof.
  split; [intros context snap; apply inputSnapshot_shape|].
  vm_compute. repeat split.
Qed.

(** ** The full run with the Context Accumulator of the specification *)

(** With the scripted agent, the context after a trace records exactly the
    agent kinds it held at the start and those of the invocations that
    returned. *)
Lemma scripted_records script trace : forall n context,
  context_ok context ->
  chained context trace ->
  answered (scripted script) n trace ->
  context_ok (final_context context trace)
  /\ forall kind,
       recorded kind (final_context context trace)
       <-> recorded kind context
           \/ exists c, c ∈ trace /\ succeeded c = true /\ c_agentType c = kind.
Proof.
  induction trace as [|c trace IH]; intros n context Hok Hch Han; simpl.
  - split; [exact Hok|]. intros kind. split; [auto|].
    intros [H|(c & Hc & _)]; [exact H|]. now apply elem_of_nil in Hc.
  - destruct Hch as [Hc Hch]. destruct Han as [Ho Han].
    assert (Hnext : context_ok (next_context c)
                    /\ forall kind, recorded kind (next_context c)
                                    <-> (succeeded c = true /\ c_agentType c = kind)
                                        \/ recorded kind context).
    { unfold next_context, succeeded. rewrite Ho, Hc. unfold scripted.
      destruct (script !! n) as [[result|e]|]; simpl.
      - destruct (project_recorded listed_slot_of_kind (c_agentType c) result context
                    (listed_slot_not_base _) Hok) as [H1 H2].
        split; [exact H1|]. intros kind. rewrite H2.
        split; [intros [->|H]; auto | intros [[_ <-]|H]; auto].
      - split; [exact Hok|]. intros kind.
        split; [auto | intros [[H _]|H]; [discriminate|exact H]].
      - split; [exact Hok|]. intros kind.
        split; [auto | intros [[H _]|H]; [discriminate|exact H]]. }
    destruct Hnext as [Hok' Hrec].
    destruct (IH _ _ Hok' Hch Han) as [IH1 IH2].
    split; [exact IH1|]. intros kind. rewrite IH2, Hrec. split.
    + intros [[[H1 H2]|H]|(c' & Hin & H1 & H2)]; auto.
      * right. exists c. split; [apply elem_of_cons; auto|auto].
      * right. exists c'. split; [apply elem_of_cons; auto|auto].
    + intros [H|(c' & Hin & H1 & H2)]; auto.
      apply elem_of_cons in Hin. destruct Hin as [->|Hin]; auto.
      right. exists c'. auto.
Qed.

(** Under the Context Accumulator, the previousResults a node consumes in a
    full run hold exactly the agent kinds of the earlier nodes whose
    invocation returned: a failed node adds nothing, and its agent kind is
    there exactly when an earlier node of the same kind succeeded. *)
Lemma scripted_previousResults script definitions save_outcome now st k c kind :
  let trace := new_calls st (fullRun (scripted script) definitions save_outcome now st).1 in
  trace !! k = Some c ->
  (recorded kind (c_context c)
   <-> exists j c', (j < k)%nat /\ trace !! j = Some c'
                   /\ succeeded c' = true /\ c_agentType c' = kind).
Proof.
  cbv zeta. intros Hk.
  destruct (fullRun_trace (scripted script) definitions save_outcome now st)
    as (_ & Hch & Han & _).
  destruct (chained_take _ _ _ _ Hch Hk) as [Hch' ->].
  destruct (scripted_records script _ _ _ (context_ok_initial (doc st)) Hch'
              (answered_take _ _ _ k Han)) as [_ Hrec].
  rewrite Hrec. split.
  - intros [H|(c' & Hin & H1 & H2)]; [destruct H|].
    apply elem_of_take in Hin. destruct Hin as (j & Hj & Hlt). eauto 10.
  - intros (j & c' & Hlt & Hj & H1 & H2). right. exists c'.
    split; [apply elem_of_take; eauto|auto].
Qed.

(** * The properties on the example pipelines *)

Example example_run_is_partial :
  let after := (fullRun example_agent no_definitions accept_all 7
                  (loaded example_pipeline)).1 in
  w_status (doc after) = WfPartial
  /\ w_progress (doc after) = mkProgress None ["A"; "C"] 3 [("B", "timeout")]
  /\ opt_get (w_analysisContext (doc after)) "storyContext" = noir
  /\ opt_get (w_analysisContext (doc after)) "knowledgeGraph" = VUndefined.
Proof. vm_compute. auto. Qed.

(** In the example B's invocation fails and C receives the context B
    received. *)
Lemma C2_witness :
  let trace := new_calls (loaded example_pipeline)
                 (fullRun example_agent no_definitions accept_all 7
                    (loaded example_pipeline)).1 in
  exists c c',
    trace !! 1%nat = Some c /\ trace !! 2%nat = Some c'
    /\ c_outcome c = Throw timeout_error
    /\ c_context c' = c_context c.
Proof.
  cbv zeta.
  destruct (new_calls (loaded example_pipeline)
              (fullRun example_agent no_definitions accept_all 7
                 (loaded example_pipeline)).1
              !! 1%nat) as [c|] eqn:E1; [|vm_compute in E1; discriminate].
  destruct (new_calls (loaded example_pipeline)
              (fullRun example_agent no_definitions accept_all 7
                 (loaded example_pipeline)).1
              !! 2%nat) as [c'|] eqn:E2; [|vm_compute in E2; discriminate].
  assert (He : c_outcome c = Throw timeout_error)
    by (vm_compute in E1; injection E1 as <-; reflexivity).
  exists c, c'. repeat split; auto.
  exact (proj1 (C2_failed_invocation_keeps_context example_agent no_definitions accept_all
                  7 (loaded example_pipeline) 1 c c' timeout_error E1 E2 He)).
Defined.

(** C2 as stated fails: with two nodes of one agent kind, the first of
    which succeeds and the second of which fails, the kind of the failed
    node is in the previousResults the third node receives. *)
Lemma C2_counterexample :
  ~ absent_after_failure twin_agent no_definitions accept_all 7 (loaded twin_pipeline).
Proof.
  intros H. unfold absent_after_failure in H. cbv zeta in H.
  destruct (new_calls (loaded twin_pipeline)
              (fullRun twin_agent no_definitions accept_all 7 (loaded twin_pipeline)).1
              !! 1%nat) as [c|] eqn:E1; [|vm_compute in E1; discriminate].
  destruct (new_calls (loaded twin_pipeline)
              (fullRun twin_agent no_definitions accept_all 7 (loaded twin_pipeline)).1
              !! 2%nat) as [c'|] eqn:E2; [|vm_compute in E2; discriminate].
  assert (He : c_outcome c = Throw timeout_error)
    by (vm_compute in E1; injection E1 as <-; reflexivity).
  destruct (H 1%nat c c' timeout_error E1 E2 He) as [_ Habsent].
  apply Habsent.
  vm_compute in E1. injection E1 as <-.
  vm_compute in E2. injection E2 as <-.
  vm_compute. auto.
Qed.

(** Node A of a pipeline that ran before is run again: the teaser of T,
    which stands after A, is in the context, the old result of A is not. *)
Lemma C4_witness :
  find_node "A" (w_nodes (doc (loaded rerun_pipeline)))
  = Some (0%nat, finished "A" "story-intelligence" noir "**Genre:** noir")
  /\ length (new_calls (loaded rerun_pipeline)
               (executeSingleAgent (scripted [Normal noir]) accept_all "A" None
                  (loaded rerun_pipeline)).1) = 1%nat
  /\ singleAgentContext rerun_pipeline "A" = reconstructed rerun_pipeline "A"
  /\ opt_get (opt_get (singleAgentContext rerun_pipeline "A") "previousResults")
       "cinematic-teaser"
     = last_result "A" "cinematic-teaser" (w_nodes rerun_pipeline) VUndefined.
Proof.
  assert (H : find_node "A" (w_nodes (doc (loaded rerun_pipeline)))
              = Some (0%nat, finished "A" "story-intelligence" noir "**Genre:** noir"))
    by reflexivity.
  split; [exact H|].
  pose proof (C4_single_run_context (scripted [Normal noir]) accept_all "A" None
                (loaded rerun_pipeline) 0
                (finished "A" "story-intelligence" noir "**Genre:** noir") H) as T.
  cbv zeta in T. destruct T as (T1 & T2 & _ & _ & T5 & _).
  split; [now rewrite T1|]. split; [exact T2|exact (T5 "cinematic-teaser")].
Defined.

Example rerun_context :
  singleAgentContext rerun_pipeline "A"
  = VObj [ ("storyBrief", VStr "A detective story"); ("manuscript", VStr "");
           ("previousResults", VObj [("cinematic-teaser", teaser)]) ].
Proof. reflexivity. Qed.

(** C4 as stated fails: nodes A and B are of one agent kind and carry
    different results; in a single-node run of C the result of B is under
    that kind and in its slot, and the result of A is nowhere in the
    context. *)
Lemma C4_counterexample : ~ every_result_projected redrafted_pipeline "C".
Proof.
  intros H.
  destruct (H (finished "A" "story-intelligence" noir "**Genre:** noir")
              (or_introl eq_refl) eq_refl) as [H1 _].
  vm_compute in H1. discriminate.
Qed.

Example redrafted_context :
  singleAgentContext redrafted_pipeline "C"
  = VObj [ ("storyBrief", VStr "A detective story"); ("manuscript", VStr "");
           ("previousResults", VObj [("story-intelligence", western)]);
           ("storyContext", western) ].
Proof. reflexivity. Qed.

(** The story node projected into the initial context of the example. *)
Lemma C6_witness :
  context_ok (initialContext rerun_pipeline)
  /\ contributes "T" (finished "A" "story-intelligence" noir "**Genre:** noir") = true
  /\ opt_get (restore "T" (initialContext rerun_pipeline)
                (finished "A" "story-intelligence" noir "**Genre:** noir"))
       "storyContext" = noir.
Proof.
  assert (H1 : context_ok (initialContext rerun_pipeline)) by apply context_ok_initial.
  assert (H2 : contributes "T" (finished "A" "story-intelligence" noir "**Genre:** noir")
               = true) by reflexivity.
  split; [exact H1|]. split; [exact H2|].
  pose proof (C6_six_slots_projected "T" (initialContext rerun_pipeline)
                (finished "A" "story-intelligence" noir "**Genre:** noir") H1 H2) as T.
  cbv zeta in T. destruct T as (_ & _ & T3). exact (proj1 T3).
Defined.

(** C6 as stated fails: the result of a [cinematic-teaser] node is recorded
    under previousResults, and [teaserContent] stays unset. *)
Lemma C6_counterexample :
  ~ seven_slots_projected "A" (initialContext rerun_pipeline)
      (finished "T" "cinematic-teaser" teaser "**Tagline:** Trust no one").
Proof.
  intros H. destruct (H eq_refl) as [_ H']. vm_compute in H'. discriminate.
Qed.

(** A failing turn of the loop on the only node of a pipeline, and a failing
    re-run of node A, which keeps the result and the output of its earlier
    success. *)
Lemma C7_witness :
  accepts accept_all
  /\ (exists n',
        w_nodes (doc (node_step failing_agent no_definitions accept_all 0
                        (pending "A" "story-intelligence")
                        (mkState lonely_pipeline [] [] (initialContext lonely_pipeline) []
                           0)).1) !! 0%nat = Some n'
        /\ d_status (n_data n') = StError
        /\ d_error (n_data n') = VStr "timeout"
        /\ d_result (n_data n') = VUndefined)
  /\ (exists n',
        w_nodes (doc (executeSingleAgent failing_agent accept_all "A" None
                        (loaded rerun_pipeline)).1)
          !! 0%nat = Some n'
        /\ d_status (n_data n') = StError
        /\ d_error (n_data n') = VStr "timeout"
        /\ d_result (n_data n') = noir
        /\ d_output (n_data n') = VStr "**Genre:** noir").
Proof.
  assert (Hacc : accepts accept_all) by (intros k w; reflexivity).
  split; [exact Hacc|].
  pose proof (C7_error_transition failing_agent no_definitions accept_all timeout_error
                Hacc) as [T1 T2].
  split.
  - destruct (T1 0%nat (pending "A" "story-intelligence")
                (mkState lonely_pipeline [] [] (initialContext lonely_pipeline) [] 0)
                (VObj [ ("storyBrief", VStr "..."); ("hasManuscript", VBool false);
                        ("previousAgents", VArr []) ])
                eq_refl eq_refl eq_refl) as (n' & H1 & _ & H3 & H4 & H5 & _).
    exists n'. auto.
  - destruct (T2 "A" None (loaded rerun_pipeline) 0%nat
                (finished "A" "story-intelligence" noir "**Genre:** noir")
                eq_refl eq_refl) as (n' & H1 & _ & H3 & H4 & H5 & H6).
    exists n'. auto.
Defined.

(** C7 as stated fails: node A of a pipeline that ran before holds the
    result and the output of that run; a re-run of A that fails leaves them
    in place next to status 'error'. *)
Lemma C7_counterexample :
  ~ unset_after_failure failing_agent accept_all (loaded rerun_pipeline) "A" None.
Proof.
  intros H.
  destruct (H 0%nat (finished "A" "story-intelligence" noir "**Genre:** noir")
              timeout_error eq_refl eq_refl) as (n' & H1 & _ & _ & _ & H5 & _).
  vm_compute in H1. injection H1 as <-. discriminate.
Qed.

(** In the example two invocations return and one throws: the summary
    counts two agents. *)
Lemma C8_witness :
  exists success wf res sum,
    (fullRun example_agent no_definitions accept_all 7 (loaded example_pipeline)).2
    = Normal (RespFull success wf res sum)
    /\ agentsExecuted sum = length res
    /\ length res = 2%nat.
Proof.
  destruct (fullRun example_agent no_definitions accept_all 7 (loaded example_pipeline)).2
    as [[| | |success wf res sum]|] eqn:E; try (vm_compute in E; discriminate).
  exists success, wf, res, sum. split; [reflexivity|].
  pose proof (C8_summary_counts_returned_invocations example_agent no_definitions
                accept_all 7 (loaded example_pipeline) success wf res sum E) as T.
  cbv zeta in T. destruct T as (_ & T2 & _). split; [exact T2|].
  vm_compute in E. injection E as _ _ <- _. reflexivity.
Defined.

(** C8 as stated fails: the only node of the pipeline is attempted and
    fails, and the summary reports no agent executed. *)
Lemma C8_counterexample :
  ~ summary_counts_attempts failing_agent no_definitions accept_all 7
      (loaded lonely_pipeline).
Proof.
  intros H. unfold summary_counts_attempts in H.
  destruct (fullRun failing_agent no_definitions accept_all 7 (loaded lonely_pipeline)).2
    as [[| | |success wf res sum]|] eqn:E; try (vm_compute in E; discriminate).
  destruct (H success wf res sum eq_refl) as [H1 _].
  vm_compute in E. injection E as _ _ _ <-. vm_compute in H1. discriminate.
Qed.


(** ** The further properties on the example pipelines *)

(** The four rejections, on requests for the example pipeline. *)
Lemma X1_witness :
  POST example_agent no_definitions accept_all None (Some "wf-1") None None
    (fun _ _ => Some example_pipeline) 7 (loaded example_pipeline)
  = (loaded example_pipeline, Normal (RespError 401 "Unauthorized"))
  /\ POST example_agent no_definitions accept_all (Some "user-1") (Some "") None None
       (fun _ _ => Some example_pipeline) 7 (loaded example_pipeline)
     = (loaded example_pipeline, Normal (RespError 400 "Workflow ID is required"))
  /\ POST example_agent no_definitions accept_all (Some "user-1") (Some "wf-1") None None
       (fun _ _ => None) 7 (loaded example_pipeline)
     = (loaded example_pipeline, Normal (RespError 404 "Workflow not found"))
  /\ POST example_agent no_definitions accept_all (Some "user-1") (Some "wf-1") (Some "Z")
       None (fun _ _ => Some example_pipeline) 7 (loaded lonely_pipeline)
     = (loaded example_pipeline, Normal (RespError 404 "Node not found in workflow")).
Proof.
  split; [|split; [|split]].
  - exact (proj1 (X1_POST_rejections example_agent no_definitions accept_all None
                    (Some "wf-1") None None (fun _ _ => Some example_pipeline) 7
                    (loaded example_pipeline))
             eq_refl).
  - exact (proj1 (proj2 (X1_POST_rejections example_agent no_definitions accept_all
                           (Some "user-1") (Some "") None None
                           (fun _ _ => Some example_pipeline) 7
                           (loaded example_pipeline)))
             "user-1" eq_refl eq_refl).
  - exact (proj1 (proj2 (proj2 (X1_POST_rejections example_agent no_definitions accept_all
                                  (Some "user-1") (Some "wf-1") None None
                                  (fun _ _ => None) 7 (loaded example_pipeline))))
             "user-1" eq_refl eq_refl eq_refl).
  - exact (proj2 (proj2 (proj2 (X1_POST_rejections example_agent no_definitions accept_all
                                  (Some "user-1") (Some "wf-1") (Some "Z") None
                                  (fun _ _ => Some example_pipeline) 7
                                  (loaded lonely_pipeline))))
             "user-1" example_pipeline eq_refl eq_refl eq_refl eq_refl eq_refl).
Defined.


(** The example run: the three agents are invoked in stored order. *)
Lemma X6_witness :
  results (loaded example_pipeline) = []
  /\ map c_agentType
       (new_calls (loaded example_pipeline)
          (fullRun example_agent no_definitions accept_all 7 (loaded example_pipeline)).1)
     `sublist_of` ["story-intelligence"; "knowledge-graph"; "continuity-validator"].
Proof.
  split; [reflexivity|].
  exact (proj1 (X6_full_run_order example_agent no_definitions accept_all 7
                  (loaded example_pipeline) eq_refl)).
Defined.

(** With an agent that hands the context back, the three agents of the
    example are invoked. *)
Lemma X7_witness :
  accepts accept_all
  /\ (exists snap,
         inputSnapshot (initialContext (doc (loaded example_pipeline))) = Normal snap)
  /\ map c_agentType
       (new_calls (loaded example_pipeline)
          (fullRun (steady_agent noir) no_definitions accept_all 7
             (loaded example_pipeline)).1)
     = ["story-intelligence"; "knowledge-graph"; "continuity-validator"].
Proof.
  assert (Hacc : accepts accept_all) by (intros k w; reflexivity).
  assert (H1 : exists snap,
             inputSnapshot (initialContext (doc (loaded example_pipeline))) = Normal snap)
    by (eexists; reflexivity).
  split; [exact Hacc|]. split; [exact H1|].
  apply (X7_full_run_invokes_every_node (steady_agent noir) no_definitions accept_all 7
           (loaded example_pipeline) Hacc H1).
  intros k kind context ru Hs [= <-]. exact Hs.
Defined.

(** With an agent that returns no context, only the first agent of the
    example is invoked. *)
Lemma X8_witness :
  let trace := new_calls (loaded example_pipeline)
                 (fullRun forgetful_agent no_definitions accept_all 7
                    (loaded example_pipeline)).1 in
  trace !! 0%nat
  = Some (mkCall "story-intelligence" (initialContext example_pipeline)
            (Normal (noir, VUndefined)))
  /\ length trace = 1%nat.
Proof.
  cbv zeta.
  assert (H : new_calls (loaded example_pipeline)
                (fullRun forgetful_agent no_definitions accept_all 7
                   (loaded example_pipeline)).1
              !! 0%nat
              = Some (mkCall "story-intelligence" (initialContext example_pipeline)
                        (Normal (noir, VUndefined)))) by (vm_compute; reflexivity).
  split; [exact H|].
  exact (proj1 (X8_context_lost forgetful_agent no_definitions accept_all 7
                  (loaded example_pipeline) 0 _ (noir, VUndefined) H eq_refl eq_refl)).
Defined.

(** The example pipeline and the same pipeline after an earlier run. *)
Lemma X9_witness :
  accepts accept_all
  /\ map identity (w_nodes (doc (loaded example_pipeline)))
     = map identity (w_nodes (doc (loaded stale_pipeline)))
  /\ w_progress (doc (fullRun example_agent no_definitions accept_all 7
                        (loaded example_pipeline)).1)
     = w_progress (doc (fullRun example_agent no_definitions accept_all 7
                          (loaded stale_pipeline)).1)
  /\ w_analysisContext
       (doc (fullRun example_agent no_definitions accept_all 7 (loaded example_pipeline)).1)
     = w_analysisContext
         (doc (fullRun example_agent no_definitions accept_all 7 (loaded stale_pipeline)).1).
Proof.
  assert (Hacc : accepts accept_all) by (intros k w; reflexivity).
  pose proof (X9_full_run_starts_afresh example_agent no_definitions accept_all 7
                (loaded example_pipeline) (loaded stale_pipeline)
                Hacc eq_refl eq_refl eq_refl eq_refl) as T.
  cbv zeta in T. destruct T as (_ & _ & T3 & _ & T5).
  split; [exact Hacc|]. split; [reflexivity|]. split; [exact T3|exact T5].
Defined.

(** The report of the example run. *)
Lemma X10_witness :
  exists success wf res sum,
    (fullRun example_agent no_definitions accept_all 7 (loaded example_pipeline)).2
    = Normal (RespFull success wf res sum)
    /\ last (saved (fullRun example_agent no_definitions accept_all 7
                      (loaded example_pipeline)).1)
       = Some wf
    /\ (success = true <-> completedNodes (w_progress wf) <> []).
Proof.
  destruct (fullRun example_agent no_definitions accept_all 7 (loaded example_pipeline)).2
    as [[| | |success wf res sum]|] eqn:E; try (vm_compute in E; discriminate).
  exists success, wf, res, sum. split; [reflexivity|].
  pose proof (X10_full_run_response example_agent no_definitions accept_all 7
                (loaded example_pipeline) success wf res sum E) as T.
  cbv zeta in T. destruct T as (_ & T2 & _ & _ & T5 & _). split; [exact T2|exact T5].
Defined.

(** Node B of the pipeline that ran before failed then; it completes now
    and keeps the message of that failure. *)
Lemma X11_witness :
  let st := mkState stale_pipeline [] [] (initialContext stale_pipeline) [] 0 in
  let B := mkNode "B" (mkData "knowledge-graph" (VStr "B") StError VUndefined noir
                         (VStr "stale") (VStr "quota exceeded")) in
  accepts accept_all
  /\ exists snap out,
       w_nodes (doc st) !! 1%nat = Some B
       /\ w_nodes (doc (node_step (steady_agent score82) no_definitions accept_all 1 B st).1)
            !! 1%nat
          = Some (mkNode "B" (mkData "knowledge-graph" (VStr "B") StSuccess snap score82 out
                                (VStr "quota exceeded"))).
Proof.
  cbv zeta.
  assert (Hacc : accepts accept_all) by (intros k w; reflexivity).
  split; [exact Hacc|].
  destruct (formatAgentOutput "knowledge-graph" score82) as [out|e] eqn:E;
    [|vm_compute in E; discriminate].
  eexists _, out. split; [reflexivity|].
  exact (proj1 (proj1 (X11_success_transition (steady_agent score82) no_definitions
                         accept_all Hacc)
                  1%nat _ (mkState stale_pipeline [] [] (initialContext stale_pipeline) [] 0)
                  _ score82 (initialContext stale_pipeline) out
                  eq_refl eq_refl eq_refl E)).
Defined.

(** A result with a BigInt, for an agent kind outside the switch: the
    node fails with the serializer's message and holds the result. *)
Lemma X12_witness :
  let st := mkState doctor_pipeline [] [] (initialContext doctor_pipeline) [] 0 in
  let after := (node_step (steady_agent word_count) no_definitions accept_all 0
                  (pending "D" "script-doctor") st).1 in
  accepts accept_all
  /\ formatAgentOutput "script-doctor" word_count
     = Throw (TypeError "Do not know how to serialize a BigInt")
  /\ (exists snap,
        w_nodes (doc after) !! 0%nat
        = Some (mkNode "D" (mkData "script-doctor" (VStr "D") StError snap word_count
                              VUndefined (VStr "Do not know how to serialize a BigInt"))))
  /\ length (results after) = 1%nat
  /\ completedNodes (w_progress (doc after)) = [].
Proof.
  cbv zeta.
  assert (Hacc : accepts accept_all) by (intros k w; reflexivity).
  assert (E : formatAgentOutput "script-doctor" word_count
              = Throw (TypeError "Do not know how to serialize a BigInt"))
    by (vm_compute; reflexivity).
  pose proof (proj1 (X12_rendering_failure (steady_agent word_count) no_definitions
                       accept_all (TypeError "Do not know how to serialize a BigInt") Hacc)
                0%nat (pending "D" "script-doctor")
                (mkState doctor_pipeline [] [] (initialContext doctor_pipeline) [] 0)
                _ word_count (initialContext doctor_pipeline)
                eq_refl eq_refl eq_refl E) as T.
  cbv zeta in T. destruct T as (T1 & _ & T3 & T4 & _).
  split; [exact Hacc|]. split; [exact E|]. split; [eexists; exact T1|].
  split; [now rewrite T3|exact T4].
Defined.


(** A single-node run whose agent answers a count that JSON cannot hold:
    the node is stored with the result and its rendering, and then fails
    on the answer; the document has the returned context. *)
Example single_run_bigint :
  let res := executeSingleAgent (steady_agent word_count) accept_all "B" None
               (loaded example_pipeline) in
  res.2 = Normal (RespSingleFail "Do not know how to serialize a BigInt")
  /\ map (fun n => (d_status (n_data n), d_result (n_data n))) (w_nodes (doc res.1))
     = [ (StPending, VUndefined); (StError, word_count); (StPending, VUndefined) ]
  /\ w_analysisContext (doc res.1) = spread VUndefined (singleAgentContext example_pipeline "B").
Proof. vm_compute. auto. Qed.
